(** * EasyDCP / phenotypy: the point-cloud analysis pipeline of [phenotypy/base.py]

    A shallow embedding of [Classifier], [Plot] and [Plant] and the properties
    of the pipeline that the specification states about them.

    Conventions of the embedding.
    - float64 values are idealised as exact rationals ([Q]); [NaN] is kept as a
      separate value ([float64]), because the code's failure modes depend on it.
      A statement about a number gives the expression the code evaluates,
      not its rounding.
    - Python exceptions are values of [exn]; a computation that can raise
      returns a [result].
    - File-system and drawing side effects are recorded as a trace of [event]s
      next to the outcome ([IO]); console output is not recorded.
    - Python dictionaries are insertion-ordered association lists with unique
      keys ([dict]); Python sets of labels are [gset Z].  The order in which
      the interpreter iterates over a set is a parameter ([SetOrder]): every
      element comes once, and nothing else is assumed of it.
    - [Plot.__init__] is modelled with the readers of [phenotypy/io/pcd.py]
      as they are: it calls them with a keyword they do not have.  The rest
      of the constructor, from the line after the cloud is loaded, is
      [Plot_init_loaded]; the methods of [Plot] are stated for the objects it
      builds.
    - What the code calls outside [base.py] is behind three interfaces:
      [Sklearn] (the fitted tree and the k-means labels), [Open3d] (outlier
      filters, DBSCAN, the point-in-polygon test) and [Helpers] (the modules
      of the package that are not among the sources at hand,
      [phenotypy.pcd_tools], [phenotypy.geometry], and skimage).  numpy, the
      failure modes of scipy's density estimate and of sklearn's estimators
      are modelled directly.
    - After the pipeline come [Plant_New], the reader of ply files of
      [phenotypy/io/pcd.py], the example script [run_one.py] and, in the
      module [creation], the parts of the Metashape script
      [easypcp/creation/creation.py] that work on names, lists and marker
      positions. *)

From Stdlib Require Import ZArith QArith Qround Qminmax Lia Lqa List.
From stdpp Require Import base option list gmap strings pretty.
Import ListNotations.

(** ** Exceptions and the two monads *)

Inductive exn :=
| ValueError | IndexError | KeyError | TypeError | AttributeError
| EOFError | NotFittedError | LinAlgError.

Inductive result (A : Type) :=
| OK (a : A)
| Raise (e : exn).
Arguments OK {A} a.
Arguments Raise {A} e.

#[global] Instance result_ret : MRet result := λ A a, OK a.
#[global] Instance result_bind : MBind result := λ A B f m,
  match m with OK a => f a | Raise e => Raise e end.

Inductive event :=
| MakeDir (path : string)
| WritePointCloud (path : string)
| DrawPlotSeg (savepath : string)
| Draw3d (savepath : string).

Record IO (A : Type) := MkIO { trace : list event; outcome : result A }.
Arguments MkIO {A} trace outcome.
Arguments trace {A} i.
Arguments outcome {A} i.

#[global] Instance IO_ret : MRet IO := λ A a, MkIO [] (OK a).
#[global] Instance IO_bind : MBind IO := λ A B f m,
  match outcome m with
  | OK a => MkIO (trace m ++ trace (f a)) (outcome (f a))
  | Raise e => MkIO (trace m) (Raise e)
  end.

Definition lift {A} (r : result A) : IO A := MkIO [] r.
Definition emit (e : event) : IO unit := MkIO [e] (OK tt).
Definition when (b : bool) (m : IO unit) : IO unit := if b then m else mret tt.

(** [for x in xs: body], threading an accumulator. *)
Fixpoint for_each {M : Type → Type} `{MRet M, MBind M} {A S : Type}
    (xs : list A) (s : S) (body : S → A → M S) : M S :=
  match xs with
  | [] => mret s
  | x :: xs' => s' ← body s x; for_each xs' s' body
  end.

(** ** float64 with NaN *)

Inductive float64 :=
| Fin (q : Q)
| NaN.

Definition fadd (a b : float64) : float64 :=
  match a, b with Fin x, Fin y => Fin (x + y) | _, _ => NaN end.
Definition fsub (a b : float64) : float64 :=
  match a, b with Fin x, Fin y => Fin (x - y) | _, _ => NaN end.
(** Comparisons with NaN are false. *)
Definition fgt (a b : float64) : bool :=
  match a, b with Fin x, Fin y => negb (Qle_bool x y) | _, _ => false end.
Definition flt (a b : float64) : bool := fgt b a.

Definition Qgtb (x y : Q) : bool := negb (Qle_bool x y).
Definition Qltb (x y : Q) : bool := negb (Qle_bool y x).

(** Python 3 [round(x)] on a float: nearest integer, ties to even. *)
Definition round (x : Q) : Z :=
  let f := Qfloor x in
  let r := (x - inject_Z f)%Q in
  match (r ?= 1 # 2)%Q with
  | Lt => f
  | Gt => (f + 1)%Z
  | Eq => if Z.even f then f else (f + 1)%Z
  end.

(** ** The part of numpy the code uses *)

Module np.

Fixpoint insert_sorted (x : Q) (l : list Q) : list Q :=
  match l with
  | [] => [x]
  | y :: l' => if Qle_bool x y then x :: l else y :: insert_sorted x l'
  end.

Definition sort (a : list Q) : list Q := foldr insert_sorted [] a.

Definition sum (a : list Q) : Q := foldr Qplus 0%Q a.

(** [a.mean()]: NaN (with a warning) on an empty array. *)
Definition mean (a : list Q) : float64 :=
  match a with
  | [] => NaN
  | _ => Fin (sum a / inject_Z (Z.of_nat (length a)))
  end.

(** [a.min()], [a.max()]: ValueError on an empty array. *)
Definition min (a : list Q) : result Q :=
  match a with [] => Raise ValueError | x :: a' => OK (foldl Qmin x a') end.
Definition max (a : list Q) : result Q :=
  match a with [] => Raise ValueError | x :: a' => OK (foldl Qmax x a') end.

(** [np.median(a)]: NaN on an empty array. *)
Definition median (a : list Q) : float64 :=
  let s := sort a in
  let n := length s in
  match n with
  | O => NaN
  | _ =>
    if Nat.even n
    then Fin ((nth (n / 2 - 1) s 0 + nth (n / 2) s 0) / 2)%Q
    else Fin (nth (n / 2) s 0%Q)
  end.

(** [np.percentile(a, q)] with the default linear interpolation: the value
    at the fractional index [q/100 * (n-1)] of the sorted array.  On an
    empty array the element access fails with IndexError. *)
Definition percentile (a : list Q) (q : Q) : result float64 :=
  let s := sort a in
  let n := length s in
  match n with
  | O => Raise IndexError
  | _ =>
    let idx := (q / 100 * inject_Z (Z.of_nat (n - 1)))%Q in
    let below := Z.to_nat (Qfloor idx) in
    let above := Nat.min (below + 1) (n - 1) in
    let w_above := (idx - inject_Z (Z.of_nat below))%Q in
    let w_below := (1 - w_above)%Q in
    OK (Fin (nth below s 0 * w_below + nth above s 0 * w_above)%Q)
  end.

(** [np.where(v == k)[0].tolist()] *)
Fixpoint where_eq_from (i : nat) (v : list Z) (k : Z) : list nat :=
  match v with
  | [] => []
  | x :: v' =>
    if Z.eqb x k then i :: where_eq_from (S i) v' k else where_eq_from (S i) v' k
  end.
Definition where_eq (v : list Z) (k : Z) : list nat := where_eq_from 0 v k.

(** [np.unique(v)]: the sorted distinct values. *)
Fixpoint insert_uniq (x : Z) (l : list Z) : list Z :=
  match l with
  | [] => [x]
  | y :: l' =>
    if Z.ltb x y then x :: l
    else if Z.eqb x y then l
    else y :: insert_uniq x l'
  end.
Definition unique (v : list Z) : list Z := foldr insert_uniq [] v.

(** [a[mask]] for a mask given as a predicate on the elements. *)
Definition select (p : Q → bool) (a : list Q) : list Q := List.filter p a.

End np.

(** ** Point clouds and dictionaries *)

Abbreviation Color := (Q * Q * Q)%type.

Record Point := { px : Q; py : Q; pz : Q; rgb : Color }.

(** An [o3d.geometry.PointCloud]: positions and colours, index-aligned. *)
Abbreviation PointCloud := (list Point).

Definition points_z (c : PointCloud) : list Q := map pz c.
Definition colors (c : PointCloud) : list Color := map rgb c.

(** [pcd.select_down_sample(indices)] *)
Definition select_down_sample (c : PointCloud) (indices : list nat) : PointCloud :=
  omap (λ i, c !! i) indices.

(** [pcd.get_center()]: the mean position, the origin for an empty cloud. *)
Definition get_center (c : PointCloud) : Q * Q * Q :=
  match c with
  | [] => (0, 0, 0)%Q
  | _ =>
    let n := inject_Z (Z.of_nat (length c)) in
    (np.sum (map px c) / n, np.sum (map py c) / n, np.sum (map pz c) / n)%Q
  end.

(** A Python [dict] with integer keys, in insertion order. *)
Abbreviation dict V := (list (Z * V)).

Definition keys {V} (d : dict V) : list Z := map fst d.

Fixpoint dict_lookup {V} (d : dict V) (k : Z) : option V :=
  match d with
  | [] => None
  | (k', v) :: d' => if Z.eqb k' k then Some v else dict_lookup d' k
  end.

(** [d[k]] *)
Definition dict_get {V} (d : dict V) (k : Z) : result V :=
  match dict_lookup d k with Some v => OK v | None => Raise KeyError end.

(** [d[k] = v] *)
Fixpoint dict_set {V} (d : dict V) (k : Z) (v : V) : dict V :=
  match d with
  | [] => [(k, v)]
  | (k', v') :: d' => if Z.eqb k' k then (k, v) :: d' else (k', v') :: dict_set d' k v
  end.

(** [l[i]] on a Python list *)
Definition list_get {A} (l : list A) (i : nat) : result A :=
  match l !! i with Some a => OK a | None => Raise IndexError end.

(** [os.path.join(folder, name)], for a relative [name] *)
Definition path_join (folder name : string) : string := folder +:+ "/" +:+ name.

(** ** Iterating over a set *)

(** [for k in s] on a Python set visits every element once, in the order of
    the slots of its hash table: an order of the interpreter, not of the
    values. *)
Class SetOrder := {
  set_iter : gset Z → list Z;
  set_iter_NoDup : ∀ s, NoDup (set_iter s);
  elem_of_set_iter : ∀ s k, k ∈ set_iter s ↔ k ∈ s;
}.

(** A Python call [f(x, kw=v)] of a function with the given parameter names:
    a keyword that is not among them raises TypeError before the body of the
    function runs. *)
Definition call_with_keyword {A} (parameters : list string) (kw : string)
    (body : result A) : result A :=
  if bool_decide (kw ∈ parameters) then body else Raise TypeError.

(** ** sklearn *)

(** [tree_fit X y] is the prediction function of
    [DecisionTreeClassifier(max_depth=20).fit(X, y)]: a fitted tree answers
    with one of the labels it was trained on.  [kmeans_labels X] is
    [KMeans(n_clusters=2).fit(X).labels_]. *)
Class Sklearn := {
  tree_fit : list Color → list Z → Color → Z;
  tree_fit_label : ∀ X y c, y ≠ [] → tree_fit X y c ∈ y;
  kmeans_labels : list (Q * Q) → list Z;
  kmeans_labels_length : ∀ X, length (kmeans_labels X) = length X;
}.

(** The estimator object stored in [Classifier.clf]. *)
Inductive estimator :=
| OneClassSVM_new                           (* [OneClassSVM()], never fitted *)
| SVC_new                                   (* [SVC()], never fitted *)
| DecisionTree_fitted (tree : Color → Z)
| no_estimator.                             (* attribute [clf] never assigned *)

(** [estimator.predict(vars)]: an estimator that was not fitted raises
    NotFittedError; sklearn rejects an array of zero samples. *)
Definition estimator_predict (e : estimator) (vars : list Color) : result (list Z) :=
  match e with
  | OneClassSVM_new | SVC_new => Raise NotFittedError
  | no_estimator => Raise AttributeError
  | DecisionTree_fitted tree =>
    match vars with
    | [] => Raise ValueError
    | _ => OK (map tree vars)
    end
  end.

(** ** Classifier *)

(** One entry of [path_list], with what reading it gives. *)
Inductive training_source :=
| src_pcd (cloud : PointCloud)              (* an [o3d.geometry.PointCloud] *)
| src_png (rgba : list (Z * Z * Z * Z))     (* a path with ['.png'] in it: its pixels *)
| src_ply (cloud : PointCloud)              (* a path with ['.ply'] in it: its cloud *)
| src_other_str                             (* any other string *)
| src_unsupported.                          (* any other object *)

Definition read_png (rgba : list (Z * Z * Z * Z)) : list Color :=
  map (λ '(r, g, b, _), (inject_Z r / 255, inject_Z g / 255, inject_Z b / 255)%Q)
      (List.filter (λ '(_, _, _, a), Z.eqb a 255) rgba).

Record Classifier := {
  path_list : list training_source;
  kind_list : list Z;
  train_data : list Color;
  train_kind : list Z;
  kind_set : gset Z;
  clf : estimator;
}.

(** The body of the loop of [build_training_array] for one (path, kind). *)
Definition training_colors (img_path : training_source) : result (list Color) :=
  match img_path with
  | src_pcd cloud => OK (colors cloud)
  | src_png rgba => OK (read_png rgba)
  | src_ply cloud => OK (colors cloud)
  | src_other_str => Raise AttributeError    (* [img_np] is still [None] *)
  | src_unsupported => Raise TypeError
  end.

Definition build_training_array (paths : list training_source) (kinds : list Z)
    : result (list Color * list Z) :=
  for_each (zip paths kinds) ([], [])
    (λ '(data, kind_acc) '(img_path, kind),
       img_np ← training_colors img_path;
       let kind_np := replicate (length img_np) kind in
       mret (data ++ img_np, kind_acc ++ kind_np)).

Section Classifier.
Context `{Sklearn}.

(** [DecisionTreeClassifier(max_depth=20).fit(X, y)] *)
Definition DecisionTreeClassifier_fit (X : list Color) (y : list Z) : result estimator :=
  match X with
  | [] => Raise ValueError
  | _ => OK (DecisionTree_fitted (tree_fit X y))
  end.

(** [Classifier.__init__(path_list, kind_list, core)] *)
Definition Classifier_init (path_list0 : list training_source) (kind_list0 : list Z)
    (core : string) : result Classifier :=
  let path_n := length path_list0 in
  let kind_n := length kind_list0 in
  let paths := take (path_n `min` kind_n) path_list0 in
  let kinds := take (path_n `min` kind_n) kind_list0 in
  '(data, tkind) ← build_training_array paths kinds;
  let kset : gset Z := list_to_set kind_list0 in
  e ← (if decide (size kset = 1) then mret OneClassSVM_new
       else if String.eqb core "dtc" then DecisionTreeClassifier_fit data tkind
       else if String.eqb core "svm" then mret SVC_new
       else mret no_estimator);
  mret {| path_list := paths; kind_list := kinds;
          train_data := data; train_kind := tkind;
          kind_set := kset; clf := e |}.

(** [Classifier.predict(vars)] *)
Definition predict (c : Classifier) (vars : list Color) : result (list Z) :=
  estimator_predict (clf c) vars.

End Classifier.

(** ** open3d *)

Abbreviation polygon := (list (Q * Q * Q)).

(** The neighbourhood computations of open3d.  The outlier filters are given
    by the indices they keep, [cluster_dbscan] by its label per point, and
    the 2-D point-in-polygon test of [SelectionPolygonVolume] by
    [in_polygon]. *)
Class Open3d := {
  statistical_inliers : PointCloud → Z → Q → list nat;
  radius_inliers : PointCloud → Z → Q → list nat;
  cluster_dbscan : PointCloud → Q → Z → list Z;
  in_polygon : polygon → Point → bool;
}.

(** [o3d.visualization.SelectionPolygonVolume] with [orthogonal_axis = "Z"] *)
Record SelectionPolygonVolume := {
  bounding_polygon : polygon;
  axis_min : Q;
  axis_max : Q;
}.

Section Open3d.
Context `{Open3d}.

(** [pcd.remove_statistical_outlier(nb_neighbors, std_ratio)] *)
Definition remove_statistical_outlier (c : PointCloud) (nb_neighbors : Z) (std_ratio : Q)
    : PointCloud * list nat :=
  let ind := statistical_inliers c nb_neighbors std_ratio in
  (select_down_sample c ind, ind).

(** [pcd.remove_radius_outlier(nb_points, radius)] *)
Definition remove_radius_outlier (c : PointCloud) (nb_points : Z) (radius : Q)
    : PointCloud * list nat :=
  let ind := radius_inliers c nb_points radius in
  (select_down_sample c ind, ind).

(** [boundary.crop_point_cloud(pcd)]: the points whose z lies in
    [[axis_min, axis_max]] and whose (x, y) lies in the polygon. *)
Definition crop_point_cloud (b : SelectionPolygonVolume) (c : PointCloud) : PointCloud :=
  List.filter
    (λ p, Qle_bool (axis_min b) (pz p) && Qle_bool (pz p) (axis_max b)
          && in_polygon (bounding_polygon b) p)
    c.

End Open3d.

(** ** The helpers of the package and of the image libraries *)

Record rect_res := {
  rot_angle : Q; rect_area : Q; rect_width : Q; rect_length : Q;
  center_point : Q * Q; corner_points : list (Q * Q);
}.

(** One element of [skimage.measure.regionprops(binary)] *)
Record region := {
  centroid_rc : Q * Q;          (* (row, column) *)
  major_axis_length : Q;
  minor_axis_length : Q;
  orientation : Q;
}.

Abbreviation image := (list (list Z)).

Class Helpers := {
  (** [pcd2voxel(pcd, part)]: voxel cloud, voxel size, voxel density *)
  pcd2voxel : PointCloud → option Z → PointCloud * Q * Q;
  calculate_xyz_volume : PointCloud → Q;
  (** [n ** 0.5] on a point count *)
  sqrt_count : nat → Q;
  (** [np.pi] *)
  pi : Q;
  convex_hull2d : PointCloud → result (list (Q * Q) * Q);
  min_bounding_rect : list (Q * Q) → result rect_res;
  pcd2binary : PointCloud → result (image * Q * (Q * Q));
  regionprops : image → list region;
}.

(** Modelled from the spec: [pcd_tools.build_cut_boundary(polygon, (z_min, z_max))]
    is not among the sources; the spec describes it as building "a vertical
    prism" over the polygon for the given z-range, and [shp_segmentation]
    notes that it builds the same [SelectionPolygonVolume] by hand. *)
Definition build_cut_boundary (poly : polygon) (z_range : Q * Q) : SelectionPolygonVolume :=
  {| bounding_polygon := poly; axis_min := fst z_range; axis_max := snd z_range |}.

(** Modelled from the spec: [pcd_tools.merge_pcd], used by [read_plys], is not
    among the sources; clouds are "merged by simple concatenation without
    registration". *)
Definition merge_pcd (clouds : list PointCloud) : PointCloud := concat clouds.

(** ** Artifacts *)

(** [o3d.io.write_point_cloud(path, cloud)] *)
Definition write_point_cloud (path : string) : IO unit := emit (WritePointCloud path).

(** Modelled from the spec: [io.folder.make_dir(path, clean=True)] is not
    among the sources; it is what creates the "output directories" of the
    plot. *)
Definition make_dir (path : string) : IO unit := emit (MakeDir path).

(** Modelled from the spec: [plotting.figure.draw_plot_seg_results(...,
    savepath=savepath, ...)] is not among the sources; it "emits one
    rendering artifact per class (a 2-D scatter of all clusters annotated
    with ids)", the "per-class segmentation diagnostic image". *)
Definition draw_plot_seg_results (savepath : string) : IO unit := emit (DrawPlotSeg savepath).

(** Modelled from the spec: [plotting.figure.draw_3d_results(plant, title,
    savepath)] is not among the sources; it renders the "per-instance 3-D
    diagnostic figure". *)
Definition draw_3d_results (savepath : string) : IO unit := emit (Draw3d savepath).

(** ** Plot *)

Record Plot := {
  ply_name : string;
  write_ply : bool;
  out_folder : string;
  pcd : PointCloud;
  pcd_classified : dict PointCloud;
  pcd_cleaned : dict PointCloud;
  voxel_size : Q;
  voxel_density : Q;
  segmented : bool;
  pcd_segmented : dict (list PointCloud);
  pcd_segmented_name : dict (list string);
}.

(** What [ply_path] denotes on disk. *)
Inductive ply_input :=
| ply_file (name : string) (cloud : PointCloud)          (* a file; [name] is its name without extension *)
| ply_folder (name : string) (plys : list PointCloud)    (* a directory and the .ply files in it *)
| ply_neither.

Definition class_file (k : Z) (suffix : string) : string :=
  "class[" +:+ pretty k +:+ "]" +:+ suffix.

(** The parameters of [read_ply(file_path)] and of [read_plys(file_list)] in
    [phenotypy/io/pcd.py]. *)
Definition read_ply_parameters : list string := ["file_path"].
Definition read_plys_parameters : list string := ["file_list"].

Section Plot.
Context `{Sklearn, Open3d, Helpers, SetOrder}.

(** The loop of [Plot.classifier_apply] over [clf.kind_set]. *)
Definition classify_by (write : bool) (folder : string) (cloud : PointCloud)
    (pred_result : list Z) (kinds : list Z) : IO (dict PointCloud) :=
  for_each kinds []
    (λ classified k,
       let indices := np.where_eq pred_result k in
       let classified' := dict_set classified k (select_down_sample cloud indices) in
       _ ← when write (write_point_cloud (path_join folder (class_file k ".ply")));
       mret classified').

(** [Plot.classifier_apply(clf)] *)
Definition classifier_apply (write : bool) (folder : string) (cloud : PointCloud)
    (c : Classifier) : IO (dict PointCloud) :=
  pred_result ← lift (predict c (colors cloud));
  classify_by write folder cloud pred_result (set_iter (kind_set c)).

(** One class of [Plot.remove_noise]. *)
Definition remove_noise_class (classified : dict PointCloud) (size density : Q) (k : Z)
    : result (PointCloud * list nat) :=
  if Z.eqb k (-1) then
    background ← dict_get classified (-1);
    let '(cleaned, indices) :=
      remove_statistical_outlier background (round density) (1 # 100) in
    mret (remove_radius_outlier cleaned (round (density * 2)) size)
  else
    cloud_k ← dict_get classified k;
    mret (remove_radius_outlier cloud_k (round density) size).

(** The body of the loop of [Plot.remove_noise]. *)
Definition remove_noise_step (write : bool) (folder : string)
    (classified : dict PointCloud) (size density : Q)
    (acc : dict PointCloud * dict (list nat)) (k : Z)
    : IO (dict PointCloud * dict (list nat)) :=
  '(cleaned_k, id_k) ← lift (remove_noise_class classified size density k);
  _ ← when write (write_point_cloud (path_join folder (class_file k "-rm_noise.ply")));
  mret (dict_set acc.1 k cleaned_k, dict_set acc.2 k id_k).

(** [Plot.remove_noise(part)]; with the cleaned clouds it returns the voxel
    size and density it stores in the object. *)
Definition remove_noise (write : bool) (folder : string) (cloud : PointCloud)
    (classified : dict PointCloud) (part : Z)
    : IO (dict PointCloud * dict (list nat) * (Q * Q)) :=
  let '(_, size, density) := pcd2voxel cloud (Some part) in
  '(cleaned, cleaned_id) ←
    for_each (keys classified) ([], [])
      (remove_noise_step write folder classified size density);
  mret (cleaned, cleaned_id, (size, density)).

(** The first part of [Plot.__init__]: the cloud and the name of the plot.
    The cloud is read by [read_ply(ply_path, unit=unit)], or by
    [read_plys(ply_list, unit=unit)] for a folder with ply files. *)
Definition load_ply (ply_path : ply_input) : result (PointCloud * string) :=
  match ply_path with
  | ply_file name cloud =>
    pcd ← call_with_keyword read_ply_parameters "unit" (OK cloud);
    mret (pcd, name)
  | ply_folder name [] => Raise EOFError
  | ply_folder name plys =>
    pcd ← call_with_keyword read_plys_parameters "unit" (OK (merge_pcd plys));
    mret (pcd, name)
  | ply_neither => Raise TypeError
  end.

(** [Plot.__init__] from the line after the cloud is loaded: the output
    folder, the classification and the denoising. *)
Definition Plot_init_loaded (cloud : PointCloud) (name : string) (c : Classifier)
    (output_path : string) (write : bool) : IO Plot :=
  folder ← (if write
            then _ ← make_dir (path_join output_path name);
                 mret (path_join output_path name)
            else mret output_path);
  classified ← classifier_apply write folder cloud c;
  '(cleaned, _, (size, density)) ← remove_noise write folder cloud classified 100;
  mret {| ply_name := name; write_ply := write; out_folder := folder; pcd := cloud;
          pcd_classified := classified; pcd_cleaned := cleaned;
          voxel_size := size; voxel_density := density;
          segmented := false; pcd_segmented := []; pcd_segmented_name := [] |}.

(** [Plot.__init__(ply_path, clf, unit, output_path, write_ply)] *)
Definition Plot_init (ply_path : ply_input) (c : Classifier) (output_path : string)
    (write : bool) : IO Plot :=
  '(cloud, name) ← lift (load_ply ply_path);
  Plot_init_loaded cloud name c output_path write.

End Plot.

(** ** Segmentation *)

(** A row of [temp_df]. *)
Record seg_row := { seg_id : nat; row_x : Q; row_y : Q }.

(** Sorting by insertion before the first row whose key is not smaller: rows
    with equal keys keep their order. *)
Fixpoint insert_row (key : seg_row → Q) (r : seg_row) (l : list seg_row) : list seg_row :=
  match l with
  | [] => [r]
  | r' :: l' =>
    if Qle_bool (key r) (key r') then r :: l else r' :: insert_row key r l'
  end.

Definition argsort_rows (key : seg_row → Q) (l : list seg_row) : list seg_row :=
  foldr (insert_row key) [] l.

(** The column selected by [by=name_by]. *)
Definition column (name_by : string) : result (seg_row → Q) :=
  if String.eqb name_by "x" then OK row_x
  else if String.eqb name_by "y" then OK row_y
  else if String.eqb name_by "seg_id" then OK (λ r, inject_Z (Z.of_nat (seg_id r)))
  else Raise KeyError.

(** [df.sort_values(by=name_by, ascending=ascending).reset_index()]: pandas
    sorts the reversed column and reverses the outcome when descending. *)
Definition sort_values (name_by : string) (ascending : bool) (df : list seg_row)
    : result (list seg_row) :=
  key ← column name_by;
  mret (if ascending then argsort_rows key df
        else reverse (argsort_rows key (reverse df))).

(** [arr[labels == g, :]] *)
Definition rows_with_label {A} (arr : list A) (labels : list Z) (g : Z) : list A :=
  map fst (List.filter (λ '(_, l), Z.eqb l g) (zip arr labels)).

(** The choice of the plant group among the two k-means groups. *)
Definition plant_group (pcd_seg_char : list (Q * Q)) (labels : list Z) : list nat :=
  let class0 := rows_with_label pcd_seg_char labels 0 in
  let class1 := rows_with_label pcd_seg_char labels 1 in
  if fgt (np.mean (map fst class0)) (np.mean (map fst class1))
  then np.where_eq labels 0
  else np.where_eq labels 1.

Section Segmentation.
Context `{Sklearn, Open3d, Helpers}.

(** [KMeans(n_clusters=2).fit(X)]: needs at least two samples. *)
Definition KMeans_fit (X : list (Q * Q)) : result (list Z) :=
  if (length X <? 2)%nat then Raise ValueError else OK (kmeans_labels X).

(** [char]: the square root of the point count and the enclosed volume. *)
Definition descriptor (pcd_seg : PointCloud) : Q * Q :=
  (sqrt_count (length pcd_seg), calculate_xyz_volume pcd_seg).

(** The clusters of one class and their descriptors: the first loop of
    [auto_segmentation]. *)
Definition segment_clusters (cleaned_k : PointCloud) (vect : list Z)
    : list PointCloud * list (Q * Q) :=
  foldl (λ acc seg,
           let indices := np.where_eq vect seg in
           let pcd_seg := select_down_sample cleaned_k indices in
           (acc.1 ++ [pcd_seg], acc.2 ++ [descriptor pcd_seg]))
        ([], []) (np.unique vect).

(** One row of [temp_df]: the position of the cluster and its centre. *)
Definition plant_row (pcd_seg_list : list PointCloud) (rows : list seg_row) (p : nat)
    : result (list seg_row) :=
  seg ← list_get pcd_seg_list p;
  mret (rows ++ [{| seg_id := p; row_x := (get_center seg).1.1;
                    row_y := (get_center seg).1.2 |}]).

(** [temp_df] before sorting. *)
Definition plant_rows (pcd_seg_list : list PointCloud) (plant_id : list nat)
    : result (list seg_row) :=
  for_each plant_id [] (plant_row pcd_seg_list).

(** The body of the output loop of [auto_segmentation]: instance [i]. *)
Definition emit_instance (self : Plot) (k : Z) (pcd_seg_list : list PointCloud)
    (acc : list PointCloud * list string) (row : nat * seg_row)
    : IO (list PointCloud * list string) :=
  let '(i, r) := row in
  seg ← lift (list_get pcd_seg_list (seg_id r));
  let file_name := class_file k ("-plant" +:+ pretty i) in
  let file_path := path_join (out_folder self) (file_name +:+ ".ply") in
  _ ← when (write_ply self) (write_point_cloud file_path);
  mret (acc.1 ++ [seg], acc.2 ++ [file_name]).

(** The output loop of [auto_segmentation] for one class. *)
Definition emit_instances (self : Plot) (k : Z) (pcd_seg_list : list PointCloud)
    (temp_df : list seg_row) : IO (list PointCloud * list string) :=
  for_each (imap (λ i r, (i, r)) temp_df) ([], []) (emit_instance self k pcd_seg_list).

(** The body of the loop of [auto_segmentation] for a foreground class.
    [len_xyz], the extent of the cloud of the plot, cannot be taken of an
    empty cloud; [draw_plot_seg_results] saves the image at [savepath]. *)
Definition auto_segment_class (self : Plot) (k : Z) (name_by : string) (ascending : bool)
    (eps_times : Q) (min_points : Z) (img_folder : string)
    : IO (list PointCloud * list string) :=
  cleaned_k ← lift (dict_get (pcd_cleaned self) k);
  let vect := cluster_dbscan cleaned_k (voxel_size self * eps_times) min_points in
  let '(pcd_seg_list, pcd_seg_char) := segment_clusters cleaned_k vect in
  labels ← lift (KMeans_fit pcd_seg_char);
  let plant_id := plant_group pcd_seg_char labels in
  rows ← lift (plant_rows pcd_seg_list plant_id);
  temp_df ← lift (sort_values name_by ascending rows);
  out ← emit_instances self k pcd_seg_list temp_df;
  let img := ply_name self +:+ "-" +:+ class_file k ".png" in
  let savepath := if String.eqb img_folder "." then path_join (out_folder self) img
                  else path_join img_folder img in
  _ ← lift (np.max (map px (pcd self)));
  _ ← draw_plot_seg_results savepath;
  mret out.

(** The loop of [auto_segmentation] over the classes; [min_points], when not
    given, is set from the density at the first foreground class. *)
Definition auto_segment_step (self : Plot) (name_by : string) (ascending : bool)
    (eps_times : Q) (img_folder : string)
    (acc : dict (list PointCloud) * dict (list string) * option Z) (k : Z)
    : IO (dict (list PointCloud) * dict (list string) * option Z) :=
  let '(seg_out, seg_out_name, min_points) := acc in
  if Z.eqb k (-1) then mret (seg_out, seg_out_name, min_points)
  else
    let min_points' := match min_points with
                       | None => round (voxel_density self)
                       | Some m => m
                       end in
    '(segs, names) ← auto_segment_class self k name_by ascending eps_times
                       min_points' img_folder;
    mret (dict_set seg_out k segs, dict_set seg_out_name k names, Some min_points').

(** [Plot.auto_segmentation(denoise, name_by, ascending, eps_times,
    min_points, img_folder, show_id)]; returns the updated object. *)
Definition auto_segmentation (self : Plot) (name_by : string) (ascending : bool)
    (eps_times : Q) (min_points : option Z) (img_folder : string) : IO Plot :=
  '(seg_out, seg_out_name, _) ←
    for_each (keys (pcd_classified self)) ([], [], min_points)
      (auto_segment_step self name_by ascending eps_times img_folder);
  mret {| ply_name := ply_name self; write_ply := write_ply self;
          out_folder := out_folder self; pcd := pcd self;
          pcd_classified := pcd_classified self; pcd_cleaned := pcd_cleaned self;
          voxel_size := voxel_size self; voxel_density := voxel_density self;
          segmented := true; pcd_segmented := seg_out;
          pcd_segmented_name := seg_out_name |}.

(** The body of the inner loop of [shp_segmentation]: the crop of one polygon. *)
Definition shp_crop (self : Plot) (k : Z) (z_min z_max : Q)
    (acc : list PointCloud * list string) (shape : string * polygon)
    : IO (list PointCloud * list string) :=
  let '(plot_key, poly) := shape in
  let boundary := {| bounding_polygon := poly; axis_min := z_min; axis_max := z_max |} in
  cleaned_k ← lift (dict_get (pcd_cleaned self) k);
  let roi := crop_point_cloud boundary cleaned_k in
  let file_name := class_file k ("-" +:+ plot_key) in
  let file_path := path_join (out_folder self) (file_name +:+ ".ply") in
  _ ← when (write_ply self) (write_point_cloud file_path);
  mret (acc.1 ++ [roi], acc.2 ++ [file_name]).

(** The inner loop of [shp_segmentation]: one crop per polygon. *)
Definition shp_segment_class (self : Plot) (k : Z) (shp_seg : list (string * polygon))
    (z_min z_max : Q) : IO (list PointCloud * list string) :=
  for_each shp_seg ([], []) (shp_crop self k z_min z_max).

(** The body of the loop of [shp_segmentation] over the classes. *)
Definition shp_segment_step (self : Plot) (shp_seg : list (string * polygon))
    (z_min z_max : Q) (acc : dict (list PointCloud) * dict (list string)) (k : Z)
    : IO (dict (list PointCloud) * dict (list string)) :=
  if Z.eqb k (-1) then mret acc
  else
    '(segs, names) ← shp_segment_class self k shp_seg z_min z_max;
    mret (dict_set acc.1 k segs, dict_set acc.2 k names).

(** [Plot.shp_segmentation(shp_dir, correct_coord, rename)], given the
    polygons read from the shape files, by name. *)
Definition shp_segmentation (self : Plot) (shp_seg : list (string * polygon)) : IO Plot :=
  z_max ← lift (np.max (points_z (pcd self)));
  z_min ← lift (np.min (points_z (pcd self)));
  '(seg_out, seg_out_name) ←
    for_each (keys (pcd_cleaned self)) ([], [])
      (shp_segment_step self shp_seg z_min z_max);
  mret {| ply_name := ply_name self; write_ply := write_ply self;
          out_folder := out_folder self; pcd := pcd self;
          pcd_classified := pcd_classified self; pcd_cleaned := pcd_cleaned self;
          voxel_size := voxel_size self; voxel_density := voxel_density self;
          segmented := true; pcd_segmented := seg_out;
          pcd_segmented_name := seg_out_name |}.

End Segmentation.

(** ** Plant *)

Inductive ground_height :=
| auto                      (* ['auto'] *)
| fixed (elevation : Q).

(** [scipy.stats.gaussian_kde(dataset)] on a 1-D sample.  The density itself
    is only evaluated and dropped by the caller, so the model keeps the two
    ways the constructor fails: fewer than two elements, and a sample without
    spread, whose covariance matrix cannot be inverted. *)
Definition gaussian_kde (dataset : list Q) : result unit :=
  match dataset with
  | [] | [_] => Raise ValueError
  | x :: rest => if forallb (Qeq_bool x) rest then Raise LinAlgError else OK tt
  end.

(** The ['auto'] branch of [get_percentile_height]: the ground elevation.
    The grid of the density estimate, [np.linspace(ground_z.min(),
    ground_z.max(), 1000)], needs the range of the sample. *)
Definition ground_elevation (z ground_points_z : list Q) : result float64 :=
  p5 ← np.percentile z 5;
  let ground_z := np.select (λ g, flt (Fin g) p5) ground_points_z in
  lo ← np.min ground_z;
  hi ← np.max ground_z;
  ele_kernel ← gaussian_kde ground_z;
  mret (np.median ground_z).

(** [Plant.get_percentile_height(container_ht, ground_ht)], on the z-values
    of the plant and of its (clipped) ground cloud. *)
Definition get_percentile_height (z ground_points_z : list Q) (container_ht : Q)
    (ground_ht : ground_height) : result float64 :=
  ele ← match ground_ht with
        | auto => ground_elevation z ground_points_z
        | fixed v => OK (Fin v)
        end;
  let plant_base := fadd ele (Fin container_ht) in
  let ele_z := np.select (λ v, fgt (Fin v) plant_base) z in
  top10percentile ← np.percentile ele_z 90;
  let plant_top := np.mean (np.select (λ v, fgt (Fin v) top10percentile) ele_z) in
  mret (fsub plant_top plant_base).

(** [Plant.get_projected_leaf_area(binary, px_num_per_cm)]: the count of the
    second distinct pixel value times the pixel area. *)
Definition get_projected_leaf_area (binary : image) (px_num_per_cm : Q) : result Q :=
  let flat := concat binary in
  let kind := np.unique flat in
  let number := map (λ v, length (List.filter (Z.eqb v) flat)) kind in
  fore_num ← list_get number 1;
  let pixel_size := ((1 / px_num_per_cm) * (1 / px_num_per_cm))%Q in
  mret (inject_Z (Z.of_nat fore_num) * pixel_size)%Q.

Record Plant := {
  plant_pcd : PointCloud;
  indices : nat;
  center : Q * Q * Q;
  ground_pcd : PointCloud;
  hull_area : Q;
  width : Q;
  length_ : Q;
  centroid : Q * Q;
  major_axis : Q;
  minor_axis : Q;
  orient_degree : Q;
  pla : Q;
  pctl_ht : float64;
}.

Section Plant.
Context `{Open3d, Helpers}.

(** [Plant.clip_background()]: the ground cloud cropped to the footprint of
    the plant, enlarged by a tenth on each side. *)
Definition clip_background (plant ground : PointCloud) : result PointCloud :=
  x_max ← np.max (map px plant);
  x_min ← np.min (map px plant);
  let x_len := (x_max - x_min)%Q in
  y_max ← np.max (map py plant);
  y_min ← np.min (map py plant);
  let y_len := (y_max - y_min)%Q in
  let poly : polygon :=
    [(x_min - x_len * (1 # 10), y_min - y_len * (1 # 10), 0);
     (x_min - x_len * (1 # 10), y_max + y_len * (1 # 10), 0);
     (x_max + x_len * (1 # 10), y_max + y_len * (1 # 10), 0);
     (x_max + x_len * (1 # 10), y_min - y_len * (1 # 10), 0);
     (x_min - x_len * (1 # 10), y_min - y_len * (1 # 10), 0)]%Q in
  z_max ← np.max (points_z ground);
  z_min ← np.min (points_z ground);
  mret (crop_point_cloud (build_cut_boundary poly (z_min, z_max)) ground).

(** [Plant.get_region_props(binary, px_num_per_cm, corner)] *)
Definition get_region_props (binary : image) (px_num_per_cm : Q) (corner : Q * Q)
    : result (Q * Q * Q * Q * Q) :=
  let '(x_min, y_min) := corner in
  props ← list_get (regionprops binary) 0;
  let '(y0, x0) := centroid_rc props in
  let cx := (x0 / px_num_per_cm / 100 + x_min)%Q in
  let cy := (y0 / px_num_per_cm / 100 + y_min)%Q in
  let major := (major_axis_length props / px_num_per_cm / 100)%Q in
  let minor := (minor_axis_length props / px_num_per_cm / 100)%Q in
  let angle := (- orientation props * 180 / pi)%Q in
  mret (cx, cy, major, minor, angle).

(** [Plant.__init__(pcd_input, indices, ground_pcd, cut_bg=True,
    container_ht, ground_ht)] for in-memory clouds. *)
Definition Plant_init (pcd_input : PointCloud) (i : nat) (ground : PointCloud)
    (container_ht : Q) (ground_ht : ground_height) : result Plant :=
  let c := get_center pcd_input in
  ground' ← clip_background pcd_input ground;
  '(plane_hull, area) ← convex_hull2d pcd_input;
  rect ← min_bounding_rect plane_hull;
  '(binary, px_num_per_cm, corner) ← pcd2binary pcd_input;
  '(cx, cy, major, minor, angle) ← get_region_props binary px_num_per_cm corner;
  leaf_area ← get_projected_leaf_area binary px_num_per_cm;
  ht ← get_percentile_height (points_z pcd_input) (points_z ground') container_ht ground_ht;
  let voxel := pcd2voxel pcd_input None in
  mret {| plant_pcd := pcd_input; indices := i; center := c; ground_pcd := ground';
          hull_area := area; width := rect_width rect; length_ := rect_length rect;
          centroid := (cx, cy); major_axis := major; minor_axis := minor;
          orient_degree := angle; pla := leaf_area; pctl_ht := ht |}.

End Plant.

(** ** The trait table *)

(** A row of the table returned by [get_traits]. *)
Record trait_row := {
  col_plot : string; col_plant : nat; col_kind : Z;
  col_center_x : Q; col_center_y : Q;
  col_min_rect_width : Q; col_min_rect_length : Q;
  col_hover_area : Q; col_PLA : Q;
  col_centroid_x : Q; col_centroid_y : Q;
  col_long_axis : Q; col_short_axis : Q; col_orient_deg2xaxis : Q;
  col_percentile_height : float64;
}.

Section Traits.
Context `{Open3d, Helpers}.

Definition row_of (self : Plot) (k : Z) (i : nat) (plant : Plant) : trait_row :=
  {| col_plot := ply_name self; col_plant := i; col_kind := k;
     col_center_x := (center plant).1.1; col_center_y := (center plant).1.2;
     col_min_rect_width := width plant; col_min_rect_length := length_ plant;
     col_hover_area := hull_area plant; col_PLA := pla plant;
     col_centroid_x := (centroid plant).1; col_centroid_y := (centroid plant).2;
     col_long_axis := major_axis plant; col_short_axis := minor_axis plant;
     col_orient_deg2xaxis := orient_degree plant;
     col_percentile_height := pctl_ht plant |}.

(** The plant of one instance, its figure and its row. *)
Definition trait_of_instance (self : Plot) (container_ht : Q) (ground_ht : ground_height)
    (savefig : bool) (k : Z) (i : nat) (seg : PointCloud) : IO trait_row :=
  ground ← lift (dict_get (pcd_classified self) (-1));
  plant ← lift (Plant_init seg i ground container_ht ground_ht);
  _ ← (if savefig && write_ply self
       then names_k ← lift (dict_get (pcd_segmented_name self) k);
            file_name ← lift (list_get names_k i);
            draw_3d_results (out_folder self +:+ "/" +:+ file_name +:+ ".png")
       else mret tt);
  mret (row_of self k i plant).

(** The body of the inner loop of [get_traits]: the row is appended. *)
Definition append_trait (self : Plot) (container_ht : Q) (ground_ht : ground_height)
    (savefig : bool) (k : Z) (out_dict : list trait_row) (inst : nat * PointCloud)
    : IO (list trait_row) :=
  row ← trait_of_instance self container_ht ground_ht savefig k inst.1 inst.2;
  mret (out_dict ++ [row]).

(** The loop of [get_traits] over the instances of one class. *)
Definition traits_of_class (self : Plot) (container_ht : Q) (ground_ht : ground_height)
    (savefig : bool) (out_dict : list trait_row) (entry : Z * list PointCloud)
    : IO (list trait_row) :=
  for_each (imap (λ i seg, (i, seg)) entry.2) out_dict
    (append_trait self container_ht ground_ht savefig entry.1).

(** [Plot.get_traits(container_ht, ground_ht, savefig)] *)
Definition get_traits (self : Plot) (container_ht : Q) (ground_ht : ground_height)
    (savefig : bool) : IO (list trait_row) :=
  if negb (segmented self) then lift (Raise AttributeError)
  else
    for_each (pcd_segmented self) [] (traits_of_class self container_ht ground_ht savefig).

End Traits.

(** ** The percentile height in the words of the specification *)






(** ** Vocabulary of the statements *)

(** The row of [temp_df] for the cluster at position [p]. *)
Definition row_of_cluster (pcd_seg_list : list PointCloud) (p : nat) : seg_row :=
  {| seg_id := p;
     row_x := (get_center (nth p pcd_seg_list [])).1.1;
     row_y := (get_center (nth p pcd_seg_list [])).1.2 |}.

(** The clusters that survive the choice of the plant group: of the clusters
    of [segment_clusters], in the order of their DBSCAN labels, the ones at
    the positions [plant_group] returns for the k-means labels of their
    descriptors. *)
Definition plant_clusters `{Sklearn, Open3d, Helpers} (cleaned_k : PointCloud)
    (vect : list Z) : list PointCloud :=
  let pcd_seg_list := (segment_clusters cleaned_k vect).1 in
  let pcd_seg_char := (segment_clusters cleaned_k vect).2 in
  map (λ p, nth p pcd_seg_list []) (plant_group pcd_seg_char (kmeans_labels pcd_seg_char)).

(** The coordinate of the centre of an instance that [name_by] selects. *)
Definition center_coordinate (name_by : string) (seg : PointCloud) : Q :=
  if String.eqb name_by "x" then (get_center seg).1.1 else (get_center seg).1.2.

(** The instances of one class follow the sort, and their names count up. *)
Definition in_sort_order (name_by : string) (ascending : bool) (segs : list PointCloud) : Prop :=
  ∀ i a b, segs !! i = Some a → segs !! S i = Some b →
    if ascending
    then (center_coordinate name_by a <= center_coordinate name_by b)%Q
    else (center_coordinate name_by b <= center_coordinate name_by a)%Q.

Definition numbered (k : Z) (names : list string) : Prop :=
  names = imap (λ i _, class_file k ("-plant" +:+ pretty i)) names.

(** Where [auto_segmentation] saves the image of class [k]. *)
Definition seg_savepath (self : Plot) (k : Z) (img_folder : string) : string :=
  let img := ply_name self +:+ "-" +:+ class_file k ".png" in
  if String.eqb img_folder "." then path_join (out_folder self) img
  else path_join img_folder img.

Fixpoint nondecreasing (l : list Q) : Prop :=
  match l with
  | a :: (b :: _) as tail => (a <= b)%Q ∧ nondecreasing tail
  | _ => True
  end.

(** What [remove_noise] does to the cloud of class [k]. *)
Definition denoised `{Open3d} (size density : Q) (k : Z) (c : PointCloud)
    : PointCloud * list nat :=
  if Z.eqb k (-1)
  then remove_radius_outlier
         (remove_statistical_outlier c (round density) (1 # 100)).1
         (round (density * 2)) size
  else remove_radius_outlier c (round density) size.

Definition class_cloud (classified : dict PointCloud) (k : Z) : PointCloud :=
  default [] (dict_lookup classified k).

(** The dictionary [classifier_apply] builds from the predicted labels. *)
Definition classified_by (cloud : PointCloud) (pred : list Z) (ks : list Z)
    : dict PointCloud :=
  map (λ k, (k, select_down_sample cloud (np.where_eq pred k))) ks.

(** The labels other than the background. *)
Definition foreground (ks : list Z) : list Z := List.filter (λ k, negb (Z.eqb k (-1))) ks.

(** The invariant of a plot that the constructor builds from a loaded cloud
    ([Plot_init_loaded]): unique class labels, the same classes before and
    after denoising, and every class cloud a selection of points of the
    plot. *)
Definition Plot_wf (self : Plot) : Prop :=
  NoDup (keys (pcd_classified self)) ∧
  keys (pcd_cleaned self) = keys (pcd_classified self) ∧
  (∀ k c p, (k, c) ∈ pcd_classified self → p ∈ c → p ∈ pcd self) ∧
  (∀ k c p, (k, c) ∈ pcd_cleaned self → p ∈ c → p ∈ pcd self).

(** The polygons cut out of the cloud of one class, and their names. *)
Definition crops `{Open3d} (c : PointCloud) (shp_seg : list (string * polygon))
    : list PointCloud :=
  map (λ shape, List.filter (in_polygon shape.2) c) shp_seg.

Definition crop_names (k : Z) (shp_seg : list (string * polygon)) : list string :=
  map (λ shape, class_file k ("-" +:+ shape.1)) shp_seg.

(** The instances of a segmented plot in the order [get_traits] visits them:
    class by class, each with its index in the class. *)
Definition instances (self : Plot) : list (Z * (nat * PointCloud)) :=
  flat_map (λ entry : Z * list PointCloud,
              map (λ inst, (entry.1, inst)) (imap (λ i seg, (i, seg)) entry.2))
           (pcd_segmented self).

(** The row of one instance, or the exception its computation raises. *)
Definition instance_row `{Open3d, Helpers} (self : Plot) (container_ht : Q)
    (ground_ht : ground_height) (savefig : bool) (inst : Z * (nat * PointCloud))
    : result trait_row :=
  outcome (trait_of_instance self container_ht ground_ht savefig inst.1 inst.2.1 inst.2.2).

(** The segmentation image is the only artifact that is not a file of the
    output folder of the plot. *)
Definition is_seg_image (e : event) : Prop :=
  match e with DrawPlotSeg _ => True | _ => False end.

(** The same plot with another write flag and output folder. *)
Definition set_write (b : bool) (folder : string) (self : Plot) : Plot :=
  {| ply_name := ply_name self; write_ply := b; out_folder := folder; pcd := pcd self;
     pcd_classified := pcd_classified self; pcd_cleaned := pcd_cleaned self;
     voxel_size := voxel_size self; voxel_density := voxel_density self;
     segmented := segmented self; pcd_segmented := pcd_segmented self;
     pcd_segmented_name := pcd_segmented_name self |}.

Definition result_map {A B} (f : A → B) (r : result A) : result B :=
  match r with OK a => OK (f a) | Raise e => Raise e end.

(** Two dictionaries with the same keys in the same order, entry by entry
    related by [R]. *)
Definition parallel {V W} (R : V → W → Prop) (d1 : dict V) (d2 : dict W) : Prop :=
  Forall2 (λ e1 e2, e1.1 = e2.1 ∧ R e1.2 e2.2) d1 d2.

(** Every instance has a name: the two dictionaries of a segmented plot run
    in parallel. *)
Definition names_parallel (self : Plot) : Prop :=
  ∀ k i seg, (k, (i, seg)) ∈ instances self →
    ∃ names name, dict_lookup (pcd_segmented_name self) k = Some names ∧
                  names !! i = Some name.

(** ** A reference implementation of the external interfaces

    Small, executable stand-ins for the libraries: enough to run the pipeline
    on a concrete plot. *)

Definition color_eqb (a b : Color) : bool :=
  Qeq_bool a.1.1 b.1.1 && Qeq_bool a.1.2 b.1.2 && Qeq_bool a.2 b.2.

(** A tree that has memorised its training colours; an unseen colour gets
    the first training label. *)
Definition table_fit (X : list Color) (y : list Z) (c : Color) : Z :=
  match List.find (λ s : Color * Z, color_eqb s.1 c) (zip X y) with
  | Some s => s.2
  | None => hd 0%Z y
  end.

(** Two groups, split at the mean of the first feature. *)
Definition split_at_mean (X : list (Q * Q)) : list Z :=
  match np.mean (map fst X) with
  | Fin m => map (λ x : Q * Q, if Qle_bool m x.1 then 0%Z else 1%Z) X
  | NaN => map (λ _, 0%Z) X
  end.

Definition bounding_box (xs : list Q) : Q * Q :=
  match xs with
  | [] => (0, 0)%Q
  | x :: xs' => (foldl Qmin x xs', foldl Qmax x xs')
  end.

Definition inside (range : Q * Q) (v : Q) : bool :=
  Qle_bool range.1 v && Qle_bool v range.2.

Definition extent (range : Q * Q) : Q := (range.2 - range.1)%Q.

(** Filters that keep every point, clusters by unit strips along x, and the
    bounding box of the polygon as its inside. *)
Definition keep_all (c : PointCloud) (_ : Z) (_ : Q) : list nat := seq 0 (length c).
Definition strips (c : PointCloud) (_ : Q) (_ : Z) : list Z := map (λ p, Qfloor (px p)) c.
Definition in_box (poly : polygon) (p : Point) : bool :=
  match poly with
  | [] => false
  | _ => inside (bounding_box (map (λ v : Q * Q * Q, v.1.1) poly)) (px p)
         && inside (bounding_box (map (λ v : Q * Q * Q, v.1.2) poly)) (py p)
  end.

Definition box_volume (c : PointCloud) : Q :=
  (extent (bounding_box (map px c)) * extent (bounding_box (map py c))
   * extent (bounding_box (map pz c)))%Q.

Definition box_hull (c : PointCloud) : result (list (Q * Q) * Q) :=
  if (length c <? 3)%nat then Raise ValueError
  else
    let bx := bounding_box (map px c) in
    let by_ := bounding_box (map py c) in
    OK ([(bx.1, by_.1); (bx.2, by_.1); (bx.2, by_.2); (bx.1, by_.2)],
        (extent bx * extent by_)%Q).

Definition box_rect (hull : list (Q * Q)) : result rect_res :=
  match hull with
  | [] => Raise ValueError
  | _ =>
    let bx := bounding_box (map fst hull) in
    let by_ := bounding_box (map snd hull) in
    OK {| rot_angle := 0; rect_area := (extent bx * extent by_)%Q;
          rect_width := extent bx; rect_length := extent by_;
          center_point := ((bx.1 + bx.2) / 2, (by_.1 + by_.2) / 2)%Q;
          corner_points := hull |}
  end.

(** One row of pixels: a background pixel, then one foreground pixel per
    point. *)
Definition row_image (c : PointCloud) : result (image * Q * (Q * Q)) :=
  OK ([0%Z :: map (λ _, 1%Z) c], 1%Q,
      ((bounding_box (map px c)).1, (bounding_box (map py c)).1)).

Definition one_region (binary : image) : list region :=
  if existsb (Z.eqb 1) (concat binary)
  then [{| centroid_rc := (0, 1)%Q; major_axis_length := 2; minor_axis_length := 1;
           orientation := 0 |}]
  else [].

(** A plot: ground points (brown), two plants of four points each and one
    stray point (green). *)
Definition brown : Color := (1 # 2, 1 # 4, 0)%Q.
Definition green : Color := (0, 1, 0)%Q.

Definition point (c : Color) (xyz : Q * Q * Q) : Point :=
  {| px := xyz.1.1; py := xyz.1.2; pz := xyz.2; rgb := c |}.

Definition ground_left : PointCloud :=
  map (point brown) [(3 # 10, 3 # 10, 0); (1 # 2, 1 # 2, 1 # 100)]%Q.
Definition ground_right : PointCloud :=
  map (point brown) [(23 # 10, 3 # 10, 0); (5 # 2, 1 # 2, 1 # 100)]%Q.
Definition plant_left : PointCloud :=
  map (point green) [(2 # 10, 2 # 10, 1 # 10); (8 # 10, 2 # 10, 2 # 10);
                     (2 # 10, 8 # 10, 3 # 10); (8 # 10, 8 # 10, 4 # 10)]%Q.
Definition plant_right : PointCloud :=
  map (point green) [(22 # 10, 2 # 10, 1 # 10); (28 # 10, 2 # 10, 2 # 10);
                     (22 # 10, 8 # 10, 3 # 10); (28 # 10, 8 # 10, 5 # 10)]%Q.
Definition stray : PointCloud := map (point green) [(3 # 2, 1 # 2, 1 # 20)]%Q.

(** The whole field, right plant first, and the same field without the
    ground under the left plant. *)
Definition field : PointCloud :=
  plant_right ++ ground_left ++ stray ++ ground_right ++ plant_left.
Definition field_bare_left : PointCloud :=
  plant_right ++ stray ++ ground_right ++ plant_left.

Definition two_squares : list (string * polygon) :=
  [("left", [(0, 0, 0); (1, 0, 0); (1, 1, 0); (0, 1, 0)]%Q);
   ("right", [(2, 0, 0); (3, 0, 0); (3, 1, 0); (2, 1, 0)]%Q)].

(** The three interfaces, implemented. *)
#[export] Instance reference_sklearn : Sklearn.
Proof.
  refine {| tree_fit := table_fit; kmeans_labels := split_at_mean |}.
  - intros X y c Hy. unfold table_fit.
    destruct (List.find _ (zip X y)) as [[x l]|] eqn:Hfind.
    + apply find_some in Hfind as [Hin%list_elem_of_In _]. simpl.
      by eapply elem_of_zip_r.
    + destruct y as [|l y]; [done | left].
  - intros X. unfold split_at_mean. destruct (np.mean _); apply List.length_map.
Defined.

(** The order of CPython on a set of at most four small integers that do not
    collide in a table of eight slots: by slot [hash(k) & 7], where
    [hash(-1)] is [-2] and [hash(k)] is [k] otherwise.  On other sets it is
    one order among those the interface allows. *)
Definition py_hash (k : Z) : Z := if Z.eqb k (-1) then (-2)%Z else k.
Definition slot (k : Z) : Z := Z.land (py_hash k) 7.

Fixpoint insert_by_slot (k : Z) (l : list Z) : list Z :=
  match l with
  | [] => [k]
  | k' :: l' => if Z.leb (slot k) (slot k') then k :: l else k' :: insert_by_slot k l'
  end.

Definition slot_order (s : gset Z) : list Z := foldr insert_by_slot [] (elements s).

#[export] Instance reference_set_order : SetOrder.
Proof.
  assert (Hinsert : ∀ k l, insert_by_slot k l ≡ₚ k :: l).
  { intros k l. induction l as [|k' l IH]; simpl; [done |].
    destruct (Z.leb _ _); [done |]. rewrite IH. apply Permutation_swap. }
  assert (Hperm : ∀ s, slot_order s ≡ₚ elements s).
  { intros s. unfold slot_order. induction (elements s) as [|k l IH]; simpl; [done |].
    by rewrite Hinsert, IH. }
  refine {| set_iter := slot_order |}.
  - intros s. rewrite Hperm. apply NoDup_elements.
  - intros s k. rewrite Hperm. apply elem_of_elements.
Defined.

#[export] Instance reference_open3d : Open3d :=
  {| statistical_inliers := keep_all; radius_inliers := keep_all;
     cluster_dbscan := strips; in_polygon := in_box |}.

#[export] Instance reference_helpers : Helpers :=
  {| pcd2voxel := λ c _, (c, (1 # 10)%Q, 5%Q);
     calculate_xyz_volume := box_volume;
     sqrt_count := λ n, inject_Z (Z.sqrt (Z.of_nat n));
     pi := (355 # 113)%Q;
     convex_hull2d := box_hull;
     min_bounding_rect := box_rect;
     pcd2binary := row_image;
     regionprops := one_region |}.

Definition unwrap {A} (d : A) (r : result A) : A :=
  match r with OK a => a | Raise _ => d end.

Definition no_classifier : Classifier :=
  {| path_list := []; kind_list := []; train_data := []; train_kind := [];
     kind_set := ∅; clf := no_estimator |}.

Definition no_plot : Plot :=
  {| ply_name := String.EmptyString; write_ply := false; out_folder := String.EmptyString;
     pcd := []; pcd_classified := []; pcd_cleaned := []; voxel_size := 0; voxel_density := 0;
     segmented := false; pcd_segmented := []; pcd_segmented_name := [] |}.

(** Ground against plants; plants only; and three labels for one sample. *)
Definition two_class : Classifier :=
  unwrap no_classifier
    (Classifier_init [src_pcd ground_left; src_pcd plant_left] [-1; 0]%Z "dtc").
Definition one_class : Classifier :=
  unwrap no_classifier
    (Classifier_init [src_pcd plant_left; src_pcd plant_right] [0; 0]%Z "dtc").
Definition short_paths : Classifier :=
  unwrap no_classifier (Classifier_init [src_pcd ground_left] [-1; 0; 1]%Z "dtc").

(** The plot that the constructor, once the cloud is loaded, builds from a
    cloud with the name S03 and without the write flag; then segmented. *)
Definition plot_of (cloud : PointCloud) : Plot :=
  unwrap no_plot (outcome (Plot_init_loaded cloud "S03" two_class "out" false)).
Definition auto_segmented (cloud : PointCloud) : Plot :=
  unwrap no_plot (outcome (auto_segmentation (plot_of cloud) "x" true 10 None "plot_out")).


(** ** Vocabulary of the further properties *)

(** A list of integers that grows strictly, as [np.unique] returns it. *)
Fixpoint increasing (l : list Z) : Prop :=
  match l with
  | a :: (b :: _) as tail => (a < b)%Z ∧ increasing tail
  | _ => True
  end.

(** ** Plant_New *)

(** A plant cut out of one cloud by a classifier. *)
Record Plant_New := {
  new_pcd : PointCloud;
  new_ground_pcd : PointCloud;
  new_center : Q * Q * Q;
  new_hull_area : Q;
  new_width : Q;
  new_length : Q;
  new_centroid : Q * Q;
  new_major_axis : Q;
  new_minor_axis : Q;
  new_orient_degree : Q;
  new_pla : Q;
  new_pctl_ht : float64;
}.

Section Plant_New.
Context `{Sklearn, Helpers}.

(** [Plant_New.__init__(pcd_input, clf, container_ht, ground_ht)] for an
    in-memory cloud: the points predicted 0 are the plant, the points
    predicted -1 the ground, and the ground is not clipped.  The methods
    [get_region_props], [get_projected_leaf_area] and
    [get_percentile_height] of [Plant_New] have the text of those of
    [Plant]. *)
Definition Plant_New_init (pcd_input : PointCloud) (clf : Classifier) (container_ht : Q)
    (ground_ht : ground_height) : result Plant_New :=
  pred_result ← predict clf (colors pcd_input);
  let idx_bg := np.where_eq pred_result (-1) in
  let idx_fg := np.where_eq pred_result 0 in
  let pcd := select_down_sample pcd_input idx_fg in
  let ground := select_down_sample pcd_input idx_bg in
  let c := get_center pcd in
  '(plane_hull, area) ← convex_hull2d pcd;
  rect ← min_bounding_rect plane_hull;
  '(binary, px_num_per_cm, corner) ← pcd2binary pcd;
  '(cx, cy, major, minor, angle) ← get_region_props binary px_num_per_cm corner;
  leaf_area ← get_projected_leaf_area binary px_num_per_cm;
  ht ← get_percentile_height (points_z pcd) (points_z ground) container_ht ground_ht;
  let voxel := pcd2voxel pcd None in
  mret {| new_pcd := pcd; new_ground_pcd := ground; new_center := c;
          new_hull_area := area; new_width := rect_width rect;
          new_length := rect_length rect; new_centroid := (cx, cy);
          new_major_axis := major; new_minor_axis := minor;
          new_orient_degree := angle; new_pla := leaf_area; new_pctl_ht := ht |}.

End Plant_New.

(** ** Reading a ply file: [phenotypy/io/pcd.py] *)

(** What the two readers find in a ply file: the cloud of
    [o3d.io.read_point_cloud], whose colours are empty when open3d found
    none, and the first element of [PlyData.read], with the names of its
    fields and its rows. *)
Record ply_content := {
  o3d_points : list (Q * Q * Q);
  o3d_colors : list Color;
  dtype_names : list string;
  cloud_data : list (string → Q);
}.

(** An [o3d.geometry.PointCloud] as [read_ply] returns it. *)
Record o3d_cloud := {
  cloud_points : list (Q * Q * Q);
  cloud_colors : list Color;
}.

(** [pcd.has_colors()]: there are points, and as many colours. *)
Definition has_colors (c : o3d_cloud) : bool :=
  (0 <? length (cloud_points c))%nat && (length (cloud_colors c) =? length (cloud_points c))%nat.

(** [cloud_data[name] / 255]; numpy raises ValueError for a field that the
    array does not have. *)
Definition field_over_255 (f : ply_content) (name : string) : result (list Q) :=
  if bool_decide (name ∈ dtype_names f)
  then OK (map (λ row, row name / 255)%Q (cloud_data f))
  else Raise ValueError.

(** [np.vstack((r, g, b)).T] *)
Definition vstack_T (r g b : list Q) : list Color :=
  zip_with (λ rg b, (rg.1, rg.2, b)) (zip r g) b.

(** [read_ply(file_path)] *)
Definition read_ply (f : ply_content) : result o3d_cloud :=
  let pcd := {| cloud_points := o3d_points f; cloud_colors := o3d_colors f |} in
  if negb (has_colors pcd) then
    if bool_decide ("red" ∈ dtype_names f) then
      r ← field_over_255 f "red";
      g ← field_over_255 f "green";
      b ← field_over_255 f "blue";
      mret {| cloud_points := o3d_points f; cloud_colors := vstack_T r g b |}
    else if bool_decide ("diffuse_red" ∈ dtype_names f) then
      r ← field_over_255 f "diffuse_red";
      g ← field_over_255 f "diffuse_green";
      b ← field_over_255 f "diffuse_blue";
      mret {| cloud_points := o3d_points f; cloud_colors := vstack_T r g b |}
    else mret pcd
  else mret pcd.

(** ** The Metashape script: [easypcp/creation/creation.py] *)

Module creation.

(** The character [.] *)
Definition dot : Ascii.ascii := Ascii.ascii_of_nat 46.

(** ["." in s] *)
Fixpoint has_dot (s : string) : bool :=
  match s with
  | EmptyString => false
  | String c rest => if Ascii.eqb c dot then true else has_dot rest
  end.

(** [s.rsplit(".", 1)[-1]]: the text after the last dot, the whole of [s]
    when it has no dot. *)
Fixpoint rsplit_last (s : string) : string :=
  match s with
  | EmptyString => EmptyString
  | String c rest =>
    if has_dot rest then rsplit_last rest
    else if Ascii.eqb c dot then rest
    else s
  end.

(** [s.lower()], on the letters A to Z. *)
Definition lower_char (c : Ascii.ascii) : Ascii.ascii :=
  let n := Ascii.nat_of_ascii c in
  if (65 <=? n)%nat && (n <=? 90)%nat then Ascii.ascii_of_nat (n + 32) else c.

Fixpoint lower (s : string) : string :=
  match s with
  | EmptyString => EmptyString
  | String c rest => String (lower_char c) (lower rest)
  end.

(** [append_by_type(filename, filepath)], on the global [photo_list]. *)
Definition append_by_type (photo_list : list string) (filename filepath : string)
    : list string :=
  let type := lower (rsplit_last filename) in
  if bool_decide (type ∈ ["jpg"; "jpeg"; "png"])
  then photo_list ++ [filepath +:+ "/" +:+ filename]
  else photo_list.

(** The body of the loop of the main script over the entries of a photo
    folder: an entry without a dot is taken as a nested folder, any other
    goes through [append_by_type].  The state is [photo_list], [nest_list]
    and [has_nested]. *)
Definition look_for_photos_step (path_photos : string)
    (state : list string * list string * bool) (item : string)
    : list string * list string * bool :=
  let '(photo_list, nest_list, has_nested) := state in
  if negb (has_dot item)
  then (photo_list, nest_list ++ [path_photos +:+ "/" +:+ item], true)
  else (append_by_type photo_list item path_photos, nest_list, has_nested).

Definition look_for_photos (path_photos : string) (file_list : list string)
    : list string * list string * bool :=
  foldl (look_for_photos_step path_photos) ([], [], false) file_list.

(** The body of the loop that fills [filename_list]: a save path for an
    entry of the listing that is not ['skip'], and [folder_count] lowered by
    one for a ['skip']. *)
Definition fill_folder_step (path_folders : string) (folder_list : list string)
    (state : list string * nat) (i : nat) : list string * nat :=
  let '(filename_list, folder_count) := state in
  match folder_list !! i with
  | Some folder =>
    if negb (String.eqb folder "skip")
    then (filename_list ++ [(path_folders +:+ folder) +:+ "/" +:+ folder], folder_count)
    else (filename_list, folder_count - 1)
  | None => (filename_list, folder_count)
  end.

(** The loop itself; its range is taken once, from the length of the
    listing. *)
Definition fill_folder_list (path_folders : string) (folder_list : list string)
    : list string * nat :=
  foldl (fill_folder_step path_folders folder_list) ([], length folder_list)
        (seq 0 (length folder_list)).

(** Round [j] of the main loop: the folder whose photos are read,
    [path_photos], and where the project is saved once photos were found,
    [savepath]. *)
Definition image_set (path_folders project_filename : string)
    (folder_list filename_list : list string) (j : nat) : result (string * string) :=
  this_folder ← list_get folder_list j;
  let path_photos := path_folders +:+ this_folder in
  filename ← list_get filename_list j;
  mret (path_photos, filename +:+ project_filename).

(** The image sets of the main loop, [for j in range(folder_count)]. *)
Definition image_sets (path_folders project_filename : string) (folder_list : list string)
    : list (result (string * string)) :=
  let '(filename_list, folder_count) := fill_folder_list path_folders folder_list in
  map (image_set path_folders project_filename folder_list filename_list)
      (seq 0 folder_count).

(** A marker of the chunk. *)
Record marker := { label : string; position : Q * Q * Q }.

(** [math.fabs] *)
Definition fabs (x : Q) : Q := if Qle_bool 0 x then x else (- x)%Q.

(** The body of the search loop of [update_boundbox_by_markers]; the state
    is [c1], [c2], [fp0], [fp1] and the counter [c]. *)
Definition find_markers_step (p0 p1 : string) (state : nat * nat * bool * bool * nat)
    (m : marker) : nat * nat * bool * bool * nat :=
  let '(c1, c2, fp0, fp1, c) := state in
  if String.eqb (label m) p0 then (c, c2, true, fp1, S c)
  else if String.eqb (label m) p1 then (c1, c, fp0, true, S c)
  else (c1, c2, fp0, fp1, S c).

(** The positions [c1] and [c2] of the markers labelled [p0] and [p1], and
    whether each was found. *)
Definition find_markers (p0 p1 : string) (markers : list marker) : nat * nat * bool * bool :=
  (foldl (find_markers_step p0 p1) (0, 0, false, false, 0) markers).1.

(** The centre and the size that [update_boundbox_by_markers] gives the
    region of the chunk, from the positions of the two markers. *)
Definition boundbox_by_markers (p0 p1 : string) (markers : list marker)
    : result ((Q * Q * Q) * (Q * Q * Q)) :=
  let '(c1, c2, _, _) := find_markers p0 p1 markers in
  m1 ← list_get markers c1;
  m2 ← list_get markers c2;
  let '(x1, y1, z1) := position m1 in
  let '(x2, y2, z2) := position m2 in
  let mx := ((x1 + x2) / 2, (y1 + y2) / 2, (z1 + z2) / 2)%Q in
  let box_X_length := fabs (x2 - x1) in
  let box_Y_length := fabs (y2 - y1) in
  let '(box_X_length, box_Y_length) :=
    if Qgtb box_Y_length box_X_length
    then (box_Y_length, box_X_length)
    else (box_X_length, box_Y_length) in
  let box_Z_length := box_Y_length in
  let Z_ratio := 4%Q in
  mret ((mx.1.1, mx.1.2, mx.2 + 0 * Z_ratio * box_Z_length / 2)%Q,
        (box_X_length, box_Y_length, box_Z_length * Z_ratio)%Q).

End creation.

(** ** The example script: [phenotypy/example/run_one.py] *)

Section run_one.
Context `{Sklearn, Open3d, Helpers, SetOrder}.

(** The script, for the two training images and the ply file it names: a
    classifier of the foreground (kind 0) and the background (kind -1), the
    plot with the default output path and without the write flag, the
    automatic segmentation with its images in [plot_out], and the table
    with a container of 0.057 m. *)
Definition run_one (fore_rm_y back : list (Z * Z * Z * Z)) (ply : ply_input)
    : IO (list trait_row) :=
  cla ← lift (Classifier_init [src_png fore_rm_y; src_png back] [0; -1]%Z "dtc");
  plot1 ← Plot_init ply cla "." false;
  plot1 ← auto_segmentation plot1 "x" true 10 None "plot_out";
  get_traits plot1 (57 # 1000) auto true.

End run_one.

(** ** Further inputs *)

(** A plot with one plant only, and one without any ground point. *)
Definition one_plant : PointCloud := ground_left ++ plant_left.
Definition plants_only : PointCloud := plant_left ++ plant_right.

(** A classifier of two foreground kinds, without the background. *)
Definition two_foreground : Classifier :=
  unwrap no_classifier
    (Classifier_init [src_pcd plant_left; src_pcd ground_left] [0; 1]%Z "dtc").

(** The field with the write flag on, then segmented. *)
Definition written_plot : Plot :=
  unwrap no_plot (outcome (Plot_init_loaded field "S03" two_class "out" true)).
Definition written_segmented : Plot :=
  unwrap no_plot (outcome (auto_segmentation written_plot "x" true 10 None "plot_out")).

(** The left square and a square away from every point. *)
Definition left_and_nowhere : list (string * polygon) :=
  [("left", [(0, 0, 0); (1, 0, 0); (1, 1, 0); (0, 1, 0)]%Q);
   ("nowhere", [(10, 10, 0); (11, 10, 0); (11, 11, 0); (10, 11, 0)]%Q)].

(** The field cut by polygons, under three classifiers. *)
Definition shp_segmented (c : Classifier) (cloud : PointCloud)
    (shp_seg : list (string * polygon)) : Plot :=
  unwrap no_plot
    (outcome (shp_segmentation
                (unwrap no_plot (outcome (Plot_init_loaded cloud "S03" c "out" false)))
                shp_seg)).

(** An image of three pixels, the second one transparent. *)
Definition three_pixels : list (Z * Z * Z * Z) :=
  [(255, 0, 0, 255); (0, 128, 0, 0); (10, 20, 30, 255)]%Z.

(** A ply file of two vertices whose colours open3d did not read. *)
Definition two_vertices : ply_content :=
  {| o3d_points := [(0, 0, 0); (1, 0, 0)]%Q;
     o3d_colors := [];
     dtype_names := ["x"; "y"; "z"; "red"; "green"; "blue"];
     cloud_data := [λ name, if String.eqb name "red" then 255%Q else 0%Q;
                    λ name, if String.eqb name "green" then 51%Q else 0%Q] |}.

(** Two markers of a chunk, labelled [target 2] and [target 3]. *)
Definition two_markers : list creation.marker :=
  [{| creation.label := "target 2"; creation.position := (1, 2, 3)%Q |};
   {| creation.label := "target 3"; creation.position := (4, 6, 3)%Q |}].

(** The field on red ground, and two training images: a green pixel, and a
    red pixel next to a transparent one. *)
Definition red : Color := (1, 0, 0)%Q.
Definition field_on_red : PointCloud :=
  plant_right
  ++ map (point red) [(3 # 10, 3 # 10, 0); (1 # 2, 1 # 2, 1 # 100)]%Q
  ++ stray
  ++ map (point red) [(23 # 10, 3 # 10, 0); (5 # 2, 1 # 2, 1 # 100)]%Q
  ++ plant_left.
Definition green_image : list (Z * Z * Z * Z) := [(0, 255, 0, 255)]%Z.
Definition red_image : list (Z * Z * Z * Z) := [(255, 0, 0, 255); (255, 0, 0, 0)]%Z.

(** * Properties *)

Lemma where_eq_from_elem (v : list Z) (k : Z) (i j : nat) :
  j ∈ np.where_eq_from i v k ↔ ∃ n, j = i + n ∧ v !! n = Some k.
Proof.
  revert i. induction v as [|x v IH]; intros i; simpl.
  - split; [intros Hin; inversion Hin | intros (n & _ & Hn); discriminate].
  - destruct (Z.eqb_spec x k) as [->|Hne].
    + rewrite elem_of_cons, IH. split.
      * intros [->|(n & -> & Hn)]; [exists 0 | exists (S n)]; split; auto; lia.
      * intros (n & -> & Hn). destruct n as [|n]; [left; lia | right; exists n; split; [lia | done]].
    + rewrite IH. split.
      * intros (n & -> & Hn). exists (S n). split; [lia | done].
      * intros (n & -> & Hn). destruct n as [|n]; simpl in Hn; [congruence |].
        exists n. split; [lia | done].
Qed.

Lemma where_eq_elem (v : list Z) (k : Z) (j : nat) :
  j ∈ np.where_eq v k ↔ v !! j = Some k.
Proof.
  unfold np.where_eq. rewrite where_eq_from_elem. split.
  - intros (n & -> & Hn). done.
  - intros Hj. exists j. done.
Qed.

Lemma where_eq_from_length (v : list Z) (k : Z) (i : nat) :
  length (np.where_eq_from i v k) = length (List.filter (Z.eqb k) v).
Proof.
  revert i. induction v as [|x v IH]; intros i; simpl; [done |].
  rewrite (Z.eqb_sym k x). destruct (Z.eqb x k); simpl; by rewrite IH.
Qed.

Lemma select_down_sample_length (c : PointCloud) (ind : list nat) :
  Forall (λ i, i < length c) ind → length (select_down_sample c ind) = length ind.
Proof.
  unfold select_down_sample. induction 1 as [|i ind Hi _ IH]; simpl; [done |].
  destruct (lookup_lt_is_Some_2 c i Hi) as [p ->]. simpl. f_equal. exact IH.
Qed.

Lemma select_down_sample_subset (c : PointCloud) (ind : list nat) (p : Point) :
  p ∈ select_down_sample c ind → p ∈ c.
Proof.
  unfold select_down_sample. rewrite list_elem_of_omap.
  intros (i & _ & Hi). by eapply list_elem_of_lookup_2.
Qed.

(** *** Dictionaries *)

Lemma dict_lookup_set {V} (d : dict V) (k k' : Z) (v : V) :
  dict_lookup (dict_set d k v) k' = if Z.eqb k k' then Some v else dict_lookup d k'.
Proof.
  induction d as [|[k0 v0] d IH]; simpl.
  - done.
  - destruct (Z.eqb_spec k0 k) as [->|Hne]; simpl.
    + destruct (Z.eqb_spec k k'); done.
    + rewrite IH. destruct (Z.eqb_spec k0 k') as [->|]; [|done].
      destruct (Z.eqb_spec k k'); congruence.
Qed.

Lemma dict_set_fresh {V} (d : dict V) (k : Z) (v : V) :
  k ∉ keys d → dict_set d k v = d ++ [(k, v)].
Proof.
  induction d as [|[k0 v0] d IH]; simpl; [done |].
  rewrite not_elem_of_cons. intros [Hne Hk].
  destruct (Z.eqb_spec k0 k); [congruence |]. by rewrite IH.
Qed.

Lemma foldl_dict_set_fresh {V} (f : Z → V) (ks : list Z) (acc : dict V) :
  NoDup ks → (∀ k, k ∈ ks → k ∉ keys acc) →
  foldl (λ d k, dict_set d k (f k)) acc ks = acc ++ map (λ k, (k, f k)) ks.
Proof.
  revert acc. induction ks as [|k ks IH]; intros acc Hnd Hfresh; simpl.
  - by rewrite app_nil_r.
  - apply NoDup_cons in Hnd as [Hk Hnd].
    rewrite dict_set_fresh by (apply Hfresh; left).
    rewrite IH; [by rewrite <- app_assoc | done |].
    intros k' Hk'. unfold keys. rewrite map_app, elem_of_app. simpl.
    intros [Hin | Hin%list_elem_of_singleton].
    + eapply Hfresh; [right; exact Hk' | exact Hin].
    + congruence.
Qed.

Lemma dict_lookup_map {V} (f : Z → V) (ks : list Z) (k : Z) :
  dict_lookup (map (λ k, (k, f k)) ks) k = if decide (k ∈ ks) then Some (f k) else None.
Proof.
  induction ks as [|k0 ks IH]; simpl.
  - destruct (decide (k ∈ [])) as [Hin|]; [inversion Hin | done].
  - destruct (Z.eqb_spec k0 k) as [->|Hne].
    + rewrite decide_True; [done | left].
    + rewrite IH. destruct (decide (k ∈ ks)) as [Hin|Hin].
      * rewrite decide_True; [done | by right].
      * rewrite decide_False; [done |].
        rewrite not_elem_of_cons. split; [congruence | done].
Qed.

(** *** Counting the indices selected per label *)

Lemma count_label_cons_notin (ks : list Z) (x : Z) (v : list Z) :
  x ∉ ks →
  map (λ k, length (List.filter (Z.eqb k) (x :: v))) ks
  = map (λ k, length (List.filter (Z.eqb k) v)) ks.
Proof.
  induction ks as [|k ks IH]; [done |].
  rewrite not_elem_of_cons. intros [Hne Hk].
  cbn [map]. rewrite (IH Hk). f_equal. simpl.
  destruct (Z.eqb_spec k x); [congruence | done].
Qed.

Lemma count_label_cons_in (ks : list Z) (x : Z) (v : list Z) :
  NoDup ks → x ∈ ks →
  sum_list (map (λ k, length (List.filter (Z.eqb k) (x :: v))) ks)
  = S (sum_list (map (λ k, length (List.filter (Z.eqb k) v)) ks)).
Proof.
  induction ks as [|k ks IH]; intros Hnd Hin.
  - inversion Hin.
  - apply NoDup_cons in Hnd as [Hk Hnd].
    cbn [map sum_list].
    destruct (Z.eqb_spec k x) as [->|Hne].
    + rewrite (count_label_cons_notin ks x v Hk). simpl. rewrite Z.eqb_refl. simpl. lia.
    + apply elem_of_cons in Hin as [Heq|Hin]; [congruence |].
      rewrite (IH Hnd Hin). simpl.
      destruct (Z.eqb_spec k x); [congruence | lia].
Qed.

Lemma count_labels_total (ks : list Z) (v : list Z) :
  NoDup ks → Forall (λ x, x ∈ ks) v →
  sum_list (map (λ k, length (List.filter (Z.eqb k) v)) ks) = length v.
Proof.
  intros Hnd. induction 1 as [|x v Hx _ IH].
  - simpl. induction ks; simpl; [done |]. apply NoDup_cons in Hnd as [_ Hnd]. auto.
  - rewrite count_label_cons_in by done. simpl. by rewrite IH.
Qed.

(** *** Loops *)

Lemma for_each_result_inv {A S} (P : S → Prop) (xs : list A) (s : S)
    (body : S → A → result S) (r : S) :
  P s →
  (∀ s x s', x ∈ xs → P s → body s x = OK s' → P s') →
  for_each xs s body = OK r → P r.
Proof.
  revert s. induction xs as [|x xs IH]; intros s Hs Hstep; simpl.
  - intros [= <-]. done.
  - unfold mbind, result_bind. destruct (body s x) as [s'|e] eqn:Hb; [|done].
    apply IH.
    + eapply Hstep; [left | done | done].
    + intros s0 x0 s0' Hx0. apply Hstep. by right.
Qed.

Lemma bind_OK {A B} (m : result A) (f : A → result B) (b : B) :
  (m ≫= f) = OK b → ∃ a, m = OK a ∧ f a = OK b.
Proof. destruct m as [a|e]; [eauto | done]. Qed.

Lemma IO_bind_outcome_OK {A B} (m : IO A) (f : A → IO B) (b : B) :
  outcome (m ≫= f) = OK b → ∃ a, outcome m = OK a ∧ outcome (f a) = OK b.
Proof.
  unfold mbind, IO_bind. destruct (outcome m) as [a|e]; simpl; [eauto | done].
Qed.

(** *** The training array *)

Lemma build_training_array_inv (paths : list training_source) (kinds : list Z)
    (data : list Color) (tk : list Z) :
  build_training_array paths kinds = OK (data, tk) →
  length data = length tk ∧ ∀ l, l ∈ tk → l ∈ kinds.
Proof.
  unfold build_training_array.
  apply (for_each_result_inv
           (λ s : list Color * list Z, length s.1 = length s.2 ∧ ∀ l, l ∈ s.2 → l ∈ kinds)).
  - split; [done | intros l Hl; inversion Hl].
  - intros [d t] [p k] [d' t'] Hin [Hlen Hsub]. simpl in *.
    unfold mbind, result_bind. destruct (training_colors p) as [img|e]; [|done].
    intros [= <- <-]. simpl. split.
    + rewrite !length_app, length_replicate. lia.
    + intros l [Hl|Hl]%elem_of_app; [auto |].
      apply elem_of_replicate in Hl as [-> _].
      apply elem_of_zip_r in Hin. done.
Qed.

Section ClassifierFacts.
Context `{Sklearn}.

Lemma Classifier_init_inv paths kinds core c :
  Classifier_init paths kinds core = OK c →
  path_list c = take (length paths `min` length kinds) paths ∧
  kind_list c = take (length paths `min` length kinds) kinds ∧
  build_training_array (path_list c) (kind_list c) = OK (train_data c, train_kind c) ∧
  kind_set c = list_to_set kinds ∧
  (clf c = OneClassSVM_new ∧ size (kind_set c) = 1
   ∨ clf c = DecisionTree_fitted (tree_fit (train_data c) (train_kind c))
     ∧ size (kind_set c) ≠ 1 ∧ core = "dtc" ∧ train_data c ≠ []
   ∨ clf c = SVC_new ∧ size (kind_set c) ≠ 1 ∧ core = "svm"
   ∨ clf c = no_estimator ∧ size (kind_set c) ≠ 1 ∧ core ≠ "dtc" ∧ core ≠ "svm").
Proof.
  unfold Classifier_init. intros Hinit.
  apply bind_OK in Hinit as ([data tk] & Hbuild & Hinit).
  apply bind_OK in Hinit as (e & He & Hinit).
  injection Hinit as <-. simpl. repeat split; try done.
  destruct (decide (size (list_to_set kinds : gset Z) = 1)) as [Hsz|Hsz].
  { injection He as <-. by left. }
  right. destruct (String.eqb_spec core "dtc") as [->|Hdtc].
  { left. unfold DecisionTreeClassifier_fit in He.
    destruct data as [|x data]; [done |]. injection He as <-. done. }
  right. destruct (String.eqb_spec core "svm") as [->|Hsvm].
  { left. injection He as <-. done. }
  right. injection He as <-. done.
Qed.

(** A fitted tree labels every colour with a label of the training array. *)
Lemma predict_tree_labels c vars pred :
  clf c = DecisionTree_fitted (tree_fit (train_data c) (train_kind c)) →
  length (train_data c) = length (train_kind c) → train_data c ≠ [] →
  predict c vars = OK pred →
  length pred = length vars ∧ Forall (λ l, l ∈ train_kind c) pred.
Proof.
  unfold predict. intros -> Hlen Hne. simpl.
  destruct vars as [|v vars]; [done |]. intros [= <-].
  split; [simpl; f_equal; apply List.length_map |].
  apply Forall_forall. intros l Hl. apply list_elem_of_In in Hl.
  apply (in_map_iff (tree_fit _ _) (v :: vars)) in Hl as (x & <- & _).
  apply tree_fit_label. intros Hnil. rewrite Hnil in Hlen.
  destruct (train_data c); [done | discriminate].
Qed.

End ClassifierFacts.

Section ClassifierApply.
Context `{Sklearn, SetOrder}.

Lemma classify_by_run write folder cloud pred kinds :
  classify_by write folder cloud pred kinds
  = MkIO (if write
          then map (λ k, WritePointCloud (path_join folder (class_file k ".ply"))) kinds
          else [])
         (OK (foldl (λ d k, dict_set d k (select_down_sample cloud (np.where_eq pred k)))
                    [] kinds)).
Proof.
  unfold classify_by. generalize (@nil (Z * PointCloud)).
  induction kinds as [|k kinds IH]; intros acc; simpl.
  - by destruct write.
  - unfold mbind at 1, IO_bind at 1.
    destruct write; simpl; rewrite IH; simpl; done.
Qed.

Lemma classifier_apply_outcome write folder cloud c pred :
  predict c (colors cloud) = OK pred →
  outcome (classifier_apply write folder cloud c)
  = OK (map (λ k, (k, select_down_sample cloud (np.where_eq pred k)))
            (set_iter (kind_set c))).
Proof.
  intros Hpred. unfold classifier_apply. rewrite Hpred.
  unfold mbind, IO_bind, lift. simpl. rewrite classify_by_run. simpl.
  rewrite (foldl_dict_set_fresh
             (λ k, select_down_sample cloud (np.where_eq pred k))).
  - done.
  - apply set_iter_NoDup.
  - intros k _ Hk. inversion Hk.
Qed.

Lemma classifier_apply_raises write folder cloud c e :
  predict c (colors cloud) = Raise e →
  classifier_apply write folder cloud c = MkIO [] (Raise e).
Proof. intros Hpred. unfold classifier_apply. by rewrite Hpred. Qed.

(** X1.  With a fitted decision tree, [classifier_apply] partitions the
    cloud: one subset per label of [kind_set], every index in exactly one
    of them, and the sizes add up to the size of the cloud. *)
Theorem classifier_apply_tree_partition paths kinds c write folder cloud :
  Classifier_init paths kinds "dtc" = OK c → size (kind_set c) ≠ 1 → cloud ≠ [] →
  ∃ pred,
    predict c (colors cloud) = OK pred ∧ length pred = length cloud ∧
    outcome (classifier_apply write folder cloud c)
    = OK (map (λ k, (k, select_down_sample cloud (np.where_eq pred k)))
              (set_iter (kind_set c))) ∧
    (∀ i, i < length cloud →
       ∃ k, k ∈ kind_set c ∧ i ∈ np.where_eq pred k
            ∧ ∀ k', i ∈ np.where_eq pred k' → k' = k) ∧
    sum_list (map (λ k, length (select_down_sample cloud (np.where_eq pred k)))
                  (set_iter (kind_set c))) = length cloud.
Proof.
  intros Hinit Hsz Hcloud.
  destruct (Classifier_init_inv _ _ _ _ Hinit) as (Hp & Hk & Hbuild & Hset & Hclf).
  destruct Hclf as [[_ ?]|[(Htree & _ & _ & Hdata)|[(_ & _ & [=])|(_ & _ & ? & _)]]];
    try done.
  destruct (build_training_array_inv _ _ _ _ Hbuild) as [Hlen Hsub].
  assert (Hok : ∃ pred, predict c (colors cloud) = OK pred) .
  { unfold predict. rewrite Htree. simpl. unfold colors.
    destruct cloud; [done | simpl; eauto]. }
  destruct Hok as [pred Hpred]. exists pred.
  destruct (predict_tree_labels c _ pred Htree Hlen Hdata Hpred) as [Hplen Hlab].
  unfold colors in Hplen. rewrite List.length_map in Hplen.
  assert (Hin : Forall (λ l, l ∈ set_iter (kind_set c)) pred).
  { eapply Forall_impl; [exact Hlab |]. intros l Hl. simpl.
    apply elem_of_set_iter. rewrite Hset. apply elem_of_list_to_set.
    apply Hsub in Hl. rewrite Hk in Hl. by eapply subseteq_take. }
  split; [done |]. split; [done |].
  split; [by apply classifier_apply_outcome |]. split.
  - intros i Hi. rewrite <- Hplen in Hi.
    destruct (lookup_lt_is_Some_2 pred i Hi) as [k Hik]. exists k.
    split; [|split].
    + apply elem_of_set_iter. rewrite Forall_forall in Hlab.
      eapply (proj1 (Forall_forall _ _) Hin).
      by eapply list_elem_of_lookup_2.
    + by apply where_eq_elem.
    + intros k' Hk'%where_eq_elem. congruence.
  - rewrite <- Hplen, <- (count_labels_total (set_iter (kind_set c)) pred);
      [| apply set_iter_NoDup | done].
    f_equal. apply map_ext_in. intros k _.
    rewrite select_down_sample_length.
    + apply where_eq_from_length.
    + apply Forall_forall. intros i Hi%where_eq_elem.
      rewrite <- Hplen. by eapply lookup_lt_Some.
Qed.

(** C1, on the single-class path.  A classifier whose [kind_list] holds one
    distinct label stores a [OneClassSVM] that was never fitted (the fit is
    left as a todo in [__init__]): [classifier_apply] raises NotFittedError
    on every cloud, so no class subset is produced and the partition the
    claim asks for does not exist.  On the decision-tree path the partition
    holds, see [classifier_apply_tree_partition]. *)
Theorem classifier_apply_one_class_not_fitted paths kinds core c write folder cloud :
  Classifier_init paths kinds core = OK c → size (kind_set c) = 1 →
  classifier_apply write folder cloud c = MkIO [] (Raise NotFittedError).
Proof.
  intros Hinit Hsz.
  destruct (Classifier_init_inv _ _ _ _ Hinit) as (_ & _ & _ & _ & Hclf).
  destruct Hclf as [[Hsvm _]|[(_ & ? & _)|[(_ & ? & _)|(_ & ? & _)]]]; try done.
  apply classifier_apply_raises. unfold predict. by rewrite Hsvm.
Qed.

End ClassifierApply.

Lemma where_eq_nil (v : list Z) (k : Z) : k ∉ v → np.where_eq v k = [].
Proof.
  intros Hk. destruct (np.where_eq v k) as [|i l] eqn:Hw; [done |].
  exfalso. apply Hk. assert (Hi : i ∈ np.where_eq v k) by (rewrite Hw; left).
  apply where_eq_elem in Hi. by eapply list_elem_of_lookup_2.
Qed.

Section KindSet.
Context `{Sklearn, SetOrder}.

(** C10.  [Classifier.__init__] cuts [path_list] and [kind_list] to the
    shorter of their two lengths and builds the training array from the
    cut lists, so every training label is a label of the cut [kind_list];
    [kind_set] is the set of the labels of the whole [kind_list] it was
    given.  Whenever [classifier_apply] returns, its dictionary has one
    entry per label of [kind_set], hence one for every label of the whole
    [kind_list], and the entry of a label without training sample is the
    empty cloud. *)
Theorem Classifier_kind_set_untruncated paths kinds core c :
  Classifier_init paths kinds core = OK c →
  let n := length paths `min` length kinds in
  path_list c = take n paths ∧ kind_list c = take n kinds ∧
  build_training_array (take n paths) (take n kinds) = OK (train_data c, train_kind c) ∧
  (∀ l, l ∈ train_kind c → l ∈ take n kinds) ∧
  kind_set c = list_to_set kinds ∧
  ∀ write folder cloud d,
    outcome (classifier_apply write folder cloud c) = OK d →
    keys d = set_iter (kind_set c) ∧
    ∀ k, k ∈ kinds →
      ∃ sub, dict_lookup d k = Some sub ∧ (k ∉ train_kind c → sub = []).
Proof.
  intros Hinit n.
  destruct (Classifier_init_inv _ _ _ _ Hinit) as (Hp & Hk & Hbuild & Hset & Hclf).
  fold n in Hp, Hk. rewrite Hp, Hk in Hbuild.
  destruct (build_training_array_inv _ _ _ _ Hbuild) as [Hlen Hsub].
  split_and!; try done.
  intros write folder cloud d Hd.
  destruct (predict c (colors cloud)) as [pred|e] eqn:Hpred.
  2: { rewrite (classifier_apply_raises _ _ _ _ _ Hpred) in Hd. done. }
  rewrite (classifier_apply_outcome _ _ _ _ _ Hpred) in Hd.
  injection Hd as <-. split.
  { unfold keys. rewrite map_map. simpl. apply map_id. }
  intros k Hkin.
  rewrite (dict_lookup_map (λ k, select_down_sample cloud (np.where_eq pred k))).
  rewrite decide_True
    by (apply elem_of_set_iter; rewrite Hset; by apply elem_of_list_to_set).
  eexists. split; [done |]. intros Hnot.
  assert (Htree : clf c = DecisionTree_fitted (tree_fit (train_data c) (train_kind c))
                  ∧ train_data c ≠ []).
  { unfold predict in Hpred.
    destruct Hclf as [[Hc _]|[(Hc & _ & _ & Hd)|[(Hc & _)|(Hc & _)]]];
      rewrite Hc in Hpred; try done. }
  destruct Htree as [Htree Hdata].
  destruct (predict_tree_labels c _ pred Htree Hlen Hdata Hpred) as [_ Hlab].
  rewrite where_eq_nil; [done |].
  intros Hin. apply Hnot. by eapply (proj1 (Forall_forall _ _) Hlab).
Qed.

End KindSet.

(** *** numpy on empty and non-empty arrays *)

Lemma insert_sorted_length x l : length (np.insert_sorted x l) = S (length l).
Proof.
  induction l as [|y l IH]; simpl; [done |].
  destruct (Qle_bool x y); simpl; by rewrite ?IH.
Qed.

Lemma sort_length a : length (np.sort a) = length a.
Proof.
  induction a as [|x a IH]; simpl; [done |].
  unfold np.sort in *. by rewrite insert_sorted_length, IH.
Qed.


Lemma min_nonempty a : a ≠ [] → ∃ v, np.min a = OK v.
Proof. destruct a; [done | simpl; eauto]. Qed.

Lemma max_nonempty a : a ≠ [] → ∃ v, np.max a = OK v.
Proof. destruct a; [done | simpl; eauto]. Qed.

Lemma foldl_Qmin_le a x :
  (foldl Qmin x a <= x)%Q ∧ ∀ y, y ∈ a → (foldl Qmin x a <= y)%Q.
Proof.
  revert x. induction a as [|z a IH]; intros x; simpl.
  - split; [apply Qle_refl | intros y Hy; inversion Hy].
  - destruct (IH (Qmin x z)) as [Hhd Htl]. split.
    + eapply Qle_trans; [exact Hhd | apply Q.le_min_l].
    + intros y [->|Hy]%elem_of_cons; [|by apply Htl].
      eapply Qle_trans; [exact Hhd | apply Q.le_min_r].
Qed.

Lemma foldl_Qmax_ge a x :
  (x <= foldl Qmax x a)%Q ∧ ∀ y, y ∈ a → (y <= foldl Qmax x a)%Q.
Proof.
  revert x. induction a as [|z a IH]; intros x; simpl.
  - split; [apply Qle_refl | intros y Hy; inversion Hy].
  - destruct (IH (Qmax x z)) as [Hhd Htl]. split.
    + eapply Qle_trans; [apply Q.le_max_l | exact Hhd].
    + intros y [->|Hy]%elem_of_cons; [|by apply Htl].
      eapply Qle_trans; [apply Q.le_max_r | exact Hhd].
Qed.

Lemma min_le a lo y : np.min a = OK lo → y ∈ a → (lo <= y)%Q.
Proof.
  destruct a as [|x a]; [done |]. simpl. intros [= <-] [->|Hy]%elem_of_cons.
  - apply (proj1 (foldl_Qmin_le a x)).
  - by apply (proj2 (foldl_Qmin_le a x)).
Qed.

Lemma max_ge a hi y : np.max a = OK hi → y ∈ a → (y <= hi)%Q.
Proof.
  destruct a as [|x a]; [done |]. simpl. intros [= <-] [->|Hy]%elem_of_cons.
  - apply (proj1 (foldl_Qmax_ge a x)).
  - by apply (proj2 (foldl_Qmax_ge a x)).
Qed.

(** *** The kernel density estimate *)




Lemma gaussian_kde_short (s : list Q) :
  (length s ≤ 1)%nat → gaussian_kde s = Raise ValueError.
Proof. destruct s as [|x [|y rest]]; simpl; [done | done | lia]. Qed.

(** *** The code against the words of the specification *)
















(** *** The plant group *)

(** C7, as the code has it.  The plant group is group 0 when the mean of the
    point-count feature of group 0 is strictly larger than that of group 1,
    and group 1 otherwise: on equal means the second group wins. *)
Theorem plant_group_larger_mean (pcd_seg_char : list (Q * Q)) (labels : list Z) (m0 m1 : Q) :
  np.mean (map fst (rows_with_label pcd_seg_char labels 0)) = Fin m0 →
  np.mean (map fst (rows_with_label pcd_seg_char labels 1)) = Fin m1 →
  ((m1 < m0)%Q → plant_group pcd_seg_char labels = np.where_eq labels 0) ∧
  ((m0 < m1)%Q → plant_group pcd_seg_char labels = np.where_eq labels 1) ∧
  ((m0 == m1)%Q → plant_group pcd_seg_char labels = np.where_eq labels 1).
Proof.
  intros H0 H1. unfold plant_group. rewrite H0, H1. unfold fgt.
  destruct (Qle_bool m0 m1) eqn:Hle; simpl.
  - apply Qle_bool_iff in Hle. split; [ | split]; intros Hcmp; try reflexivity.
    exfalso. exact (Qlt_not_le _ _ Hcmp Hle).
  - assert (Hlt : (m1 < m0)%Q).
    { apply Qnot_le_lt. intros Hle'%Qle_bool_iff. congruence. }
    split; [ | split]; intros Hcmp; try reflexivity; exfalso.
    + apply (Qlt_irrefl m0). exact (Qlt_trans _ _ _ Hcmp Hlt).
    + rewrite Hcmp in Hlt. by apply (Qlt_irrefl m1).
Qed.

(** Two clusters of four points each and different volume: equal means, and
    the plant group is group 1, not group 0. *)
Lemma plant_group_tie_second_wins :
  let pcd_seg_char := [(2, 0); (2, 10)]%Q in
  let labels := [0; 1]%Z in
  np.mean (map fst (rows_with_label pcd_seg_char labels 0))
  = np.mean (map fst (rows_with_label pcd_seg_char labels 1)) ∧
  plant_group pcd_seg_char labels = [1%nat] ∧
  plant_group pcd_seg_char labels ≠ np.where_eq labels 0.
Proof. split_and!; [reflexivity | reflexivity | discriminate]. Qed.

Lemma plant_group_larger_mean_witness :
  plant_group [(3, 1); (1, 1); (2, 0); (2, 4)]%Q [0; 1; 0; 1]%Z = [0; 2]%nat ∧
  plant_group [(1, 1); (3, 1)]%Q [0; 1]%Z = [1%nat] ∧
  plant_group [(2, 0); (2, 10)]%Q [0; 1]%Z = [1%nat].
Proof.
  split_and!.
  - apply (proj1 (plant_group_larger_mean
                    [(3, 1); (1, 1); (2, 0); (2, 4)]%Q [0; 1; 0; 1]%Z
                    ((3 + (2 + 0)) / 2)%Q ((1 + (2 + 0)) / 2)%Q eq_refl eq_refl)).
    reflexivity.
  - apply (proj1 (proj2 (plant_group_larger_mean [(1, 1); (3, 1)]%Q [0; 1]%Z
                    ((1 + 0) / 1)%Q ((3 + 0) / 1)%Q eq_refl eq_refl))).
    reflexivity.
  - apply (proj2 (proj2 (plant_group_larger_mean [(2, 0); (2, 10)]%Q [0; 1]%Z
                    ((2 + 0) / 1)%Q ((2 + 0) / 1)%Q eq_refl eq_refl))).
    reflexivity.
Defined.

(** *** Sorting the rows *)

Lemma insert_row_nondecreasing key r l :
  nondecreasing (map key l) → nondecreasing (map key (insert_row key r l)).
Proof.
  induction l as [|a l IH]; simpl; [done |].
  destruct (Qle_bool (key r) (key a)) eqn:Hle.
  - intros Hl. simpl. split; [by apply Qle_bool_iff | done].
  - assert (Har : (key a <= key r)%Q).
    { apply Qlt_le_weak, Qnot_le_lt. intros Hle'%Qle_bool_iff. congruence. }
    destruct l as [|b l]; simpl in *.
    + done.
    + intros [Hab Hl]. specialize (IH Hl).
      destruct (Qle_bool (key r) (key b)) eqn:Hrb; simpl in *; done.
Qed.

Lemma argsort_rows_nondecreasing key l : nondecreasing (map key (argsort_rows key l)).
Proof.
  induction l as [|r l IH]; simpl; [done |]. by apply insert_row_nondecreasing.
Qed.

Lemma insert_row_Permutation key r l : insert_row key r l ≡ₚ r :: l.
Proof.
  induction l as [|a l IH]; simpl; [done |].
  destruct (Qle_bool (key r) (key a)); [done |]. rewrite IH. apply Permutation_swap.
Qed.

Lemma argsort_rows_Permutation key l : argsort_rows key l ≡ₚ l.
Proof.
  induction l as [|r l IH]; simpl; [done |].
  rewrite insert_row_Permutation. by rewrite IH.
Qed.

Lemma nondecreasing_lookup l i a b :
  nondecreasing l → l !! i = Some a → l !! S i = Some b → (a <= b)%Q.
Proof.
  revert i. induction l as [|x l IH]; intros i Hl Ha Hb; [done |].
  destruct l as [|y l]; [done |]. destruct Hl as [Hxy Hl].
  destruct i as [|i]; simpl in *.
  - congruence.
  - by eapply IH.
Qed.

Lemma sort_values_ordered name_by ascending df temp_df key :
  column name_by = OK key →
  sort_values name_by ascending df = OK temp_df →
  temp_df ≡ₚ df ∧
  ∀ i a b, temp_df !! i = Some a → temp_df !! S i = Some b →
    if ascending then (key a <= key b)%Q else (key b <= key a)%Q.
Proof.
  unfold sort_values. intros ->. simpl. intros [= <-].
  destruct ascending.
  - split; [apply argsort_rows_Permutation |].
    intros i a b Ha Hb.
    apply (nondecreasing_lookup (map key (argsort_rows key df)) i).
    + apply argsort_rows_nondecreasing.
    + change (map key ?l) with (key <$> l). by rewrite list_lookup_fmap, Ha.
    + change (map key ?l) with (key <$> l). by rewrite list_lookup_fmap, Hb.
  - split.
    { rewrite reverse_Permutation, argsort_rows_Permutation. apply reverse_Permutation. }
    intros i a b Ha Hb.
    set (s := argsort_rows key (reverse df)) in *.
    assert (Hi : S i < length s).
    { rewrite <- (length_reverse s). by eapply lookup_lt_Some. }
    rewrite reverse_lookup in Ha, Hb by lia.
    apply (nondecreasing_lookup (map key s) (length s - S (S i))).
    + apply argsort_rows_nondecreasing.
    + change (map key ?l) with (key <$> l). by rewrite list_lookup_fmap, Hb.
    + change (map key ?l) with (key <$> l).
      replace (S (length s - S (S i))) with (length s - S i) by lia.
      by rewrite list_lookup_fmap, Ha.
Qed.

(** *** The IO monad *)

Lemma IO_eta {A} (m : IO A) : MkIO (trace m) (outcome m) = m.
Proof. by destruct m. Qed.

Lemma lift_OK_bind {A B} (a : A) (f : A → IO B) : (lift (OK a) ≫= f) = f a.
Proof. unfold mbind, IO_bind, lift. simpl. apply IO_eta. Qed.

Lemma list_get_lt {A} (l : list A) (i : nat) (d : A) :
  i < length l → list_get l i = OK (nth i l d).
Proof.
  intros Hi. unfold list_get.
  destruct (nth_lookup_or_length l i d) as [-> | ?]; [done | lia].
Qed.

Section Clusters.
Context `{Sklearn, Open3d, Helpers, SetOrder}.

Lemma segment_clusters_loop cleaned_k vect ids (acc : list PointCloud * list (Q * Q)) :
  foldl (λ acc seg,
           let indices := np.where_eq vect seg in
           let pcd_seg := select_down_sample cleaned_k indices in
           (acc.1 ++ [pcd_seg], acc.2 ++ [descriptor pcd_seg]))
        acc ids
  = (acc.1 ++ map (λ seg, select_down_sample cleaned_k (np.where_eq vect seg)) ids,
     acc.2 ++ map (λ seg, descriptor (select_down_sample cleaned_k (np.where_eq vect seg)))
                  ids).
Proof.
  revert acc. induction ids as [|seg ids IH]; intros [acc_list acc_char]; simpl.
  - by rewrite !app_nil_r.
  - rewrite IH. simpl. by rewrite <- !app_assoc.
Qed.

Lemma segment_clusters_run cleaned_k vect :
  segment_clusters cleaned_k vect
  = (map (λ seg, select_down_sample cleaned_k (np.where_eq vect seg)) (np.unique vect),
     map (λ seg, descriptor (select_down_sample cleaned_k (np.where_eq vect seg)))
         (np.unique vect)).
Proof. unfold segment_clusters. by rewrite segment_clusters_loop. Qed.

Lemma segment_clusters_descriptors cleaned_k vect :
  (segment_clusters cleaned_k vect).2 = map descriptor (segment_clusters cleaned_k vect).1.
Proof. rewrite segment_clusters_run. simpl. by rewrite map_map. Qed.

Lemma plant_group_lt pcd_seg_char labels :
  Forall (λ p, p < length labels) (plant_group pcd_seg_char labels).
Proof.
  unfold plant_group. apply Forall_forall. intros p Hp.
  destruct (fgt _ _); apply where_eq_elem in Hp; by eapply lookup_lt_Some.
Qed.

Lemma plant_row_lt pcd_seg_list rows p :
  p < length pcd_seg_list →
  plant_row pcd_seg_list rows p = OK (rows ++ [row_of_cluster pcd_seg_list p]).
Proof. intros Hp. unfold plant_row. by rewrite (list_get_lt _ _ [] Hp). Qed.

Lemma emit_instance_lt self k pcd_seg_list acc i r :
  seg_id r < length pcd_seg_list →
  emit_instance self k pcd_seg_list acc (i, r)
  = MkIO (if write_ply self
          then [WritePointCloud (path_join (out_folder self)
                                   (class_file k ("-plant" +:+ pretty i) +:+ ".ply"))]
          else [])
         (OK (acc.1 ++ [nth (seg_id r) pcd_seg_list []],
              acc.2 ++ [class_file k ("-plant" +:+ pretty i)])).
Proof.
  intros Hr. unfold emit_instance. rewrite (list_get_lt _ _ [] Hr), lift_OK_bind.
  by destruct (write_ply self).
Qed.

Lemma plant_rows_loop pcd_seg_list plant_id rows :
  Forall (λ p, p < length pcd_seg_list) plant_id →
  for_each plant_id rows (plant_row pcd_seg_list)
  = OK (rows ++ map (row_of_cluster pcd_seg_list) plant_id).
Proof.
  intros Hlt. revert rows. induction Hlt as [|p plant_id Hp _ IH]; intros rows.
  - simpl. by rewrite app_nil_r.
  - cbn [for_each map]. rewrite (plant_row_lt _ _ _ Hp).
    cbn [mbind result_bind]. rewrite IH. by rewrite <- app_assoc.
Qed.

Lemma emit_instances_loop self k pcd_seg_list df (g : nat → nat)
    (acc : list PointCloud * list string) :
  Forall (λ r, seg_id r < length pcd_seg_list) df →
  for_each (imap (λ i r, (g i, r)) df) acc (emit_instance self k pcd_seg_list)
  = MkIO (if write_ply self
          then imap (λ i _, WritePointCloud
                              (path_join (out_folder self)
                                 (class_file k ("-plant" +:+ pretty (g i)) +:+ ".ply"))) df
          else [])
         (OK (acc.1 ++ map (λ r, nth (seg_id r) pcd_seg_list []) df,
              acc.2 ++ imap (λ i _, class_file k ("-plant" +:+ pretty (g i))) df)).
Proof.
  intros Hlt. revert g acc.
  induction Hlt as [|r df Hr _ IH]; intros g [segs names].
  - simpl. rewrite !app_nil_r. by destruct (write_ply self).
  - rewrite !imap_cons. cbn [for_each map].
    rewrite (emit_instance_lt _ _ _ _ _ _ Hr).
    specialize (IH (g ∘ S)). unfold compose in IH.
    unfold mbind, IO_bind. cbn [outcome trace]. rewrite IH. cbn [outcome trace fst snd].
    rewrite <- !app_assoc. by destruct (write_ply self).
Qed.

Lemma emit_instances_run self k pcd_seg_list df :
  Forall (λ r, seg_id r < length pcd_seg_list) df →
  emit_instances self k pcd_seg_list df
  = MkIO (if write_ply self
          then imap (λ i _, WritePointCloud
                              (path_join (out_folder self)
                                 (class_file k ("-plant" +:+ pretty i) +:+ ".ply"))) df
          else [])
         (OK (map (λ r, nth (seg_id r) pcd_seg_list []) df,
              imap (λ i _, class_file k ("-plant" +:+ pretty i)) df)).
Proof.
  intros Hlt. unfold emit_instances.
  apply (emit_instances_loop self k pcd_seg_list df (λ i, i) ([], []) Hlt).
Qed.

End Clusters.

Lemma dict_get_lookup {V} (d : dict V) (k : Z) (v : V) :
  dict_lookup d k = Some v → dict_get d k = OK v.
Proof. intros Hk. unfold dict_get. by rewrite Hk. Qed.

Section AutoSegment.
Context `{Sklearn, Open3d, Helpers, SetOrder}.

Lemma auto_segment_class_run self k name_by ascending eps_times min_points img_folder
    cleaned_k key :
  dict_lookup (pcd_cleaned self) k = Some cleaned_k →
  column name_by = OK key →
  2 ≤ length (np.unique (cluster_dbscan cleaned_k (voxel_size self * eps_times) min_points)) →
  pcd self ≠ [] →
  let vect := cluster_dbscan cleaned_k (voxel_size self * eps_times) min_points in
  let pcd_seg_list := (segment_clusters cleaned_k vect).1 in
  let pcd_seg_char := (segment_clusters cleaned_k vect).2 in
  let plant_id := plant_group pcd_seg_char (kmeans_labels pcd_seg_char) in
  ∃ temp_df,
    sort_values name_by ascending (map (row_of_cluster pcd_seg_list) plant_id) = OK temp_df ∧
    Forall (λ r, seg_id r < length pcd_seg_list) temp_df ∧
    auto_segment_class self k name_by ascending eps_times min_points img_folder
    = MkIO ((if write_ply self
             then imap (λ i _, WritePointCloud
                                 (path_join (out_folder self)
                                    (class_file k ("-plant" +:+ pretty i) +:+ ".ply")))
                       temp_df
             else [])
            ++ [DrawPlotSeg (seg_savepath self k img_folder)])
           (OK (map (λ r, nth (seg_id r) pcd_seg_list []) temp_df,
                imap (λ i _, class_file k ("-plant" +:+ pretty i)) temp_df)).
Proof.
  intros Hk Hkey Hn Hpcd vect pcd_seg_list pcd_seg_char plant_id.
  assert (Hlen : length pcd_seg_char = length pcd_seg_list).
  { unfold pcd_seg_char, pcd_seg_list. rewrite segment_clusters_run. simpl.
    by rewrite !List.length_map. }
  assert (Hlt : Forall (λ p, p < length pcd_seg_list) plant_id).
  { rewrite <- Hlen, <- (kmeans_labels_length pcd_seg_char). apply plant_group_lt. }
  assert (Hsort : ∃ temp_df,
    sort_values name_by ascending (map (row_of_cluster pcd_seg_list) plant_id) = OK temp_df).
  { unfold sort_values. rewrite Hkey. simpl. eauto. }
  destruct Hsort as [temp_df Hsort]. exists temp_df.
  destruct (sort_values_ordered _ _ _ _ _ Hkey Hsort) as [Hperm _].
  assert (Hdf : Forall (λ r, seg_id r < length pcd_seg_list) temp_df).
  { rewrite Hperm. apply Forall_forall. intros r Hr%list_elem_of_In.
    apply in_map_iff in Hr as (p & <- & Hp%list_elem_of_In). simpl.
    by eapply (proj1 (Forall_forall _ _) Hlt). }
  split; [done |]. split; [done |].
  unfold auto_segment_class.
  rewrite (dict_get_lookup _ _ _ Hk), lift_OK_bind.
  fold vect. destruct (segment_clusters cleaned_k vect) as [l c] eqn:Hseg.
  simpl in pcd_seg_list, pcd_seg_char. subst pcd_seg_list pcd_seg_char.
  assert (HKM : KMeans_fit c = OK (kmeans_labels c)).
  { unfold KMeans_fit. rewrite Hlen.
    replace (length l) with (length (np.unique vect)).
    - destruct (Nat.ltb_spec (length (np.unique vect)) 2); [unfold vect in *; lia | done].
    - pose proof (segment_clusters_run cleaned_k vect) as Hrun. rewrite Hseg in Hrun.
      injection Hrun as -> _. by rewrite List.length_map. }
  rewrite HKM, lift_OK_bind. fold plant_id.
  unfold plant_rows. rewrite (plant_rows_loop l plant_id [] Hlt). simpl app.
  rewrite lift_OK_bind, Hsort, lift_OK_bind.
  rewrite (emit_instances_run self k l temp_df Hdf).
  destruct (max_nonempty (map px (pcd self))) as [m Hm].
  { destruct (pcd self); [done | discriminate]. }
  rewrite Hm. unfold mbind, IO_bind, lift, emit, seg_savepath. simpl.
  done.
Qed.

(** For a class that clusters into at least two groups, the loop body of
    [auto_segmentation] returns, with the surviving clusters numbered
    0, 1, 2, ... in the order of the sort. *)
Lemma auto_segment_class_sorted self k name_by ascending eps_times min_points img_folder
    cleaned_k :
  dict_lookup (pcd_cleaned self) k = Some cleaned_k →
  name_by = "x" ∨ name_by = "y" →
  2 ≤ length (np.unique (cluster_dbscan cleaned_k (voxel_size self * eps_times) min_points)) →
  pcd self ≠ [] →
  ∃ segs names,
    outcome (auto_segment_class self k name_by ascending eps_times min_points img_folder)
    = OK (segs, names) ∧
    names = imap (λ i _, class_file k ("-plant" +:+ pretty i)) segs ∧
    ∀ i a b, segs !! i = Some a → segs !! S i = Some b →
      if ascending
      then (center_coordinate name_by a <= center_coordinate name_by b)%Q
      else (center_coordinate name_by b <= center_coordinate name_by a)%Q.
Proof.
  intros Hk Hname Hn Hpcd.
  set (key := if String.eqb name_by "x" then row_x else row_y).
  assert (Hkey : column name_by = OK key).
  { unfold column, key. by destruct Hname as [-> | ->]. }
  destruct (auto_segment_class_run self k name_by ascending eps_times min_points
              img_folder cleaned_k key Hk Hkey Hn Hpcd) as (temp_df & Hsort & Hdf & Hrun).
  rewrite Hrun. simpl outcome.
  set (l := (segment_clusters cleaned_k _).1) in *.
  eexists _, _. split; [done |]. split.
  { change (map ?f temp_df) with (f <$> temp_df). by rewrite imap_fmap. }
  destruct (sort_values_ordered _ _ _ _ _ Hkey Hsort) as [Hperm Hord].
  assert (Hrow : ∀ r, r ∈ temp_df → key r = center_coordinate name_by (nth (seg_id r) l [])).
  { intros r Hr. rewrite Hperm in Hr. apply list_elem_of_In in Hr.
    apply in_map_iff in Hr as (p & <- & _).
    unfold key, center_coordinate. by destruct (String.eqb name_by "x"). }
  intros i a b Ha Hb.
  change (map ?f temp_df) with (f <$> temp_df) in Ha, Hb.
  rewrite list_lookup_fmap in Ha, Hb.
  destruct (temp_df !! i) as [ra|] eqn:Hra; [|done].
  destruct (temp_df !! S i) as [rb|] eqn:Hrb; [|done].
  simpl in Ha, Hb. injection Ha as <-. injection Hb as <-.
  specialize (Hord i ra rb Hra Hrb).
  rewrite <- !Hrow by by eapply list_elem_of_lookup_2. done.
Qed.

End AutoSegment.

(** *** Loops whose body always returns *)

Lemma for_each_IO_pure {A S} (xs : list A) (s : S) (body : S → A → IO S)
    (tr : A → list event) (g : S → A → S) :
  (∀ s x, x ∈ xs → body s x = MkIO (tr x) (OK (g s x))) →
  for_each xs s body = MkIO (concat (map tr xs)) (OK (foldl g s xs)).
Proof.
  revert s. induction xs as [|x xs IH]; intros s Hbody; simpl.
  - done.
  - rewrite Hbody by left. unfold mbind, IO_bind. simpl.
    rewrite IH; [done |]. intros s' x' Hx'. apply Hbody. by right.
Qed.

Lemma concat_map_gated {A} (write : bool) (ev : A → event) (xs : list A) :
  concat (map (λ x, if write then [ev x] else []) xs) = if write then map ev xs else [].
Proof.
  destruct write; induction xs as [|x xs IH]; simpl; [done | by f_equal | done | done].
Qed.

Lemma foldl_append_pair {A B C} (f : A → B) (g : A → C) (xs : list A)
    (acc : list B * list C) :
  foldl (λ acc x, (acc.1 ++ [f x], acc.2 ++ [g x])) acc xs
  = (acc.1 ++ map f xs, acc.2 ++ map g xs).
Proof.
  revert acc. induction xs as [|x xs IH]; intros [a b]; simpl.
  - by rewrite !app_nil_r.
  - rewrite IH. simpl. by rewrite <- !app_assoc.
Qed.

Lemma foldl_dict_set_pair {V W} (f : Z → V) (g : Z → W) (ks : list Z)
    (acc : dict V * dict W) :
  foldl (λ acc k, (dict_set acc.1 k (f k), dict_set acc.2 k (g k))) acc ks
  = (foldl (λ d k, dict_set d k (f k)) acc.1 ks, foldl (λ d k, dict_set d k (g k)) acc.2 ks).
Proof.
  revert acc. induction ks as [|k ks IH]; intros [a b]; simpl; [done |]. by rewrite IH.
Qed.

Lemma dict_lookup_NoDup {V} (d : dict V) (k : Z) (v : V) :
  NoDup (keys d) → (k, v) ∈ d → dict_lookup d k = Some v.
Proof.
  induction d as [|[k0 v0] d IH]; simpl; intros Hnd Hin; [inversion Hin |].
  apply NoDup_cons in Hnd as [Hk0 Hnd].
  apply elem_of_cons in Hin as [[= -> ->]|Hin].
  - by rewrite Z.eqb_refl.
  - destruct (Z.eqb_spec k0 k) as [->|Hne]; [|by apply IH].
    exfalso. apply Hk0. unfold keys. apply list_elem_of_In, in_map_iff.
    exists (k, v). split; [done | by apply list_elem_of_In].
Qed.

Lemma dict_lookup_key {V} (d : dict V) (k : Z) :
  k ∈ keys d → ∃ v, dict_lookup d k = Some v ∧ (k, v) ∈ d.
Proof.
  induction d as [|[k0 v0] d IH]; simpl; intros Hin; [inversion Hin |].
  destruct (Z.eqb_spec k0 k) as [->|Hne].
  - exists v0. split; [done | left].
  - apply elem_of_cons in Hin as [?|Hin]; [congruence |].
    destruct (IH Hin) as (v & Hv & Hvin). exists v. split; [done | by right].
Qed.

Section RemoveNoise.
Context `{Open3d, Helpers}.

Lemma remove_noise_class_key classified size density k :
  k ∈ keys classified →
  remove_noise_class classified size density k
  = OK (denoised size density k (class_cloud classified k)).
Proof.
  intros Hk. destruct (dict_lookup_key _ _ Hk) as (c & Hc & _).
  unfold remove_noise_class, denoised, class_cloud, dict_get. rewrite Hc. simpl.
  destruct (Z.eqb_spec k (-1)) as [->|Hne].
  - rewrite Hc. simpl. by destruct (remove_statistical_outlier c (round density) (1 # 100)).
  - done.
Qed.

Lemma remove_noise_run write folder cloud classified part :
  NoDup (keys classified) →
  let size := (pcd2voxel cloud (Some part)).1.2 in
  let density := (pcd2voxel cloud (Some part)).2 in
  remove_noise write folder cloud classified part
  = MkIO (if write
          then map (λ k, WritePointCloud (path_join folder (class_file k "-rm_noise.ply")))
                   (keys classified)
          else [])
         (OK (map (λ k, (k, (denoised size density k (class_cloud classified k)).1))
                  (keys classified),
              map (λ k, (k, (denoised size density k (class_cloud classified k)).2))
                  (keys classified),
              (size, density))).
Proof.
  intros Hnd size density. unfold remove_noise.
  destruct (pcd2voxel cloud (Some part)) as [[voxel sz] dens] eqn:Hvox.
  simpl in size, density. subst size density.
  rewrite (for_each_IO_pure _ _ _
             (λ k, if write
                   then [WritePointCloud (path_join folder (class_file k "-rm_noise.ply"))]
                   else [])
             (λ acc k, (dict_set acc.1 k (denoised sz dens k (class_cloud classified k)).1,
                        dict_set acc.2 k (denoised sz dens k (class_cloud classified k)).2))).
  - rewrite foldl_dict_set_pair. simpl.
    rewrite !foldl_dict_set_fresh; try done; try (intros k _ Hk; inversion Hk).
    unfold mbind, IO_bind. simpl. rewrite app_nil_r. f_equal.
    apply concat_map_gated.
  - intros acc k Hk. unfold remove_noise_step.
    rewrite (remove_noise_class_key _ _ _ _ Hk), lift_OK_bind.
    destruct (denoised sz dens k (class_cloud classified k)) as [ck ik].
    by destruct write.
Qed.

(** C6.  [remove_noise] takes the voxel size and the density from the whole
    cloud of the plot.  The background class (-1) goes through the
    statistical filter with [round(density)] neighbours and ratio 0.01 and
    then, on the outcome of that, through the radius filter with
    [round(density * 2)] points and the voxel size as radius; every other
    class goes through the radius filter once, with [round(density)] points
    and the voxel size as radius. *)
Theorem remove_noise_passes write folder cloud classified part :
  NoDup (keys classified) →
  let size := (pcd2voxel cloud (Some part)).1.2 in
  let density := (pcd2voxel cloud (Some part)).2 in
  ∃ cleaned cleaned_id,
    outcome (remove_noise write folder cloud classified part)
    = OK (cleaned, cleaned_id, (size, density)) ∧
    keys cleaned = keys classified ∧
    ∀ k c, (k, c) ∈ classified →
      dict_lookup cleaned k
      = Some (if Z.eqb k (-1)
              then let intermediate :=
                     (remove_statistical_outlier c (round density) (1 # 100)).1 in
                   (remove_radius_outlier intermediate (round (density * 2)) size).1
              else (remove_radius_outlier c (round density) size).1).
Proof.
  intros Hnd size density. rewrite (remove_noise_run _ _ _ _ _ Hnd). simpl outcome.
  eexists _, _. split; [done |]. split.
  - unfold keys at 1. rewrite map_map. simpl. apply map_id.
  - intros k c Hkc.
    rewrite (dict_lookup_map
               (λ k, (denoised (pcd2voxel cloud (Some part)).1.2
                        (pcd2voxel cloud (Some part)).2 k (class_cloud classified k)).1)).
    rewrite decide_True.
    2: { unfold keys. apply list_elem_of_In, in_map_iff. exists (k, c).
         split; [done | by apply list_elem_of_In]. }
    unfold denoised, class_cloud. rewrite (dict_lookup_NoDup _ _ _ Hnd Hkc). simpl.
    by destruct (Z.eqb k (-1)).
Qed.

End RemoveNoise.

Lemma foldl_dict_set_skip {V W} (f : Z → V) (g : Z → W) (ks : list Z)
    (acc : dict V * dict W) :
  foldl (λ acc k, if Z.eqb k (-1) then acc
                  else (dict_set acc.1 k (f k), dict_set acc.2 k (g k))) acc ks
  = foldl (λ acc k, (dict_set acc.1 k (f k), dict_set acc.2 k (g k))) acc
          (List.filter (λ k, negb (Z.eqb k (-1))) ks).
Proof.
  revert acc. induction ks as [|k ks IH]; intros acc; simpl; [done |].
  destruct (Z.eqb k (-1)); simpl; by rewrite IH.
Qed.

Lemma NoDup_filter_bool {A} (p : A → bool) (l : list A) : NoDup l → NoDup (List.filter p l).
Proof.
  induction 1 as [|x l Hx Hnd IH]; simpl; [constructor |].
  destruct (p x); [|done]. constructor; [|done].
  intros Hin%list_elem_of_In%filter_In. apply Hx, list_elem_of_In. tauto.
Qed.

Section ShpSegmentation.
Context `{Sklearn, Open3d, Helpers, SetOrder}.

Lemma crop_point_cloud_in_range poly z_min z_max c :
  (∀ p, p ∈ c → (z_min <= pz p)%Q ∧ (pz p <= z_max)%Q) →
  crop_point_cloud {| bounding_polygon := poly; axis_min := z_min; axis_max := z_max |} c
  = List.filter (in_polygon poly) c.
Proof.
  intros Hrange. unfold crop_point_cloud. apply filter_ext_in. intros p Hp. simpl.
  destruct (Hrange p) as [Hlo Hhi]; [by apply list_elem_of_In |].
  apply Qle_bool_iff in Hlo, Hhi. by rewrite Hlo, Hhi.
Qed.

Lemma shp_segment_class_run self k shp_seg z_min z_max c :
  dict_lookup (pcd_cleaned self) k = Some c →
  (∀ p, p ∈ c → (z_min <= pz p)%Q ∧ (pz p <= z_max)%Q) →
  shp_segment_class self k shp_seg z_min z_max
  = MkIO (if write_ply self
          then map (λ shape, WritePointCloud
                               (path_join (out_folder self)
                                  (class_file k ("-" +:+ shape.1) +:+ ".ply"))) shp_seg
          else [])
         (OK (crops c shp_seg, crop_names k shp_seg)).
Proof.
  intros Hk Hrange. unfold shp_segment_class.
  rewrite (for_each_IO_pure _ _ _
             (λ shape, if write_ply self
                       then [WritePointCloud
                               (path_join (out_folder self)
                                  (class_file k ("-" +:+ shape.1) +:+ ".ply"))]
                       else [])
             (λ acc shape, (acc.1 ++ [List.filter (in_polygon shape.2) c],
                            acc.2 ++ [class_file k ("-" +:+ shape.1)]))).
  - rewrite foldl_append_pair. simpl. f_equal. apply concat_map_gated.
  - intros acc [plot_key poly] _. unfold shp_crop.
    rewrite (dict_get_lookup _ _ _ Hk), lift_OK_bind.
    rewrite (crop_point_cloud_in_range _ _ _ _ Hrange).
    by destruct (write_ply self).
Qed.

Lemma shp_segmentation_run self shp_seg :
  pcd self ≠ [] → NoDup (keys (pcd_cleaned self)) →
  (∀ k c p, (k, c) ∈ pcd_cleaned self → p ∈ c → p ∈ pcd self) →
  ∃ self',
    shp_segmentation self shp_seg
    = MkIO (concat (map (λ k, if Z.eqb k (-1) then []
                              else if write_ply self
                                   then map (λ shape, WritePointCloud
                                               (path_join (out_folder self)
                                                  (class_file k ("-" +:+ shape.1) +:+ ".ply")))
                                            shp_seg
                                   else [])
                        (keys (pcd_cleaned self))))
           (OK self') ∧
    segmented self' = true ∧
    write_ply self' = write_ply self ∧ out_folder self' = out_folder self ∧
    pcd self' = pcd self ∧ pcd_classified self' = pcd_classified self ∧
    pcd_cleaned self' = pcd_cleaned self ∧
    pcd_segmented self'
    = map (λ k, (k, crops (class_cloud (pcd_cleaned self) k) shp_seg))
          (foreground (keys (pcd_cleaned self))) ∧
    pcd_segmented_name self'
    = map (λ k, (k, crop_names k shp_seg)) (foreground (keys (pcd_cleaned self))).
Proof.
  intros Hpcd Hnd Hsub. unfold shp_segmentation.
  destruct (max_nonempty (points_z (pcd self))) as [z_max Hmax].
  { unfold points_z. destruct (pcd self); [done | discriminate]. }
  destruct (min_nonempty (points_z (pcd self))) as [z_min Hmin].
  { unfold points_z. destruct (pcd self); [done | discriminate]. }
  rewrite Hmax, lift_OK_bind, Hmin, lift_OK_bind.
  rewrite (for_each_IO_pure _ _ _
             (λ k, if Z.eqb k (-1) then []
                   else if write_ply self
                        then map (λ shape, WritePointCloud
                                    (path_join (out_folder self)
                                       (class_file k ("-" +:+ shape.1) +:+ ".ply")))
                                 shp_seg
                        else [])
             (λ acc k, if Z.eqb k (-1) then acc
                       else (dict_set acc.1 k (crops (class_cloud (pcd_cleaned self) k) shp_seg),
                             dict_set acc.2 k (crop_names k shp_seg)))).
  - rewrite foldl_dict_set_skip, foldl_dict_set_pair. simpl.
    rewrite !foldl_dict_set_fresh;
      try (by apply NoDup_filter_bool); try (intros k _ Hk; inversion Hk).
    unfold mbind, IO_bind. simpl. rewrite app_nil_r.
    eexists. split; [done |]. simpl. done.
  - intros acc k Hk. unfold shp_segment_step.
    destruct (Z.eqb k (-1)); [done |].
    destruct (dict_lookup_key _ _ Hk) as (c & Hc & Hin).
    rewrite (shp_segment_class_run self k shp_seg z_min z_max c Hc).
    + unfold mbind, IO_bind. simpl. rewrite app_nil_r.
      unfold class_cloud. by rewrite Hc.
    + intros p Hp. specialize (Hsub k c p Hin Hp).
      assert (Hz : pz p ∈ points_z (pcd self)).
      { unfold points_z. apply list_elem_of_In, in_map. by apply list_elem_of_In. }
      split; [by eapply min_le | by eapply max_ge].
Qed.

End ShpSegmentation.

Section PlotInit.
Context `{Sklearn, Open3d, Helpers, SetOrder}.

Lemma classifier_apply_run write folder cloud c pred :
  predict c (colors cloud) = OK pred →
  classifier_apply write folder cloud c
  = MkIO (if write
          then map (λ k, WritePointCloud (path_join folder (class_file k ".ply")))
                   (set_iter (kind_set c))
          else [])
         (OK (map (λ k, (k, select_down_sample cloud (np.where_eq pred k)))
                  (set_iter (kind_set c)))).
Proof.
  intros Hpred. unfold classifier_apply. rewrite Hpred, lift_OK_bind, classify_by_run.
  rewrite (foldl_dict_set_fresh (λ k, select_down_sample cloud (np.where_eq pred k)));
    [done | apply set_iter_NoDup | intros k _ Hk; inversion Hk].
Qed.

Lemma keys_map_pair {V} (f : Z → V) (ks : list Z) : keys (map (λ k, (k, f k)) ks) = ks.
Proof. unfold keys. rewrite map_map. simpl. apply map_id. Qed.

Lemma Plot_init_loaded_run cloud name c (output_path : string) (write : bool) pred :
  predict c (colors cloud) = OK pred →
  let folder := if write then path_join output_path name else output_path in
  let ks := set_iter (kind_set c) in
  let classified := classified_by cloud pred ks in
  let size := (pcd2voxel cloud (Some 100%Z)).1.2 in
  let density := (pcd2voxel cloud (Some 100%Z)).2 in
  Plot_init_loaded cloud name c output_path write
  = MkIO (if write
          then MakeDir folder
               :: map (λ k, WritePointCloud (path_join folder (class_file k ".ply"))) ks
               ++ map (λ k, WritePointCloud (path_join folder (class_file k "-rm_noise.ply")))
                      ks
          else [])
         (OK {| ply_name := name; write_ply := write; out_folder := folder; pcd := cloud;
                pcd_classified := classified;
                pcd_cleaned :=
                  map (λ k, (k, (denoised size density k (class_cloud classified k)).1)) ks;
                voxel_size := size; voxel_density := density;
                segmented := false; pcd_segmented := []; pcd_segmented_name := [] |}).
Proof.
  intros Hpred folder ks classified size density. unfold Plot_init_loaded.
  assert (Hnd : NoDup (keys classified)).
  { unfold classified, classified_by. rewrite keys_map_pair. apply set_iter_NoDup. }
  assert (Hkeys : keys classified = ks) by apply keys_map_pair.
  destruct write; simpl in folder; subst folder.
  - unfold mbind at 1, IO_bind at 1. simpl.
    rewrite (classifier_apply_run _ _ _ _ _ Hpred).
    unfold mbind at 1, IO_bind at 1. simpl.
    fold ks. fold (classified_by cloud pred ks). fold classified.
    rewrite (remove_noise_run _ _ _ _ _ Hnd). simpl.
    rewrite Hkeys, !app_nil_r. done.
  - unfold mbind at 1, IO_bind at 1. simpl.
    rewrite (classifier_apply_run _ _ _ _ _ Hpred).
    unfold mbind at 1, IO_bind at 1. simpl.
    fold ks. fold (classified_by cloud pred ks). fold classified.
    rewrite (remove_noise_run _ _ _ _ _ Hnd). simpl.
    rewrite Hkeys. done.
Qed.

Lemma Plot_init_loaded_inv cloud name c output_path write self :
  outcome (Plot_init_loaded cloud name c output_path write) = OK self →
  ∃ pred, predict c (colors cloud) = OK pred.
Proof.
  unfold Plot_init_loaded. intros Hout.
  apply IO_bind_outcome_OK in Hout as (folder & _ & Hout).
  apply IO_bind_outcome_OK in Hout as (classified & Hcl & _).
  destruct (predict c (colors cloud)) as [pred|e] eqn:Hpred; [by eauto |].
  by rewrite (classifier_apply_raises _ _ _ _ _ Hpred) in Hcl.
Qed.

Lemma denoised_subset size density k c p :
  p ∈ (denoised size density k c).1 → p ∈ c.
Proof.
  unfold denoised, remove_radius_outlier, remove_statistical_outlier.
  destruct (Z.eqb k (-1)); simpl.
  - intros Hp%select_down_sample_subset%select_down_sample_subset. done.
  - apply select_down_sample_subset.
Qed.

(** The constructor establishes the invariant. *)
Lemma Plot_init_loaded_wf cloud name c output_path write self :
  outcome (Plot_init_loaded cloud name c output_path write) = OK self → Plot_wf self.
Proof.
  intros Hout.
  destruct (Plot_init_loaded_inv _ _ _ _ _ _ Hout) as (pred & Hpred).
  rewrite (Plot_init_loaded_run _ _ _ _ _ _ Hpred) in Hout.
  injection Hout as <-. unfold Plot_wf. simpl.
  assert (Hcl : ∀ k c0 p, (k, c0) ∈ classified_by cloud pred (set_iter (kind_set c)) →
                          p ∈ c0 → p ∈ cloud).
  { intros k c0 p Hin%list_elem_of_In Hp. unfold classified_by in Hin.
    apply in_map_iff in Hin as (k' & [= <- <-] & _).
    by eapply select_down_sample_subset. }
  split_and!.
  - unfold classified_by. rewrite keys_map_pair. apply set_iter_NoDup.
  - unfold classified_by. by rewrite !keys_map_pair.
  - exact Hcl.
  - intros k c0 p Hin%list_elem_of_In Hp.
    apply in_map_iff in Hin as (k' & [= <- <-] & Hk').
    apply denoised_subset in Hp. unfold class_cloud in Hp.
    destruct (dict_lookup _ k') as [ck|] eqn:Hck; simpl in Hp; [|inversion Hp].
    eapply (Hcl k' ck); [|done].
    clear -Hck. induction (classified_by _ _ _) as [|[k0 v0] d IH]; simpl in *; [done |].
    destruct (Z.eqb_spec k0 k') as [->|]; [injection Hck as ->; left | right; auto].
Qed.

(** The readers have no parameter [unit]: the constructor raises at the call,
    before it has done anything. *)
Lemma load_ply_raises ply_path :
  load_ply ply_path
  = Raise (match ply_path with ply_folder _ [] => EOFError | _ => TypeError end).
Proof. by destruct ply_path as [name cloud|name [|ply plys]|]. Qed.

Lemma Plot_init_raises ply_path c output_path write :
  Plot_init ply_path c output_path write
  = MkIO [] (Raise (match ply_path with ply_folder _ [] => EOFError | _ => TypeError end)).
Proof. unfold Plot_init. by rewrite load_ply_raises. Qed.

End PlotInit.

Section ShpTheorem.
Context `{Sklearn, Open3d, Helpers, SetOrder}.

(** C5.  [shp_segmentation] builds, for every polygon, the prism over the
    polygon between the lowest and the highest z of the cloud of the plot;
    every point of the cleaned cloud of a class lies between these two
    heights, so the prism spans the whole z-range of that cloud and the
    crop keeps exactly the points of the class inside the polygon.  Each
    foreground class gets one instance per polygon, in the order of the
    polygons, empty crops included, and one name per instance; the
    background class gets none. *)
Theorem shp_segmentation_one_instance_per_polygon self shp_seg :
  pcd self ≠ [] → NoDup (keys (pcd_cleaned self)) →
  (∀ k c p, (k, c) ∈ pcd_cleaned self → p ∈ c → p ∈ pcd self) →
  ∃ self' z_min z_max,
    outcome (shp_segmentation self shp_seg) = OK self' ∧ segmented self' = true ∧
    np.min (points_z (pcd self)) = OK z_min ∧ np.max (points_z (pcd self)) = OK z_max ∧
    dict_lookup (pcd_segmented self') (-1) = None ∧
    ∀ k c, (k, c) ∈ pcd_cleaned self → k ≠ (-1)%Z →
      (∀ p, p ∈ c → (z_min <= pz p)%Q ∧ (pz p <= z_max)%Q) ∧
      dict_lookup (pcd_segmented self') k
      = Some (map (λ shape, crop_point_cloud
                              {| bounding_polygon := shape.2;
                                 axis_min := z_min; axis_max := z_max |} c) shp_seg) ∧
      dict_lookup (pcd_segmented self') k
      = Some (map (λ shape, List.filter (in_polygon shape.2) c) shp_seg) ∧
      dict_lookup (pcd_segmented_name self') k
      = Some (map (λ shape, class_file k ("-" +:+ shape.1)) shp_seg).
Proof.
  intros Hpcd Hnd Hsub.
  destruct (shp_segmentation_run self shp_seg Hpcd Hnd Hsub)
    as (self' & Hrun & Hseg & _ & _ & _ & _ & _ & Hout & Hnames).
  destruct (max_nonempty (points_z (pcd self))) as [z_max Hmax].
  { unfold points_z. destruct (pcd self); [done | discriminate]. }
  destruct (min_nonempty (points_z (pcd self))) as [z_min Hmin].
  { unfold points_z. destruct (pcd self); [done | discriminate]. }
  exists self', z_min, z_max. rewrite Hrun. simpl outcome.
  split_and!; try done.
  - rewrite Hout.
    rewrite (dict_lookup_map (λ k, crops (class_cloud (pcd_cleaned self) k) shp_seg)).
    apply decide_False. unfold foreground.
    intros Hin%list_elem_of_In%filter_In. by destruct Hin as [_ Hin].
  - intros k c Hkc Hk.
    assert (Hrange : ∀ p, p ∈ c → (z_min <= pz p)%Q ∧ (pz p <= z_max)%Q).
    { intros p Hp. specialize (Hsub k c p Hkc Hp).
      assert (Hz : pz p ∈ points_z (pcd self)).
      { unfold points_z. apply list_elem_of_In, in_map. by apply list_elem_of_In. }
      split; [by eapply min_le | by eapply max_ge]. }
    assert (Hfg : k ∈ foreground (keys (pcd_cleaned self))).
    { unfold foreground. apply list_elem_of_In, filter_In. split.
      - unfold keys. apply in_map_iff. exists (k, c). split; [done | by apply list_elem_of_In].
      - by destruct (Z.eqb_spec k (-1)). }
    assert (Hcrops : dict_lookup (pcd_segmented self') k = Some (crops c shp_seg)).
    { rewrite Hout.
      rewrite (dict_lookup_map (λ k, crops (class_cloud (pcd_cleaned self) k) shp_seg)).
      rewrite decide_True by done. unfold class_cloud.
      by rewrite (dict_lookup_NoDup _ _ _ Hnd Hkc). }
    split_and!; try done.
    + rewrite Hcrops. f_equal. unfold crops. apply map_ext. intros shape.
      symmetry. by apply crop_point_cloud_in_range.
    + rewrite Hnames. rewrite (dict_lookup_map (λ k, crop_names k shp_seg)).
      by rewrite decide_True.
Qed.

End ShpTheorem.

(** *** Loops that append one result per element *)

Lemma for_each_append_OK {A B} (f : A → result B) (xs : list A) (rs acc : list B) :
  Forall2 (λ x r, f x = OK r) xs rs →
  for_each xs acc (λ rows x, r ← f x; mret (rows ++ [r])) = OK (acc ++ rs).
Proof.
  intros Hall. revert acc. induction Hall as [|x r xs rs Hx _ IH]; intros acc; simpl.
  - by rewrite app_nil_r.
  - rewrite Hx. simpl. rewrite IH. by rewrite <- app_assoc.
Qed.

Lemma for_each_append_Raise {A B} (f : A → result B) (pre post : list A) (x : A) (e : exn)
    (acc : list B) :
  (∀ y, y ∈ pre → ∃ r, f y = OK r) → f x = Raise e →
  for_each (pre ++ x :: post) acc (λ rows x, r ← f x; mret (rows ++ [r])) = Raise e.
Proof.
  revert acc. induction pre as [|y pre IH]; intros acc Hpre Hx; simpl.
  - by rewrite Hx.
  - destruct (Hpre y) as [r Hr]; [left |]. rewrite Hr. simpl.
    apply IH; [|done]. intros y' Hy'. apply Hpre. by right.
Qed.

Lemma outcome_bind {A B} (m : IO A) (f : A → IO B) :
  outcome (m ≫= f) = (outcome m ≫= λ a, outcome (f a)).
Proof. unfold mbind, IO_bind, result_bind. by destruct (outcome m). Qed.

Lemma outcome_for_each {A S} (xs : list A) (s : S) (body : S → A → IO S) :
  outcome (for_each xs s body) = for_each xs s (λ s x, outcome (body s x)).
Proof.
  revert s. induction xs as [|x xs IH]; intros s; simpl; [done |].
  rewrite outcome_bind. unfold mbind, result_bind.
  destruct (outcome (body s x)); [apply IH | done].
Qed.

Lemma for_each_ext {A S} (xs : list A) (s : S) (body1 body2 : S → A → result S) :
  (∀ s x, x ∈ xs → body1 s x = body2 s x) →
  for_each xs s body1 = for_each xs s body2.
Proof.
  revert s. induction xs as [|x xs IH]; intros s Hext; simpl; [done |].
  rewrite Hext by left. unfold mbind, result_bind.
  destruct (body2 s x); [|done]. apply IH. intros s' x' Hx'. apply Hext. by right.
Qed.

Lemma for_each_app {A S} (xs ys : list A) (s : S) (body : S → A → result S) :
  for_each (xs ++ ys) s body = (for_each xs s body ≫= λ s', for_each ys s' body).
Proof.
  revert s. induction xs as [|x xs IH]; intros s; simpl; [done |].
  unfold mbind, result_bind. destruct (body s x); [apply IH | done].
Qed.

Lemma for_each_nested {A B C S} (L : list A) (h : A → list B) (tag : A → B → C) (s : S)
    (body : S → C → result S) :
  for_each L s (λ s a, for_each (h a) s (λ s b, body s (tag a b)))
  = for_each (flat_map (λ a, map (tag a) (h a)) L) s body.
Proof.
  revert s. induction L as [|a L IH]; intros s; simpl; [done |].
  rewrite for_each_app.
  assert (Hin : ∀ s, for_each (h a) s (λ s b, body s (tag a b))
                     = for_each (map (tag a) (h a)) s body).
  { clear. induction (h a) as [|b l IHl]; intros s; simpl; [done |].
    unfold mbind, result_bind. destruct (body s (tag a b)); [apply IHl | done]. }
  rewrite <- Hin. unfold mbind, result_bind.
  destruct (for_each (h a) s _); [apply IH | done].
Qed.

Section GetTraits.
Context `{Open3d, Helpers}.

Lemma get_traits_outcome self container_ht ground_ht savefig :
  segmented self = true →
  outcome (get_traits self container_ht ground_ht savefig)
  = for_each (instances self) []
      (λ rows inst, row ← instance_row self container_ht ground_ht savefig inst;
                    mret (rows ++ [row])).
Proof.
  intros Hseg. unfold get_traits. rewrite Hseg. simpl negb. cbv iota.
  rewrite outcome_for_each.
  rewrite (for_each_ext _ _ _
             (λ s entry, for_each (imap (λ i seg, (i, seg)) entry.2) s
                           (λ rows inst,
                              row ← instance_row self container_ht ground_ht savefig
                                      (entry.1, inst);
                              mret (rows ++ [row])))).
  - apply (for_each_nested (pcd_segmented self)
             (λ entry, imap (λ i seg, (i, seg)) entry.2)
             (λ entry inst, (entry.1, inst)) []
             (λ rows inst,
                row ← instance_row self container_ht ground_ht savefig inst;
                mret (rows ++ [row]))).
  - intros s [k segs] _. unfold traits_of_class. rewrite outcome_for_each.
    apply for_each_ext. intros rows [i seg] _. unfold append_trait.
    rewrite outcome_bind. done.
Qed.

(** C4, as the code has it.  [get_traits] has no handler around the
    construction of a plant: when the computation of an instance raises,
    the exception leaves [get_traits], no table is returned and the
    instances after it are not visited.  A table, with one row per
    instance, is returned only when every instance succeeds. *)
Theorem get_traits_aborts_on_failure self container_ht ground_ht savefig :
  segmented self = true →
  (∀ pre inst post e,
     instances self = pre ++ inst :: post →
     (∀ j, j ∈ pre → ∃ row, instance_row self container_ht ground_ht savefig j = OK row) →
     instance_row self container_ht ground_ht savefig inst = Raise e →
     outcome (get_traits self container_ht ground_ht savefig) = Raise e) ∧
  (∀ rows,
     Forall2 (λ inst row, instance_row self container_ht ground_ht savefig inst = OK row)
             (instances self) rows →
     outcome (get_traits self container_ht ground_ht savefig) = OK rows).
Proof.
  intros Hseg. split.
  - intros pre inst post e Hinst Hpre Hraise.
    rewrite (get_traits_outcome _ _ _ _ Hseg), Hinst.
    by apply (for_each_append_Raise
                (instance_row self container_ht ground_ht savefig)).
  - intros rows Hall. rewrite (get_traits_outcome _ _ _ _ Hseg).
    by rewrite (for_each_append_OK
                  (instance_row self container_ht ground_ht savefig) _ rows).
Qed.

(** A failure of the height estimate is a failure of the instance. *)
Lemma Plant_init_height_raises seg i ground container_ht ground_ht ground' hull area rect
    binary px_num_per_cm corner props leaf_area e :
  clip_background seg ground = OK ground' →
  convex_hull2d seg = OK (hull, area) →
  min_bounding_rect hull = OK rect →
  pcd2binary seg = OK (binary, px_num_per_cm, corner) →
  get_region_props binary px_num_per_cm corner = OK props →
  get_projected_leaf_area binary px_num_per_cm = OK leaf_area →
  get_percentile_height (points_z seg) (points_z ground') container_ht ground_ht = Raise e →
  Plant_init seg i ground container_ht ground_ht = Raise e.
Proof.
  intros Hclip Hhull Hrect Hbin Hprops Hpla Hht. unfold Plant_init.
  rewrite Hclip. simpl. rewrite Hhull. simpl. rewrite Hrect. simpl.
  rewrite Hbin. simpl. rewrite Hprops. simpl.
  destruct props as [[[[cx cy] major] minor] angle].
  rewrite Hpla. simpl. by rewrite Hht.
Qed.

End GetTraits.

(** *** Traces *)

Lemma trace_bind {A B} (P : event → Prop) (m : IO A) (f : A → IO B) :
  Forall P (trace m) → (∀ a, Forall P (trace (f a))) → Forall P (trace (m ≫= f)).
Proof.
  intros Hm Hf. unfold mbind, IO_bind. destruct (outcome m); simpl; [|done].
  apply Forall_app. split; [done | apply Hf].
Qed.

Lemma trace_for_each {A S} (P : event → Prop) (xs : list A) (s : S) (body : S → A → IO S) :
  (∀ s x, Forall P (trace (body s x))) → Forall P (trace (for_each xs s body)).
Proof.
  intros Hbody. revert s. induction xs as [|x xs IH]; intros s; simpl.
  - constructor.
  - apply trace_bind; [apply Hbody | apply IH].
Qed.

Lemma trace_lift {A} (P : event → Prop) (r : result A) : Forall P (trace (lift r)).
Proof. constructor. Qed.

Lemma trace_mret {A} (P : event → Prop) (a : A) : Forall P (trace (mret a : IO A)).
Proof. constructor. Qed.

Lemma trace_when_false (P : event → Prop) (m : IO unit) : Forall P (trace (when false m)).
Proof. constructor. Qed.

Lemma Forall_False_nil {A} (l : list A) : Forall (λ _, False) l → l = [].
Proof. destruct 1; [done | contradiction]. Qed.

Create HintDb trace.
#[local] Hint Resolve trace_lift trace_mret trace_when_false : trace.
#[local] Hint Extern 2 (Forall _ (trace (_ ≫= _))) => apply trace_bind; [|intros ?] : trace.
#[local] Hint Extern 2 (Forall _ (trace (for_each _ _ _))) =>
  apply trace_for_each; intros ? ? : trace.

Section Silent.
Context `{Sklearn, Open3d, Helpers, SetOrder}.

Lemma classifier_apply_silent P folder cloud c :
  Forall P (trace (classifier_apply false folder cloud c)).
Proof.
  unfold classifier_apply, classify_by. auto 10 with trace.
Qed.

Lemma remove_noise_silent P folder cloud classified part :
  Forall P (trace (remove_noise false folder cloud classified part)).
Proof.
  unfold remove_noise. destruct (pcd2voxel cloud (Some part)) as [[voxel size] density].
  apply trace_bind.
  - apply trace_for_each. intros acc k. unfold remove_noise_step.
    apply trace_bind; [apply trace_lift |]. intros [ck ik]. auto 10 with trace.
  - intros [cleaned ids]. apply trace_mret.
Qed.

Lemma Plot_init_loaded_silent cloud name c output_path :
  trace (Plot_init_loaded cloud name c output_path false) = [].
Proof.
  apply Forall_False_nil. unfold Plot_init_loaded.
  apply trace_bind; [apply trace_mret |]. intros folder.
  apply trace_bind; [apply classifier_apply_silent |]. intros classified.
  apply trace_bind; [apply remove_noise_silent |]. intros [[cleaned ids] [size density]].
  apply trace_mret.
Qed.

Lemma shp_segmentation_silent self shp_seg :
  write_ply self = false → trace (shp_segmentation self shp_seg) = [].
Proof.
  intros Hw. apply Forall_False_nil. unfold shp_segmentation.
  apply trace_bind; [apply trace_lift |]. intros z_max.
  apply trace_bind; [apply trace_lift |]. intros z_min.
  apply trace_bind.
  - apply trace_for_each. intros acc k. unfold shp_segment_step.
    destruct (Z.eqb k (-1)); [apply trace_mret |].
    apply trace_bind.
    + unfold shp_segment_class. apply trace_for_each. intros acc' [plot_key poly].
      unfold shp_crop. rewrite Hw.
      apply trace_bind; [apply trace_lift |]. intros ck. auto 10 with trace.
    + intros [segs names]. apply trace_mret.
  - intros [seg_out names]. apply trace_mret.
Qed.

Lemma get_traits_silent self container_ht ground_ht savefig :
  write_ply self = false → trace (get_traits self container_ht ground_ht savefig) = [].
Proof.
  intros Hw. apply Forall_False_nil. unfold get_traits.
  destruct (negb (segmented self)); [apply trace_lift |].
  apply trace_for_each. intros rows [k segs]. unfold traits_of_class.
  apply trace_for_each. intros rows' [i seg]. unfold append_trait.
  apply trace_bind; [|intros row; apply trace_mret].
  unfold trait_of_instance. rewrite Hw, andb_false_r.
  auto 10 with trace.
Qed.

Lemma emit_instances_silent P self k pcd_seg_list temp_df :
  write_ply self = false → Forall P (trace (emit_instances self k pcd_seg_list temp_df)).
Proof.
  intros Hw. unfold emit_instances. apply trace_for_each. intros acc [i r].
  unfold emit_instance. rewrite Hw. auto 10 with trace.
Qed.

Lemma auto_segmentation_only_images self name_by ascending eps_times min_points img_folder :
  write_ply self = false →
  Forall is_seg_image
         (trace (auto_segmentation self name_by ascending eps_times min_points img_folder)).
Proof.
  intros Hw. unfold auto_segmentation.
  apply trace_bind.
  - apply trace_for_each. intros [[seg_out names] mp] k. unfold auto_segment_step.
    destruct (Z.eqb k (-1)); [apply trace_mret |].
    apply trace_bind; [|intros [segs nm]; apply trace_mret].
    unfold auto_segment_class.
    apply trace_bind; [apply trace_lift |]. intros cleaned_k.
    destruct (segment_clusters cleaned_k _) as [l c].
    apply trace_bind; [apply trace_lift |]. intros labels.
    apply trace_bind; [apply trace_lift |]. intros rows.
    apply trace_bind; [apply trace_lift |]. intros temp_df.
    apply trace_bind; [by apply emit_instances_silent |]. intros out.
    apply trace_bind; [apply trace_lift |]. intros m.
    apply trace_bind; [|intros ?; apply trace_mret].
    constructor; [done | constructor].
  - intros [[seg_out names] mp]. apply trace_mret.
Qed.

End Silent.

Lemma IO_bind_inv {A B} (m : IO A) (f : A → IO B) (b : B) :
  outcome (m ≫= f) = OK b →
  ∃ a, outcome m = OK a ∧ outcome (f a) = OK b ∧ trace (m ≫= f) = trace m ++ trace (f a).
Proof.
  unfold mbind, IO_bind. destruct (outcome m) as [a|e]; simpl; [eauto | done].
Qed.

Lemma lift_bind_inv {A B} (r : result A) (f : A → IO B) (b : B) :
  outcome (lift r ≫= f) = OK b → ∃ a, r = OK a ∧ (lift r ≫= f) = f a.
Proof.
  destruct r as [a|e]; [|done]. intros _. exists a. by rewrite lift_OK_bind.
Qed.

Lemma for_each_trace_OK {A S} (xs : list A) (s r : S) (body : S → A → IO S)
    (tr : A → list event) :
  (∀ s x s', outcome (body s x) = OK s' → trace (body s x) = tr x) →
  outcome (for_each xs s body) = OK r →
  trace (for_each xs s body) = concat (map tr xs).
Proof.
  intros Hbody. revert s. induction xs as [|x xs IH]; intros s; simpl; [done |].
  intros Hout. apply IO_bind_inv in Hout as (s' & Hs' & Hrest & ->).
  by rewrite (Hbody _ _ _ Hs'), (IH _ Hrest).
Qed.

Lemma concat_map_foreground {A} (f : Z → A) (ks : list Z) :
  concat (map (λ k, if Z.eqb k (-1) then [] else [f k]) ks) = map f (foreground ks).
Proof.
  unfold foreground. induction ks as [|k ks IH]; simpl; [done |].
  destruct (Z.eqb k (-1)); simpl; by rewrite IH.
Qed.

Section Images.
Context `{Sklearn, Open3d, Helpers, SetOrder}.

Lemma auto_segment_class_image self k name_by ascending eps_times min_points img_folder out :
  write_ply self = false →
  outcome (auto_segment_class self k name_by ascending eps_times min_points img_folder)
  = OK out →
  trace (auto_segment_class self k name_by ascending eps_times min_points img_folder)
  = [DrawPlotSeg (seg_savepath self k img_folder)].
Proof.
  intros Hw. unfold auto_segment_class. intros Hout.
  apply lift_bind_inv in Hout as Hstep. destruct Hstep as (cleaned_k & _ & Heq).
  rewrite Heq in Hout |- *. clear Heq.
  destruct (segment_clusters cleaned_k _) as [l c].
  apply lift_bind_inv in Hout as Hstep. destruct Hstep as (labels & _ & Heq).
  rewrite Heq in Hout |- *. clear Heq.
  apply lift_bind_inv in Hout as Hstep. destruct Hstep as (rows & _ & Heq).
  rewrite Heq in Hout |- *. clear Heq.
  apply lift_bind_inv in Hout as Hstep. destruct Hstep as (temp_df & _ & Heq).
  rewrite Heq in Hout |- *. clear Heq.
  apply IO_bind_inv in Hout as (segs & _ & Hout & ->).
  rewrite (Forall_False_nil _ (emit_instances_silent _ self k l temp_df Hw)).
  apply lift_bind_inv in Hout as Hstep. destruct Hstep as (m & _ & Heq).
  rewrite Heq. done.
Qed.

(** Without the write flag, a run of [auto_segmentation] that returns has
    drawn exactly one image per foreground class. *)
Lemma auto_segmentation_images self name_by ascending eps_times min_points img_folder self' :
  write_ply self = false →
  outcome (auto_segmentation self name_by ascending eps_times min_points img_folder)
  = OK self' →
  trace (auto_segmentation self name_by ascending eps_times min_points img_folder)
  = map (λ k, DrawPlotSeg (seg_savepath self k img_folder))
        (foreground (keys (pcd_classified self))).
Proof.
  intros Hw. unfold auto_segmentation. intros Hout.
  apply IO_bind_inv in Hout as ([[seg_out names] mp] & Hloop & _ & ->).
  simpl. rewrite app_nil_r.
  assert (Hstep : ∀ s k s',
            outcome (auto_segment_step self name_by ascending eps_times img_folder s k)
            = OK s' →
            trace (auto_segment_step self name_by ascending eps_times img_folder s k)
            = if Z.eqb k (-1) then []
              else [DrawPlotSeg (seg_savepath self k img_folder)]).
  { intros [[so sn] m] k acc'. unfold auto_segment_step.
    destruct (Z.eqb k (-1)); [done |]. intros Hstep.
    apply IO_bind_inv in Hstep as ([segs nm] & Hclass & _ & ->).
    rewrite (auto_segment_class_image _ _ _ _ _ _ _ _ Hw Hclass). done. }
  rewrite (for_each_trace_OK _ _ _ _ _ Hstep Hloop).
  apply concat_map_foreground.
Qed.

End Images.

Section Frame.
Context `{Sklearn, Open3d, Helpers, SetOrder}.

Lemma classifier_apply_flag w1 f1 w2 f2 cloud c :
  outcome (classifier_apply w1 f1 cloud c) = outcome (classifier_apply w2 f2 cloud c).
Proof.
  destruct (predict c (colors cloud)) as [pred|e] eqn:Hpred.
  - by rewrite !(classifier_apply_run _ _ _ _ _ Hpred).
  - by rewrite !(classifier_apply_raises _ _ _ _ _ Hpred).
Qed.

Lemma remove_noise_flag w1 f1 w2 f2 cloud classified part :
  outcome (remove_noise w1 f1 cloud classified part)
  = outcome (remove_noise w2 f2 cloud classified part).
Proof.
  unfold remove_noise. destruct (pcd2voxel cloud (Some part)) as [[voxel size] density].
  rewrite !outcome_bind, !outcome_for_each. f_equal.
  apply for_each_ext. intros acc k _. unfold remove_noise_step.
  destruct (remove_noise_class classified size density k) as [[ck ik]|e]; [|done].
  rewrite !lift_OK_bind. by destruct w1, w2.
Qed.

Lemma Plot_init_loaded_flag cloud name c output_path w1 w2 b folder :
  result_map (set_write b folder) (outcome (Plot_init_loaded cloud name c output_path w1))
  = result_map (set_write b folder) (outcome (Plot_init_loaded cloud name c output_path w2)).
Proof.
  destruct (predict c (colors cloud)) as [pred|e] eqn:Hpred.
  - by rewrite !(Plot_init_loaded_run _ _ _ _ _ _ Hpred).
  - unfold Plot_init_loaded.
    destruct w1, w2; simpl;
      rewrite ?outcome_bind; simpl;
      rewrite ?outcome_bind, !(classifier_apply_raises _ _ _ _ _ Hpred); done.
Qed.

Lemma emit_instances_flag b folder self k pcd_seg_list temp_df :
  outcome (emit_instances (set_write b folder self) k pcd_seg_list temp_df)
  = outcome (emit_instances self k pcd_seg_list temp_df).
Proof.
  unfold emit_instances. rewrite !outcome_for_each.
  apply for_each_ext. intros acc [i r] _. unfold emit_instance.
  destruct (list_get pcd_seg_list (seg_id r)) as [seg|e]; [|done].
  rewrite !lift_OK_bind. simpl. by destruct b, (write_ply self).
Qed.

Lemma auto_segment_class_flag b folder self k name_by ascending eps_times min_points
    img_folder :
  outcome (auto_segment_class (set_write b folder self) k name_by ascending eps_times
             min_points img_folder)
  = outcome (auto_segment_class self k name_by ascending eps_times min_points img_folder).
Proof.
  unfold auto_segment_class. cbn [set_write pcd_cleaned voxel_size pcd ply_name].
  destruct (dict_get (pcd_cleaned self) k) as [cleaned_k|e]; [|done].
  rewrite !lift_OK_bind.
  destruct (segment_clusters cleaned_k _) as [l c].
  destruct (KMeans_fit c) as [labels|e]; [|done]. rewrite !lift_OK_bind.
  destruct (plant_rows l _) as [rows|e]; [|done]. rewrite !(lift_OK_bind rows).
  destruct (sort_values name_by ascending rows) as [temp_df|e]; [|done].
  rewrite !(lift_OK_bind temp_df), !outcome_bind, emit_instances_flag.
  destruct (outcome (emit_instances self k l temp_df)) as [out|e]; [|done]. simpl.
  destruct (np.max (map px (pcd self))) as [m|e]; [|done].
  by rewrite !(lift_OK_bind m).
Qed.

Lemma auto_segmentation_flag b folder self name_by ascending eps_times min_points img_folder :
  outcome (auto_segmentation (set_write b folder self) name_by ascending eps_times
             min_points img_folder)
  = result_map (set_write b folder)
      (outcome (auto_segmentation self name_by ascending eps_times min_points img_folder)).
Proof.
  unfold auto_segmentation. rewrite !outcome_bind, !outcome_for_each.
  cbn [set_write pcd_classified].
  rewrite (for_each_ext _ _ _
             (λ s k, outcome (auto_segment_step self name_by ascending eps_times
                                img_folder s k))).
  - destruct (for_each _ _ _) as [[[seg_out names] mp]|e]; done.
  - intros [[seg_out names] mp] k _. unfold auto_segment_step.
    destruct (Z.eqb k (-1)); [done |].
    rewrite !outcome_bind, auto_segment_class_flag. done.
Qed.

Lemma shp_segmentation_flag b folder self shp_seg :
  outcome (shp_segmentation (set_write b folder self) shp_seg)
  = result_map (set_write b folder) (outcome (shp_segmentation self shp_seg)).
Proof.
  unfold shp_segmentation. cbn [set_write pcd pcd_cleaned].
  destruct (np.max (points_z (pcd self))) as [z_max|e]; [|done].
  destruct (np.min (points_z (pcd self))) as [z_min|e]; [|done].
  rewrite !lift_OK_bind, !outcome_bind, !outcome_for_each.
  rewrite (for_each_ext _ _ _
             (λ s k, outcome (shp_segment_step self shp_seg z_min z_max s k))).
  - destruct (for_each _ _ _) as [[seg_out names]|e]; done.
  - intros acc k _. unfold shp_segment_step.
    destruct (Z.eqb k (-1)); [done |].
    rewrite !outcome_bind. f_equal.
    unfold shp_segment_class. rewrite !outcome_for_each.
    apply for_each_ext. intros acc' [plot_key poly] _. unfold shp_crop.
    cbn [set_write pcd_cleaned write_ply out_folder].
    destruct (dict_get (pcd_cleaned self) k) as [ck|e]; [|done].
    rewrite !lift_OK_bind. by destruct b, (write_ply self).
Qed.

Lemma instance_row_flag b folder self container_ht ground_ht savefig inst :
  names_parallel self → inst ∈ instances self →
  instance_row (set_write b folder self) container_ht ground_ht savefig inst
  = instance_row self container_ht ground_ht savefig inst.
Proof.
  intros Hnames Hin. destruct inst as [k [i seg]].
  destruct (Hnames k i seg Hin) as (names & name & Hk & Hi).
  unfold instance_row, trait_of_instance. simpl fst. simpl snd.
  cbn [set_write pcd_classified pcd_segmented_name write_ply out_folder].
  destruct (dict_get (pcd_classified self) (-1)) as [ground|e]; [|done].
  rewrite !(lift_OK_bind ground).
  destruct (Plant_init seg i ground container_ht ground_ht) as [plant|e]; [|done].
  rewrite !(lift_OK_bind plant), !outcome_bind.
  assert (Hdraw : ∀ (w : bool) (dir : string),
            outcome (if savefig && w
                     then names_k ← lift (dict_get (pcd_segmented_name self) k);
                          file_name ← lift (list_get names_k i);
                          draw_3d_results (dir +:+ "/" +:+ file_name +:+ ".png")
                     else mret tt) = OK tt).
  { intros w dir. destruct (savefig && w); [|done].
    rewrite (dict_get_lookup _ _ _ Hk), lift_OK_bind. unfold list_get. rewrite Hi.
    by rewrite lift_OK_bind. }
  by rewrite !Hdraw.
Qed.

Lemma get_traits_flag b folder self container_ht ground_ht savefig :
  names_parallel self →
  outcome (get_traits (set_write b folder self) container_ht ground_ht savefig)
  = outcome (get_traits self container_ht ground_ht savefig).
Proof.
  intros Hnames. destruct (segmented self) eqn:Hseg.
  - rewrite !get_traits_outcome by done.
    apply for_each_ext. intros rows inst Hin.
    by rewrite instance_row_flag.
  - unfold get_traits. simpl. by rewrite Hseg.
Qed.

End Frame.

Lemma for_each_IO_inv {A S} (P : S → Prop) (xs : list A) (s : S) (body : S → A → IO S) (r : S) :
  P s →
  (∀ s x s', P s → outcome (body s x) = OK s' → P s') →
  outcome (for_each xs s body) = OK r → P r.
Proof.
  intros Hs Hstep. rewrite outcome_for_each.
  apply (for_each_result_inv P); [done |]. intros s0 x s' _. apply Hstep.
Qed.

Lemma keys_dict_set {V} (d : dict V) (k : Z) (v : V) :
  keys (dict_set d k v) = if decide (k ∈ keys d) then keys d else keys d ++ [k].
Proof.
  induction d as [|[k0 v0] d IH].
  - destruct (decide (k ∈ keys [])) as [Hin|]; [inversion Hin | done].
  - cbn [dict_set]. destruct (Z.eqb_spec k0 k) as [->|Hne].
    + rewrite decide_True; [done | left].
    + change (keys ((k0, v0) :: dict_set d k v)) with (k0 :: keys (dict_set d k v)).
      change (keys ((k0, v0) :: d)) with (k0 :: keys d).
      rewrite IH. destruct (decide (k ∈ keys d)) as [Hin|Hin].
      * rewrite decide_True; [done | by right].
      * rewrite decide_False; [done |]. rewrite not_elem_of_cons. split; [congruence | done].
Qed.

Lemma NoDup_keys_dict_set {V} (d : dict V) (k : Z) (v : V) :
  NoDup (keys d) → NoDup (keys (dict_set d k v)).
Proof.
  intros Hnd. rewrite keys_dict_set. destruct (decide (k ∈ keys d)); [done |].
  apply NoDup_app. split_and!; [done | | apply NoDup_singleton].
  intros x Hx ->%list_elem_of_singleton. done.
Qed.

Lemma parallel_dict_set {V W} (R : V → W → Prop) (d1 : dict V) (d2 : dict W) k v w :
  parallel R d1 d2 → R v w → parallel R (dict_set d1 k v) (dict_set d2 k w).
Proof.
  intros Hpar HR. induction Hpar as [|[k1 v1] [k2 w2] d1 d2 [Hk Hvw] Hrest IH]; simpl.
  - by repeat constructor.
  - simpl in Hk. subst k2. destruct (Z.eqb k1 k); constructor; try done.
Qed.

Lemma parallel_lookup {V W} (R : V → W → Prop) (d1 : dict V) (d2 : dict W) k v :
  parallel R d1 d2 → NoDup (keys d2) → (k, v) ∈ d1 →
  ∃ w, dict_lookup d2 k = Some w ∧ R v w.
Proof.
  intros Hpar Hnd Hin.
  apply list_elem_of_lookup in Hin as [n Hn].
  destruct (Forall2_lookup_l _ _ _ _ _ Hpar Hn) as ([k2 w] & Hn2 & Hk & HR).
  simpl in Hk, HR. subst k2. exists w. split; [|done].
  apply dict_lookup_NoDup; [done |]. by eapply list_elem_of_lookup_2.
Qed.

Lemma elem_of_instances self k i seg :
  (k, (i, seg)) ∈ instances self →
  ∃ segs, (k, segs) ∈ pcd_segmented self ∧ segs !! i = Some seg.
Proof.
  unfold instances. intros Hin%list_elem_of_In%in_flat_map.
  destruct Hin as ([k0 segs] & Hentry & Hin). simpl in Hin.
  apply in_map_iff in Hin as ([i0 seg0] & [= <- <- <-] & Hin%list_elem_of_In).
  exists segs. split; [by apply list_elem_of_In |].
  apply list_elem_of_lookup in Hin as [n Hn].
  rewrite list_lookup_imap in Hn.
  destruct (segs !! n) as [s|] eqn:Hs; simpl in Hn; [|done]. by injection Hn as <- <-.
Qed.

Lemma names_parallel_intro self :
  parallel (λ segs names, length names = length segs)
           (pcd_segmented self) (pcd_segmented_name self) →
  NoDup (keys (pcd_segmented_name self)) →
  names_parallel self.
Proof.
  intros Hpar Hnd k i seg Hin.
  destruct (elem_of_instances _ _ _ _ Hin) as (segs & Hsegs & Hi).
  destruct (parallel_lookup _ _ _ _ _ Hpar Hnd Hsegs) as (names & Hnames & Hlen).
  exists names. destruct (lookup_lt_is_Some_2 names i) as [name Hname].
  { rewrite Hlen. by eapply lookup_lt_Some. }
  eauto.
Qed.

Section NamesParallel.
Context `{Sklearn, Open3d, Helpers, SetOrder}.

Lemma emit_instances_lengths self k pcd_seg_list temp_df out :
  outcome (emit_instances self k pcd_seg_list temp_df) = OK out →
  length out.2 = length out.1.
Proof.
  unfold emit_instances.
  apply (for_each_IO_inv (λ acc : list PointCloud * list string,
                            length acc.2 = length acc.1)); [done |].
  intros acc [i r] acc' Hacc. unfold emit_instance.
  destruct (list_get pcd_seg_list (seg_id r)) as [seg|e]; [|done].
  rewrite lift_OK_bind, outcome_bind.
  destruct (write_ply self); simpl; intros [= <-]; simpl; rewrite !length_app; simpl; lia.
Qed.

Lemma auto_segment_class_lengths self k name_by ascending eps_times min_points img_folder out :
  outcome (auto_segment_class self k name_by ascending eps_times min_points img_folder)
  = OK out →
  length out.2 = length out.1.
Proof.
  unfold auto_segment_class. intros Hout.
  apply lift_bind_inv in Hout as Hstep. destruct Hstep as (cleaned_k & _ & Heq).
  rewrite Heq in Hout. clear Heq.
  destruct (segment_clusters cleaned_k _) as [l c].
  apply lift_bind_inv in Hout as Hstep. destruct Hstep as (labels & _ & Heq).
  rewrite Heq in Hout. clear Heq.
  apply lift_bind_inv in Hout as Hstep. destruct Hstep as (rows & _ & Heq).
  rewrite Heq in Hout. clear Heq.
  apply lift_bind_inv in Hout as Hstep. destruct Hstep as (temp_df & _ & Heq).
  rewrite Heq in Hout. clear Heq.
  apply IO_bind_inv in Hout as (segs & Hsegs & Hout & _).
  apply lift_bind_inv in Hout as Hstep. destruct Hstep as (m & _ & Heq).
  rewrite Heq in Hout. simpl in Hout. injection Hout as <-.
  by eapply emit_instances_lengths.
Qed.

Lemma auto_segmentation_names self name_by ascending eps_times min_points img_folder self' :
  outcome (auto_segmentation self name_by ascending eps_times min_points img_folder)
  = OK self' →
  names_parallel self'.
Proof.
  unfold auto_segmentation. intros Hout.
  apply IO_bind_inv in Hout as ([[seg_out names] mp] & Hloop & Hout & _).
  simpl in Hout. injection Hout as <-.
  assert (Hinv : parallel (λ segs nm, length nm = length segs) seg_out names
                 ∧ NoDup (keys names)).
  { revert Hloop.
    apply (for_each_IO_inv
             (λ acc : dict (list PointCloud) * dict (list string) * option Z,
                parallel (λ segs nm, length nm = length segs) acc.1.1 acc.1.2
                ∧ NoDup (keys acc.1.2))).
    - split; constructor.
    - intros [[so sn] m] k acc' [Hpar Hnd]. unfold auto_segment_step.
      destruct (Z.eqb k (-1)); [by intros [= <-] |].
      rewrite outcome_bind.
      destruct (outcome (auto_segment_class _ _ _ _ _ _ _)) as [[segs nm]|e] eqn:Hclass;
        [|done].
      simpl. intros [= <-]. simpl. split.
      + apply parallel_dict_set; [done |].
        apply (auto_segment_class_lengths _ _ _ _ _ _ _ _ Hclass).
      + by apply NoDup_keys_dict_set. }
  apply names_parallel_intro; simpl; tauto.
Qed.

Lemma shp_segmentation_names self shp_seg self' :
  outcome (shp_segmentation self shp_seg) = OK self' → names_parallel self'.
Proof.
  unfold shp_segmentation. intros Hout.
  apply lift_bind_inv in Hout as Hstep. destruct Hstep as (z_max & _ & Heq).
  rewrite Heq in Hout. clear Heq.
  apply lift_bind_inv in Hout as Hstep. destruct Hstep as (z_min & _ & Heq).
  rewrite Heq in Hout. clear Heq.
  apply IO_bind_inv in Hout as ([seg_out names] & Hloop & Hout & _).
  simpl in Hout. injection Hout as <-.
  assert (Hinv : parallel (λ segs nm, length nm = length segs) seg_out names
                 ∧ NoDup (keys names)).
  { revert Hloop.
    apply (for_each_IO_inv
             (λ acc : dict (list PointCloud) * dict (list string),
                parallel (λ segs nm, length nm = length segs) acc.1 acc.2
                ∧ NoDup (keys acc.2))).
    - split; constructor.
    - intros [so sn] k acc' [Hpar Hnd]. unfold shp_segment_step.
      destruct (Z.eqb k (-1)); [by intros [= <-] |].
      rewrite outcome_bind.
      destruct (outcome (shp_segment_class _ _ _ _ _)) as [[segs nm]|e] eqn:Hclass; [|done].
      simpl. intros [= <-]. simpl. split; [|by apply NoDup_keys_dict_set].
      apply parallel_dict_set; [done |].
      revert Hclass. unfold shp_segment_class.
      apply (for_each_IO_inv (λ acc : list PointCloud * list string,
                                length acc.2 = length acc.1)); [done |].
      intros acc [plot_key poly] acc'' Hacc. unfold shp_crop.
      destruct (dict_get (pcd_cleaned self) k) as [ck|e]; [|done].
      rewrite lift_OK_bind, outcome_bind.
      destruct (write_ply self); simpl; intros [= <-]; simpl; rewrite !length_app; simpl; lia. }
  apply names_parallel_intro; simpl; tauto.
Qed.

End NamesParallel.

(** *** The order of the instances *)

Lemma imap_index_only {A B C} (f : nat → C) (l1 : list A) (l2 : list B) :
  length l1 = length l2 → imap (λ i _, f i) l1 = imap (λ i _, f i) l2.
Proof.
  revert f l2. induction l1 as [|a l1 IH]; intros f [|b l2] Hlen; try done.
  rewrite !imap_cons. f_equal. apply (IH (f ∘ S)). by injection Hlen.
Qed.

Lemma elem_of_dict_set {V} (d : dict V) (k k' : Z) (v v' : V) :
  (k', v') ∈ dict_set d k v → (k' = k ∧ v' = v) ∨ (k', v') ∈ d.
Proof.
  induction d as [|[k0 v0] d IH]; simpl.
  - intros [= -> ->]%list_elem_of_singleton. by left.
  - destruct (Z.eqb k0 k).
    + intros [[= -> ->]|Hin]%elem_of_cons; [by left | right; by right].
    + intros [->|Hin]%elem_of_cons; [right; left |].
      destruct (IH Hin) as [?|?]; [by left | right; by right].
Qed.

Section InstanceOrder.
Context `{Sklearn, Open3d, Helpers, SetOrder}.

Lemma auto_segment_class_inv self k name_by ascending eps_times min_points img_folder
    segs names :
  name_by = "x" ∨ name_by = "y" →
  outcome (auto_segment_class self k name_by ascending eps_times min_points img_folder)
  = OK (segs, names) →
  in_sort_order name_by ascending segs ∧ numbered k names.
Proof.
  intros Hname Hout. pose proof Hout as Hsteps. unfold auto_segment_class in Hsteps.
  apply lift_bind_inv in Hsteps as Hstep. destruct Hstep as (cleaned_k & Hget & Heq).
  rewrite Heq in Hsteps. clear Heq.
  pose proof (segment_clusters_run cleaned_k
                (cluster_dbscan cleaned_k (voxel_size self * eps_times) min_points)) as Hrun.
  destruct (segment_clusters cleaned_k _) as [l c].
  apply lift_bind_inv in Hsteps as Hstep. destruct Hstep as (labels & Hkm & Heq).
  rewrite Heq in Hsteps. clear Heq.
  apply lift_bind_inv in Hsteps as Hstep. destruct Hstep as (rows & _ & Heq).
  rewrite Heq in Hsteps. clear Heq.
  apply lift_bind_inv in Hsteps as Hstep. destruct Hstep as (temp_df & _ & Heq).
  rewrite Heq in Hsteps. clear Heq.
  apply IO_bind_inv in Hsteps as (out & _ & Hsteps & _).
  apply lift_bind_inv in Hsteps as Hstep. destruct Hstep as (m & Hmax & _).
  destruct (auto_segment_class_sorted self k name_by ascending eps_times min_points
              img_folder cleaned_k) as (segs' & names' & Hout' & Hnames & Hsorted).
  - unfold dict_get in Hget. by destruct (dict_lookup (pcd_cleaned self) k) as [?|]; simplify_eq.
  - done.
  - unfold KMeans_fit in Hkm. injection Hrun as _ ->. rewrite List.length_map in Hkm.
    destruct (Nat.ltb_spec (length (np.unique
                (cluster_dbscan cleaned_k (voxel_size self * eps_times) min_points))) 2);
      [done | lia].
  - intros Hnil. by rewrite Hnil in Hmax.
  - rewrite Hout in Hout'. injection Hout' as <- <-. split; [exact Hsorted |].
    unfold numbered. rewrite Hnames at 1. apply imap_index_only.
    by rewrite Hnames, length_imap.
Qed.

Lemma auto_segment_class_OK_inv self k name_by ascending eps_times min_points img_folder out :
  outcome (auto_segment_class self k name_by ascending eps_times min_points img_folder)
  = OK out →
  ∃ cleaned_k key,
    dict_lookup (pcd_cleaned self) k = Some cleaned_k ∧ column name_by = OK key ∧
    2 ≤ length (np.unique (cluster_dbscan cleaned_k (voxel_size self * eps_times) min_points))
    ∧ pcd self ≠ [].
Proof.
  intros Hsteps. unfold auto_segment_class in Hsteps.
  apply lift_bind_inv in Hsteps as Hstep. destruct Hstep as (cleaned_k & Hget & Heq).
  rewrite Heq in Hsteps. clear Heq.
  pose proof (segment_clusters_run cleaned_k
                (cluster_dbscan cleaned_k (voxel_size self * eps_times) min_points)) as Hrun.
  destruct (segment_clusters cleaned_k _) as [l c].
  apply lift_bind_inv in Hsteps as Hstep. destruct Hstep as (labels & Hkm & Heq).
  rewrite Heq in Hsteps. clear Heq.
  apply lift_bind_inv in Hsteps as Hstep. destruct Hstep as (rows & _ & Heq).
  rewrite Heq in Hsteps. clear Heq.
  apply lift_bind_inv in Hsteps as Hstep. destruct Hstep as (temp_df & Hsort & Heq).
  rewrite Heq in Hsteps. clear Heq.
  apply IO_bind_inv in Hsteps as (out' & _ & Hsteps & _).
  apply lift_bind_inv in Hsteps as Hstep. destruct Hstep as (m & Hmax & _).
  unfold sort_values in Hsort. apply bind_OK in Hsort as (key & Hkey & _).
  exists cleaned_k, key. split_and!.
  - unfold dict_get in Hget. by destruct (dict_lookup (pcd_cleaned self) k) as [?|]; simplify_eq.
  - done.
  - unfold KMeans_fit in Hkm. injection Hrun as _ ->. rewrite List.length_map in Hkm.
    destruct (Nat.ltb_spec (length (np.unique
                (cluster_dbscan cleaned_k (voxel_size self * eps_times) min_points))) 2);
      [done | lia].
  - intros Hnil. by rewrite Hnil in Hmax.
Qed.

(** What the loop body returns for a class: the surviving clusters, in the
    order of the sort, with their names. *)
Lemma auto_segment_class_result self k name_by ascending eps_times m img_folder segs names :
  name_by = "x" ∨ name_by = "y" →
  outcome (auto_segment_class self k name_by ascending eps_times m img_folder)
  = OK (segs, names) →
  ∃ cleaned_k,
    dict_lookup (pcd_cleaned self) k = Some cleaned_k ∧
    segs ≡ₚ plant_clusters cleaned_k (cluster_dbscan cleaned_k (voxel_size self * eps_times) m) ∧
    in_sort_order name_by ascending segs ∧ numbered k names ∧
    length names = length segs.
Proof.
  intros Hname Hout.
  destruct (auto_segment_class_inv _ _ _ _ _ _ _ _ _ Hname Hout) as [Hsorted Hnum].
  destruct (auto_segment_class_OK_inv _ _ _ _ _ _ _ _ Hout)
    as (cleaned_k & key & Hk & Hkey & Hn & Hpcd).
  destruct (auto_segment_class_run self k name_by ascending eps_times m
              img_folder cleaned_k key Hk Hkey Hn Hpcd) as (temp_df & Hsort & Hdf & Hrun).
  rewrite Hrun in Hout. simpl in Hout. injection Hout as <- <-.
  destruct (sort_values_ordered _ _ _ _ _ Hkey Hsort) as [Hperm _].
  exists cleaned_k. split_and!; [done | | done | done |].
  - unfold plant_clusters.
    change (map ?f temp_df) with (f <$> temp_df). rewrite Hperm.
    change (?f <$> map ?g ?l) with (map f (map g l)). by rewrite map_map.
  - by rewrite length_imap, List.length_map.
Qed.

(** The loop over the classes: the entry of a foreground class is what the
    loop body returns for it, with the [min_points] of the call or, when
    none is given, the one taken from the density of the plot. *)
Lemma auto_segment_loop_entries self name_by ascending (eps_times : Q) (img_folder : string)
    (m : Z) ks (acc acc' : dict (list PointCloud) * dict (list string) * option Z) :
  let stored (a : dict (list PointCloud) * dict (list string) * option Z) k :=
    ∃ segs names,
      dict_lookup a.1.1 k = Some segs ∧ dict_lookup a.1.2 k = Some names ∧
      outcome (auto_segment_class self k name_by ascending eps_times m img_folder)
      = OK (segs, names) in
  default (round (voxel_density self)) acc.2 = m →
  for_each ks acc
    (λ s k, outcome (auto_segment_step self name_by ascending eps_times img_folder s k))
  = OK acc' →
  ∀ k, k ∈ foreground ks ∨ stored acc k → stored acc' k.
Proof.
  intros stored. revert acc. induction ks as [|k0 ks IH]; intros [[so sn] mp] Hm Hloop k Hk.
  - injection Hloop as <-. destruct Hk as [Hk|Hk]; [inversion Hk | done].
  - change (for_each (k0 :: ks) ?a ?b) with (b a k0 ≫= λ s', for_each ks s' b) in Hloop.
    apply bind_OK in Hloop as (s' & Hstep & Hloop). cbv beta in Hstep.
    unfold auto_segment_step in Hstep. unfold foreground in Hk. cbn [List.filter] in Hk.
    destruct (Z.eqb k0 (-1)) eqn:Hbg; cbn [negb] in Hk.
    { injection Hstep as <-. by apply (IH _ Hm Hloop). }
    rewrite outcome_bind in Hstep.
    assert (Hmp : match mp with Some m0 => m0 | None => round (voxel_density self) end = m).
    { simpl in Hm. by destruct mp. }
    rewrite Hmp in Hstep.
    destruct (outcome (auto_segment_class self k0 name_by ascending eps_times m img_folder))
      as [[segs nm]|e] eqn:Hclass; [|done].
    simpl in Hstep. injection Hstep as <-.
    apply (IH (dict_set so k0 segs, dict_set sn k0 nm, Some m) eq_refl Hloop).
    destruct (Z.eqb_spec k0 k) as [->|Hne].
    + right. exists segs, nm. simpl. rewrite !dict_lookup_set, !Z.eqb_refl. done.
    + destruct Hk as [[Hk|Hk]%elem_of_cons|(segs' & nm' & Hs1 & Hs2 & Hs3)];
        [congruence | by left |].
      right. exists segs', nm'. simpl in *. rewrite !dict_lookup_set.
      destruct (Z.eqb_spec k0 k); [done |]. done.
Qed.

(** C8.  [auto_segmentation] with [name_by] x or y: a class that clusters
    into at least two groups gets exactly its surviving clusters (the
    clusters of the plant group) as instances, in the order of the sort and
    named class[k]-plant0, -plant1, ... in that order.  Whenever the call
    returns, every class but the background has its entry, and the entry of
    a class is a rearrangement of its surviving clusters in which the chosen
    coordinate of the centre does not decrease from one instance to the
    next when ascending (does not increase when descending), with the names
    counting up with the instances. *)
Theorem auto_segmentation_sorted self name_by ascending eps_times min_points img_folder :
  name_by = "x" ∨ name_by = "y" →
  (∀ k m cleaned_k,
     dict_lookup (pcd_cleaned self) k = Some cleaned_k →
     2 ≤ length (np.unique (cluster_dbscan cleaned_k (voxel_size self * eps_times) m)) →
     pcd self ≠ [] →
     ∃ segs names,
       outcome (auto_segment_class self k name_by ascending eps_times m img_folder)
       = OK (segs, names) ∧
       segs ≡ₚ plant_clusters cleaned_k
                 (cluster_dbscan cleaned_k (voxel_size self * eps_times) m) ∧
       in_sort_order name_by ascending segs ∧ numbered k names ∧
       length names = length segs) ∧
  (∀ self',
     outcome (auto_segmentation self name_by ascending eps_times min_points img_folder)
     = OK self' →
     (∀ k segs, (k, segs) ∈ pcd_segmented self' → in_sort_order name_by ascending segs) ∧
     (∀ k names, (k, names) ∈ pcd_segmented_name self' → numbered k names) ∧
     (∀ k, k ∈ foreground (keys (pcd_classified self)) →
        ∃ cleaned_k segs names,
          dict_lookup (pcd_cleaned self) k = Some cleaned_k ∧
          dict_lookup (pcd_segmented self') k = Some segs ∧
          dict_lookup (pcd_segmented_name self') k = Some names ∧
          segs ≡ₚ plant_clusters cleaned_k
                    (cluster_dbscan cleaned_k (voxel_size self * eps_times)
                       (default (round (voxel_density self)) min_points)) ∧
          in_sort_order name_by ascending segs ∧ numbered k names ∧
          length names = length segs)).
Proof.
  intros Hname. split.
  - intros k m cleaned_k Hk Hn Hpcd.
    destruct (auto_segment_class_sorted self k name_by ascending eps_times m img_folder
                cleaned_k Hk Hname Hn Hpcd) as (segs & names & Hout & _).
    exists segs, names. split; [exact Hout |].
    destruct (auto_segment_class_result _ _ _ _ _ _ _ _ _ Hname Hout)
      as (cleaned_k' & Hk' & Hperm & Hsorted & Hnum & Hlen).
    rewrite Hk in Hk'. injection Hk' as <-. done.
  - intros self'. unfold auto_segmentation. intros Hout.
    apply IO_bind_inv in Hout as ([[seg_out names] mp] & Hloop & Hout & _).
    simpl in Hout. injection Hout as <-. simpl.
    assert (Hold : (∀ k segs, (k, segs) ∈ seg_out → in_sort_order name_by ascending segs)
                   ∧ (∀ k nm, (k, nm) ∈ names → numbered k nm)).
    { revert Hloop.
      apply (for_each_IO_inv
               (λ acc : dict (list PointCloud) * dict (list string) * option Z,
                  (∀ k segs, (k, segs) ∈ acc.1.1 → in_sort_order name_by ascending segs)
                  ∧ (∀ k nm, (k, nm) ∈ acc.1.2 → numbered k nm))).
      + split; intros k x Hin; inversion Hin.
      + intros [[so sn] m] k acc' [Hso Hsn]. unfold auto_segment_step.
        destruct (Z.eqb k (-1)); [by intros [= <-] |].
        rewrite outcome_bind.
        destruct (outcome (auto_segment_class _ _ _ _ _ _ _)) as [[segs nm]|e] eqn:Hclass;
          [|done].
        destruct (auto_segment_class_inv _ _ _ _ _ _ _ _ _ Hname Hclass) as [Hsorted Hnum].
        simpl. intros [= <-]. simpl. split.
        * intros k' segs' [[-> ->]|Hin]%elem_of_dict_set; [done | by eapply Hso].
        * intros k' nm' [[-> ->]|Hin]%elem_of_dict_set; [done | by eapply Hsn]. }
    destruct Hold as [Hsorted Hnum]. split_and!; [exact Hsorted | exact Hnum |].
    intros k Hk. rewrite outcome_for_each in Hloop.
    destruct (auto_segment_loop_entries self name_by ascending eps_times img_folder
                (default (round (voxel_density self)) min_points) _
                ([], [], min_points) _ eq_refl Hloop k
                (or_introl Hk)) as (segs & nm & Hsegs & Hnm & Hclass).
    destruct (auto_segment_class_result _ _ _ _ _ _ _ _ _ Hname Hclass)
      as (cleaned_k & Hck & Hperm & Hsrt & Hnumk & Hlen).
    exists cleaned_k, segs, nm. split_and!; done.
Qed.

End InstanceOrder.

(** *** The write flag *)

Section WriteFlag.
Context `{Sklearn, Open3d, Helpers, SetOrder}.

(** C9, as the code has it.  With the write flag off, [__init__] creates no
    folder and writes no file, neither up to the call of the reader nor in
    the lines after the cloud is loaded; [shp_segmentation] and [get_traits]
    leave no artifact, and the only artifacts of [auto_segmentation] are the
    segmentation images: these are drawn whatever the flag says, one per
    foreground class when the call returns.  The clouds, the segmentation
    and the trait table do not depend on the flag. *)
Theorem write_ply_disabled ply_path cloud name c output_path self shp_seg name_by ascending
    eps_times min_points img_folder container_ht ground_ht savefig :
  write_ply self = false →
  (trace (Plot_init ply_path c output_path false) = [] ∧
   trace (Plot_init_loaded cloud name c output_path false) = [] ∧
   trace (shp_segmentation self shp_seg) = [] ∧
   trace (get_traits self container_ht ground_ht savefig) = [] ∧
   Forall is_seg_image
     (trace (auto_segmentation self name_by ascending eps_times min_points img_folder))) ∧
  (∀ self',
     outcome (auto_segmentation self name_by ascending eps_times min_points img_folder)
     = OK self' →
     trace (auto_segmentation self name_by ascending eps_times min_points img_folder)
     = map (λ k, DrawPlotSeg (seg_savepath self k img_folder))
           (foreground (keys (pcd_classified self)))) ∧
  (∀ b folder,
     result_map (set_write b folder) (outcome (Plot_init ply_path c output_path true))
     = result_map (set_write b folder) (outcome (Plot_init ply_path c output_path false)) ∧
     result_map (set_write b folder)
       (outcome (Plot_init_loaded cloud name c output_path true))
     = result_map (set_write b folder)
         (outcome (Plot_init_loaded cloud name c output_path false)) ∧
     outcome (auto_segmentation (set_write b folder self) name_by ascending eps_times
                min_points img_folder)
     = result_map (set_write b folder)
         (outcome (auto_segmentation self name_by ascending eps_times min_points
                     img_folder)) ∧
     outcome (shp_segmentation (set_write b folder self) shp_seg)
     = result_map (set_write b folder) (outcome (shp_segmentation self shp_seg)) ∧
     (names_parallel self →
      outcome (get_traits (set_write b folder self) container_ht ground_ht savefig)
      = outcome (get_traits self container_ht ground_ht savefig))).
Proof.
  intros Hw. split_and!.
  - by rewrite Plot_init_raises.
  - apply Plot_init_loaded_silent.
  - by apply shp_segmentation_silent.
  - by apply get_traits_silent.
  - by apply auto_segmentation_only_images.
  - intros self' Hout. by eapply auto_segmentation_images.
  - intros b folder. split_and!.
    + by rewrite !Plot_init_raises.
    + apply Plot_init_loaded_flag.
    + apply auto_segmentation_flag.
    + apply shp_segmentation_flag.
    + apply get_traits_flag.
Qed.

End WriteFlag.

(** * Further properties of the pipeline *)

(** *** Training data *)

Lemma channel_unit_range (v : Z) :
  (0 ≤ v ≤ 255)%Z → (0 <= inject_Z v / 255)%Q ∧ (inject_Z v / 255 <= 1)%Q.
Proof.
  intros Hv. unfold Qle, Qdiv, Qmult, Qinv, inject_Z. simpl. lia.
Qed.

(** X2.  [Classifier.read_png] keeps the fully opaque pixels of the image
    (alpha exactly 255) and no others, in their order, one colour per pixel,
    and the colour of a pixel is its red, green and blue channel divided by
    255: multiplied by 255 it gives the channels back.  For 8-bit channels
    every component of a training colour lies between 0 and 1. *)
Theorem read_png_opaque_unit_range (rgba : list (Z * Z * Z * Z)) :
  Forall2 (λ (c : Color) (p : Z * Z * Z * Z),
             p.2 = 255%Z ∧ (c.1.1 * 255 == inject_Z p.1.1.1)%Q
             ∧ (c.1.2 * 255 == inject_Z p.1.1.2)%Q ∧ (c.2 * 255 == inject_Z p.1.2)%Q)
          (read_png rgba) (List.filter (λ p : Z * Z * Z * Z, Z.eqb p.2 255) rgba) ∧
  (Forall (λ '(r, g, b, _), (0 ≤ r ≤ 255)%Z ∧ (0 ≤ g ≤ 255)%Z ∧ (0 ≤ b ≤ 255)%Z) rgba →
   Forall (λ c : Color, ((0 <= c.1.1)%Q ∧ (c.1.1 <= 1)%Q) ∧ ((0 <= c.1.2)%Q ∧ (c.1.2 <= 1)%Q)
                        ∧ ((0 <= c.2)%Q ∧ (c.2 <= 1)%Q))
          (read_png rgba)).
Proof.
  unfold read_png. split.
  - induction rgba as [|[[[r g] b] a] rgba IH]; simpl; [constructor |].
    destruct (Z.eqb_spec a 255) as [->|Ha]; simpl; [|exact IH].
    constructor; [|exact IH]. simpl. split_and!; [done | field | field | field].
  - intros Hrange.
    induction Hrange as [|[[[r g] b] a] rgba (Hr & Hg & Hb) _ IH]; simpl; [constructor |].
    destruct (Z.eqb a 255); simpl; [|exact IH].
    constructor; [|exact IH]. simpl.
    split_and!; by apply channel_unit_range.
Qed.

Lemma build_training_array_loop (sources : list (training_source * Z))
    (imgs : list (list Color)) (acc : list Color * list Z) :
  Forall2 (λ s img, training_colors s.1 = OK img) sources imgs →
  for_each sources acc
    (λ '(data, kind_acc) '(img_path, kind),
       img_np ← training_colors img_path;
       let kind_np := replicate (length img_np) kind in
       mret (data ++ img_np, kind_acc ++ kind_np))
  = OK (acc.1 ++ concat imgs,
        acc.2 ++ concat (zip_with (λ (s : training_source * Z) img, replicate (length img) s.2)
                                  sources imgs)).
Proof.
  intros Hall. revert acc.
  induction Hall as [|[p k] img sources imgs Himg _ IH]; intros [data kind_acc]; simpl.
  - by rewrite !app_nil_r.
  - simpl in Himg. rewrite Himg. simpl. rewrite IH. simpl. by rewrite <- !app_assoc.
Qed.

(** X3.  [Classifier.build_training_array] walks the pairs of [zip(path_list,
    kind_list)]: when every source can be read, the training colours are
    the colours of the sources one after the other and the training labels
    repeat the kind of each source once per colour of that source, so colour
    and label at the same position belong together; the first source that
    cannot be read ends the construction with its exception. *)
Theorem build_training_array_aligned (paths : list training_source) (kinds : list Z) :
  (∀ imgs,
     Forall2 (λ s img, training_colors s.1 = OK img) (zip paths kinds) imgs →
     build_training_array paths kinds
     = OK (concat imgs,
           concat (zip_with (λ (s : training_source * Z) img, replicate (length img) s.2)
                            (zip paths kinds) imgs))) ∧
  (∀ pre s post e,
     zip paths kinds = pre ++ s :: post →
     Forall (λ s', ∃ img, training_colors s'.1 = OK img) pre →
     training_colors s.1 = Raise e →
     build_training_array paths kinds = Raise e).
Proof.
  split.
  - intros imgs Hall. unfold build_training_array.
    by rewrite (build_training_array_loop _ imgs).
  - intros pre [p k] post e Hzip Hpre He. unfold build_training_array. rewrite Hzip.
    rewrite for_each_app.
    assert (Hok : ∃ imgs, Forall2 (λ s img, training_colors s.1 = OK img) pre imgs).
    { clear Hzip. induction Hpre as [|s pre [img Himg] _ [imgs IH]].
      - exists []. constructor.
      - exists (img :: imgs). by constructor. }
    destruct Hok as [imgs Hok].
    rewrite (build_training_array_loop _ imgs _ Hok). simpl. simpl in He. by rewrite He.
Qed.

Section ClassifierCovers.
Context `{Sklearn}.

(** X4.  A classifier that [Classifier.__init__] has built answers
    [predict] only if it was built with core ['dtc'] and its kinds are not
    one single label, and only on a non-empty array of colours; it then
    gives one label per colour, each of them a label of the truncated
    [kind_list].  With one distinct kind, with core ['svm'] or with any
    other core, [predict] raises. *)
Theorem predict_only_fitted_tree paths kinds core c vars pred :
  Classifier_init paths kinds core = OK c →
  predict c vars = OK pred →
  core = "dtc" ∧ size (kind_set c) ≠ 1 ∧ vars ≠ [] ∧
  length pred = length vars ∧
  Forall (λ l, l ∈ take (length paths `min` length kinds) kinds) pred.
Proof.
  intros Hinit Hpred.
  destruct (Classifier_init_inv _ _ _ _ Hinit) as (Hp & Hk & Hbuild & Hset & Hclf).
  destruct (build_training_array_inv _ _ _ _ Hbuild) as [Hlen Hsub].
  destruct Hclf as [[Hc _]|[(Hc & Hsz & Hcore & Hdata)|[(Hc & _)|(Hc & _)]]];
    try (unfold predict in Hpred; rewrite Hc in Hpred; discriminate).
  destruct (predict_tree_labels c vars pred Hc Hlen Hdata Hpred) as [Hplen Hlab].
  split_and!; try done.
  - intros ->. unfold predict in Hpred. rewrite Hc in Hpred. discriminate.
  - eapply Forall_impl; [exact Hlab |]. intros l Hl. simpl. rewrite <- Hk. by apply Hsub.
Qed.

(** X5.  Training images without a single fully opaque pixel give an empty
    training array, and unless the kinds are one single label the decision
    tree is fitted on it, which it cannot be: [Classifier.__init__] raises
    ValueError. *)
Theorem Classifier_init_no_opaque_pixel (images : list (list (Z * Z * Z * Z))) (kinds : list Z) :
  Forall (Forall (λ '(_, _, _, a), a ≠ 255%Z)) images →
  size (list_to_set kinds : gset Z) ≠ 1 →
  Classifier_init (map src_png images) kinds "dtc" = Raise ValueError.
Proof.
  intros Halpha Hsz. unfold Classifier_init.
  set (n := length (map src_png images) `min` length kinds).
  assert (Hread : ∀ rgba, Forall (λ '(_, _, _, a), a ≠ 255%Z) rgba → read_png rgba = []).
  { intros rgba Hall. unfold read_png.
    induction Hall as [|[[[r g] b] a] rgba Ha _ IH]; simpl; [done |].
    by destruct (Z.eqb_spec a 255). }
  assert (Hbuild : build_training_array (take n (map src_png images)) (take n kinds)
                   = OK ([], [])).
  { unfold build_training_array.
    rewrite (build_training_array_loop _
               (map (λ _, []) (zip (take n (map src_png images)) (take n kinds)))).
    - simpl. f_equal. f_equal.
      + induction (zip _ _) as [|s l IH]; simpl; [done | exact IH].
      + induction (zip _ _) as [|s l IH]; simpl; [done | exact IH].
    - apply Forall2_fmap_r, Forall_Forall2_diag, Forall_forall.
      intros [p k] Hin. simpl.
      apply elem_of_zip_l, subseteq_take in Hin.
      apply list_elem_of_In, in_map_iff in Hin as (rgba & <- & Hrgba%list_elem_of_In).
      simpl. f_equal. apply Hread. by eapply (proj1 (Forall_forall _ _) Halpha). }
  rewrite Hbuild. simpl. by rewrite decide_False.
Qed.

End ClassifierCovers.

(** *** The construction of a plot *)

Section PlotCovers.
Context `{Sklearn, Open3d, Helpers, SetOrder}.

(** X6.  As the sources stand, [Plot.__init__] cannot return.  It reads the
    cloud with [read_ply(ply_path, unit=unit)], or [read_plys(ply_list,
    unit=unit)] for a folder with ply files, and neither function of
    [io/pcd.py] has a parameter [unit]: the call raises TypeError.  A folder
    without ply files raises EOFError and a path that is neither a file nor
    a folder TypeError.  Whatever the classifier, the output path and the
    write flag, the exception comes before the output folder is made and
    before the classifier is applied. *)
Theorem Plot_init_stops_at_the_reader ply_path c (output_path : string) (write : bool) :
  trace (Plot_init ply_path c output_path write) = [] ∧
  outcome (Plot_init ply_path c output_path write)
  = Raise (match ply_path with
           | ply_file _ _ => TypeError
           | ply_folder _ [] => EOFError
           | ply_folder _ (_ :: _) => TypeError
           | ply_neither => TypeError
           end) ∧
  ∀ self, outcome (Plot_init ply_path c output_path write) ≠ OK self.
Proof.
  rewrite Plot_init_raises. split_and!; [done | | done].
  by destruct ply_path as [name cloud|name [|ply plys]|].
Qed.

End PlotCovers.

(** *** Labels and clusters *)

Lemma where_eq_from_all (v : list Z) (k : Z) (i : nat) :
  Forall (λ l, l = k) v → np.where_eq_from i v k = seq i (length v).
Proof.
  intros Hall. revert i. induction Hall as [|x v -> _ IH]; intros i; simpl; [done |].
  rewrite Z.eqb_refl. f_equal. apply IH.
Qed.

Lemma where_eq_from_lt (v : list Z) (k : Z) (i j : nat) :
  j ∈ np.where_eq_from i v k → i ≤ j.
Proof. intros (n & -> & _)%where_eq_from_elem. lia. Qed.

Lemma where_eq_from_NoDup (v : list Z) (k : Z) (i : nat) : NoDup (np.where_eq_from i v k).
Proof.
  revert i. induction v as [|x v IH]; intros i; simpl; [constructor |].
  destruct (Z.eqb x k); [|apply IH].
  constructor; [|apply IH]. intros Hin%where_eq_from_lt. lia.
Qed.

Lemma rows_with_label_none {A} (arr : list A) (labels : list Z) (g : Z) :
  g ∉ labels → rows_with_label arr labels g = [].
Proof.
  intros Hg. unfold rows_with_label.
  assert (Hnone : List.filter (λ '(_, l), Z.eqb l g) (zip arr labels) = []).
  { revert arr. induction labels as [|l labels IH]; intros [|a arr]; simpl; try done.
    destruct (Z.eqb_spec l g) as [->|_]; [exfalso; apply Hg; left |].
    apply IH. intros Hin. apply Hg. by right. }
  by rewrite Hnone.
Qed.

(** X8.  The choice of the plant group in [auto_segmentation] when the
    2-means clustering leaves one group empty: the mean of the empty group
    is NaN, the comparison is false, and group 1 is taken.  If every
    cluster was put in group 0 no cluster is kept as a plant; if every
    cluster was put in group 1 all of them are kept. *)
Theorem plant_group_one_sided (pcd_seg_char : list (Q * Q)) (labels : list Z) :
  (Forall (λ l, l = 0%Z) labels → plant_group pcd_seg_char labels = []) ∧
  (Forall (λ l, l = 1%Z) labels → plant_group pcd_seg_char labels = seq 0 (length labels)).
Proof.
  split; intros Hall; unfold plant_group.
  - assert (Hno : (1%Z) ∉ labels).
    { intros Hin. by apply (proj1 (Forall_forall _ _) Hall) in Hin. }
    rewrite (rows_with_label_none _ _ 1%Z Hno). simpl.
    replace (fgt _ NaN) with false by (by destruct (np.mean _)).
    by apply where_eq_nil.
  - assert (Hno : (0%Z) ∉ labels).
    { intros Hin. by apply (proj1 (Forall_forall _ _) Hall) in Hin. }
    rewrite (rows_with_label_none _ _ 0%Z Hno). simpl.
    by apply where_eq_from_all.
Qed.

(** *** Loops that cannot get past an element *)

Lemma for_each_result_stuck {A S} (P : S → Prop) (xs : list A) (s : S)
    (body : S → A → result S) (x : A) :
  x ∈ xs → P s →
  (∀ s y s', P s → body s y = OK s' → P s') →
  (∀ s, P s → ∃ e, body s x = Raise e) →
  ∃ e, for_each xs s body = Raise e.
Proof.
  intros Hin Hs Hstep Hx. revert s Hs.
  induction xs as [|y xs IH]; intros s Hs; [inversion Hin |].
  simpl. destruct (body s y) as [s'|e] eqn:Hy; [|by exists e].
  simpl. apply elem_of_cons in Hin as [->|Hin].
  - destruct (Hx s Hs) as [e He]. congruence.
  - apply (IH Hin). by eapply Hstep.
Qed.

Lemma for_each_append_all_OK {A B} (f : A → result B) (xs : list A) (acc out : list B) :
  for_each xs acc (λ rows x, r ← f x; mret (rows ++ [r])) = OK out →
  ∀ x, x ∈ xs → ∃ r, f x = OK r.
Proof.
  revert acc. induction xs as [|y xs IH]; intros acc Hout x Hin; [inversion Hin |].
  simpl in Hout. destruct (f y) as [r|e] eqn:Hy; [|done]. simpl in Hout.
  apply elem_of_cons in Hin as [->|Hin]; [by exists r | by eapply IH].
Qed.

(** *** Automatic segmentation *)

Section SegmentationCovers.
Context `{Sklearn, Open3d, Helpers, SetOrder}.

Lemma auto_segment_class_few self k name_by ascending eps_times min_points img_folder
    cleaned_k :
  dict_lookup (pcd_cleaned self) k = Some cleaned_k →
  length (np.unique (cluster_dbscan cleaned_k (voxel_size self * eps_times) min_points)) < 2 →
  auto_segment_class self k name_by ascending eps_times min_points img_folder
  = MkIO [] (Raise ValueError).
Proof.
  intros Hk Hfew. unfold auto_segment_class.
  rewrite (dict_get_lookup _ _ _ Hk), lift_OK_bind.
  pose proof (segment_clusters_run cleaned_k
                (cluster_dbscan cleaned_k (voxel_size self * eps_times) min_points)) as Hrun.
  destruct (segment_clusters cleaned_k _) as [l c]. injection Hrun as _ ->.
  unfold KMeans_fit. rewrite List.length_map.
  destruct (Nat.ltb_spec (length (np.unique
              (cluster_dbscan cleaned_k (voxel_size self * eps_times) min_points))) 2);
    [done | lia].
Qed.

(** X9.  [auto_segmentation] needs at least two DBSCAN clusters in every
    foreground class, because it always asks k-means for two groups: for a
    class with fewer clusters (a class without points, or one single
    cluster) the loop body raises ValueError before anything is written,
    and the whole call raises instead of returning.  [min_points], when not
    given, is the rounded voxel density. *)
Theorem auto_segmentation_needs_two_clusters self name_by ascending (eps_times : Q)
    (min_points : option Z) (img_folder : string) k cleaned_k :
  let m := match min_points with None => round (voxel_density self) | Some m => m end in
  dict_lookup (pcd_cleaned self) k = Some cleaned_k →
  length (np.unique (cluster_dbscan cleaned_k (voxel_size self * eps_times) m)) < 2 →
  auto_segment_class self k name_by ascending eps_times m img_folder
  = MkIO [] (Raise ValueError) ∧
  (k ∈ keys (pcd_classified self) → k ≠ (-1)%Z →
   ∃ e, outcome (auto_segmentation self name_by ascending eps_times min_points img_folder)
        = Raise e).
Proof.
  intros m Hk Hfew.
  pose proof (auto_segment_class_few self k name_by ascending eps_times m img_folder
                cleaned_k Hk Hfew) as Hclass.
  split; [exact Hclass |]. intros Hin Hne.
  unfold auto_segmentation. rewrite outcome_bind, outcome_for_each.
  set (P := λ acc : dict (list PointCloud) * dict (list string) * option Z,
              match acc.2 with None => round (voxel_density self) | Some m' => m' end = m).
  destruct (for_each_result_stuck P (keys (pcd_classified self)) ([], [], min_points)
              (λ s x, outcome (auto_segment_step self name_by ascending eps_times
                                 img_folder s x)) k Hin) as [e He].
  - done.
  - intros [[so sn] mp] y acc' HP. unfold auto_segment_step.
    destruct (Z.eqb y (-1)); [by intros [= <-] |].
    rewrite outcome_bind.
    destruct (outcome (auto_segment_class _ _ _ _ _ _ _)) as [[segs nm]|e]; [|done].
    simpl. intros [= <-]. exact HP.
  - intros [[so sn] mp] HP. unfold auto_segment_step.
    destruct (Z.eqb_spec k (-1)) as [|_]; [done |].
    unfold P in HP. simpl in HP. rewrite HP, Hclass. by exists ValueError.
  - rewrite He. by exists e.
Qed.

End SegmentationCovers.

(** *** The distinct labels *)

Lemma insert_uniq_elem (x y : Z) (l : list Z) :
  y ∈ np.insert_uniq x l ↔ y = x ∨ y ∈ l.
Proof.
  induction l as [|z l IH]; simpl.
  - rewrite list_elem_of_singleton. split; [by left | intros [?|Hin]; [done | inversion Hin]].
  - destruct (Z.ltb_spec x z); [by rewrite elem_of_cons |].
    destruct (Z.eqb_spec x z) as [->|Hne].
    + rewrite elem_of_cons. tauto.
    + rewrite !elem_of_cons, IH. tauto.
Qed.

Lemma unique_elem (x : Z) (v : list Z) : x ∈ np.unique v ↔ x ∈ v.
Proof.
  unfold np.unique. induction v as [|y v IH]; simpl; [done |].
  rewrite insert_uniq_elem, elem_of_cons, IH. done.
Qed.

Lemma increasing_lower_bound (a : Z) (l : list Z) :
  increasing (a :: l) → ∀ y, y ∈ l → (a < y)%Z.
Proof.
  revert a. induction l as [|b l IH]; intros a Hinc y Hy; [inversion Hy |].
  destruct Hinc as [Hab Hinc]. apply elem_of_cons in Hy as [->|Hy]; [done |].
  specialize (IH b Hinc y Hy). lia.
Qed.

Lemma increasing_NoDup (l : list Z) : increasing l → NoDup l.
Proof.
  induction l as [|a l IH]; intros Hinc; constructor.
  - intros Hin. pose proof (increasing_lower_bound a l Hinc a Hin). lia.
  - apply IH. destruct l; [done | by destruct Hinc].
Qed.

Lemma insert_uniq_increasing (x : Z) (l : list Z) :
  increasing l → increasing (np.insert_uniq x l).
Proof.
  induction l as [|a l IH]; intros Hinc; [done |].
  simpl. destruct (Z.ltb_spec x a); [by split |].
  destruct (Z.eqb_spec x a) as [->|Hne]; [done |].
  assert (Htail : increasing l) by (destruct l; [done | by destruct Hinc]).
  specialize (IH Htail).
  assert (Hlb : ∀ y, y ∈ np.insert_uniq x l → (a < y)%Z).
  { intros y [->|Hy]%insert_uniq_elem; [lia |]. by eapply increasing_lower_bound. }
  destruct (np.insert_uniq x l) as [|b l'] eqn:Hins; [done |].
  split; [apply Hlb; left | exact IH].
Qed.

Lemma unique_increasing (v : list Z) : increasing (np.unique v).
Proof.
  unfold np.unique. induction v as [|x v IH]; simpl; [done |].
  by apply insert_uniq_increasing.
Qed.

Lemma select_down_sample_elem (c : PointCloud) (ind : list nat) (i : nat) (p : Point) :
  i ∈ ind → c !! i = Some p → p ∈ select_down_sample c ind.
Proof.
  intros Hi Hp. unfold select_down_sample. apply list_elem_of_omap. by exists i.
Qed.

Section ClusterInstances.
Context `{Sklearn, Open3d, Helpers, SetOrder}.

(** X10.  Whenever the loop body of [auto_segmentation] returns for a
    class, every instance is the set of points of one DBSCAN label of the
    cleaned cloud of the class, no label gives two instances (the noise
    label of DBSCAN is a label like the others), and, DBSCAN giving one
    label per point, no instance is empty. *)
Theorem auto_segment_class_instances_are_clusters self k name_by ascending eps_times
    min_points img_folder segs names :
  outcome (auto_segment_class self k name_by ascending eps_times min_points img_folder)
  = OK (segs, names) →
  ∃ cleaned_k labels,
    dict_lookup (pcd_cleaned self) k = Some cleaned_k ∧
    let vect := cluster_dbscan cleaned_k (voxel_size self * eps_times) min_points in
    NoDup labels ∧ (∀ l, l ∈ labels → l ∈ vect) ∧
    segs = map (λ l, select_down_sample cleaned_k (np.where_eq vect l)) labels ∧
    (length vect = length cleaned_k → Forall (λ seg, seg ≠ []) segs).
Proof.
  intros Hout.
  destruct (auto_segment_class_OK_inv _ _ _ _ _ _ _ _ Hout)
    as (cleaned_k & key & Hk & Hkey & Hn & Hpcd).
  destruct (auto_segment_class_run self k name_by ascending eps_times min_points
              img_folder cleaned_k key Hk Hkey Hn Hpcd) as (temp_df & Hsort & Hdf & Hrun).
  rewrite Hrun in Hout. simpl in Hout. injection Hout as <- _.
  destruct (sort_values_ordered _ _ _ _ _ Hkey Hsort) as [Hperm _].
  set (vect := cluster_dbscan cleaned_k (voxel_size self * eps_times) min_points) in *.
  rewrite segment_clusters_run in *. simpl in *.
  set (F := λ l, select_down_sample cleaned_k (np.where_eq vect l)) in *.
  set (u := np.unique vect) in *.
  set (chars := map _ u) in Hperm.
  rewrite List.length_map in Hdf.
  exists cleaned_k, (map (λ r, nth (seg_id r) u 0%Z) temp_df).
  split; [done |]. split_and!.
  - assert (Hids : NoDup (map seg_id temp_df)).
    { change (map seg_id temp_df) with (seg_id <$> temp_df). rewrite Hperm.
      change (seg_id <$> map ?f ?l) with (map seg_id (map f l)).
      rewrite map_map. simpl. rewrite map_id. unfold plant_group.
      destruct (fgt _ _); apply where_eq_from_NoDup. }
    rewrite <- (map_map seg_id (λ i, nth i u 0%Z)).
    change (map ?f (map seg_id temp_df)) with (f <$> map seg_id temp_df).
    apply NoDup_fmap_2_strong; [|done].
    intros i j Hi%list_elem_of_In Hj%list_elem_of_In Heq.
    apply in_map_iff in Hi as (ri & <- & Hri%list_elem_of_In).
    apply in_map_iff in Hj as (rj & <- & Hrj%list_elem_of_In).
    pose proof (increasing_NoDup u (unique_increasing vect)) as Hu.
    apply NoDup_ListNoDup in Hu.
    eapply (proj1 (List.NoDup_nth u 0%Z) Hu); [| | exact Heq].
    + by eapply (proj1 (Forall_forall _ _) Hdf).
    + by eapply (proj1 (Forall_forall _ _) Hdf).
  - intros l Hl%list_elem_of_In. apply in_map_iff in Hl as (r & <- & Hr%list_elem_of_In).
    apply unique_elem. fold u. apply list_elem_of_In, nth_In.
    by eapply (proj1 (Forall_forall _ _) Hdf).
  - rewrite map_map. apply map_ext_in. intros r Hr%list_elem_of_In.
    rewrite (nth_indep _ [] (F 0%Z)) by
      (rewrite List.length_map; by eapply (proj1 (Forall_forall _ _) Hdf)).
    apply map_nth.
  - intros Hlen. rewrite Forall_forall. intros seg Hseg%list_elem_of_In.
    apply in_map_iff in Hseg as (r & <- & Hr%list_elem_of_In).
    pose proof (proj1 (Forall_forall _ _) Hdf r Hr) as Hlt. simpl in Hlt.
    rewrite (nth_indep _ [] (F 0%Z)) by (by rewrite List.length_map).
    rewrite map_nth.
    assert (Hin : nth (seg_id r) u 0%Z ∈ vect).
    { apply unique_elem. fold u. by apply list_elem_of_In, nth_In. }
    apply list_elem_of_lookup_1 in Hin as [n Hn'].
    assert (Hnlt : n < length cleaned_k).
    { rewrite <- Hlen. by eapply lookup_lt_Some. }
    destruct (lookup_lt_is_Some_2 cleaned_k n Hnlt) as [p Hp].
    intros Hempty.
    assert (Hp' : p ∈ F (nth (seg_id r) u 0%Z)).
    { unfold F. eapply select_down_sample_elem; [|exact Hp]. by apply where_eq_elem. }
    rewrite Hempty in Hp'. inversion Hp'.
Qed.

End ClusterInstances.

(** *** Segmenting again, and the table *)

Section TraitsCovers.
Context `{Sklearn, Open3d, Helpers, SetOrder}.

(** X11.  A segmentation replaces the one before it and does not depend on
    it: on a plot that either segmentation has returned, [auto_segmentation]
    and [shp_segmentation] do and return exactly what they do and return
    on the plot as it was before. *)
Theorem segmentation_starts_afresh self self' name_by0 ascending0 (eps_times0 : Q)
    (min_points0 : option Z) (img_folder0 : string) shp_seg0
    name_by ascending (eps_times : Q) (min_points : option Z) (img_folder : string) shp_seg :
  outcome (auto_segmentation self name_by0 ascending0 eps_times0 min_points0 img_folder0)
  = OK self'
  ∨ outcome (shp_segmentation self shp_seg0) = OK self' →
  auto_segmentation self' name_by ascending eps_times min_points img_folder
  = auto_segmentation self name_by ascending eps_times min_points img_folder ∧
  shp_segmentation self' shp_seg = shp_segmentation self shp_seg.
Proof.
  intros [Hout|Hout].
  - unfold auto_segmentation in Hout.
    apply IO_bind_inv in Hout as ([[seg_out names] mp] & _ & Hout & _).
    simpl in Hout. injection Hout as <-. split; reflexivity.
  - unfold shp_segmentation in Hout.
    apply lift_bind_inv in Hout as Hstep. destruct Hstep as (z_max & _ & Heq).
    rewrite Heq in Hout. clear Heq.
    apply lift_bind_inv in Hout as Hstep. destruct Hstep as (z_min & _ & Heq).
    rewrite Heq in Hout. clear Heq.
    apply IO_bind_inv in Hout as ([seg_out names] & _ & Hout & _).
    simpl in Hout. injection Hout as <-. split; reflexivity.
Qed.

Lemma instance_row_savefig self container_ht ground_ht inst :
  names_parallel self → inst ∈ instances self →
  instance_row self container_ht ground_ht true inst
  = instance_row self container_ht ground_ht false inst.
Proof.
  intros Hnames Hin. destruct inst as [k [i seg]].
  destruct (Hnames k i seg Hin) as (names & name & Hk & Hi).
  unfold instance_row, trait_of_instance. simpl fst. simpl snd.
  destruct (dict_get (pcd_classified self) (-1)) as [ground|e]; [|done].
  rewrite !(lift_OK_bind ground).
  destruct (Plant_init seg i ground container_ht ground_ht) as [plant|e]; [|done].
  rewrite !(lift_OK_bind plant), !outcome_bind.
  destruct (write_ply self); [|done]. simpl andb.
  rewrite (dict_get_lookup _ _ _ Hk), lift_OK_bind. unfold list_get. rewrite Hi.
  by rewrite lift_OK_bind.
Qed.

(** X12.  On a plot that one of the two segmentations has returned, the
    table of [get_traits] does not depend on [savefig]: drawing the figures
    neither changes a row nor makes the call fail, since every instance has
    its name. *)
Theorem get_traits_savefig_same_table self self' name_by ascending (eps_times : Q)
    (min_points : option Z) (img_folder : string) shp_seg container_ht ground_ht :
  outcome (auto_segmentation self name_by ascending eps_times min_points img_folder)
  = OK self'
  ∨ outcome (shp_segmentation self shp_seg) = OK self' →
  outcome (get_traits self' container_ht ground_ht true)
  = outcome (get_traits self' container_ht ground_ht false).
Proof.
  intros Hseg.
  assert (Hnames : names_parallel self').
  { destruct Hseg as [Hout|Hout];
      [by eapply auto_segmentation_names | by eapply shp_segmentation_names]. }
  destruct (segmented self') eqn:Hs.
  - rewrite !get_traits_outcome by done.
    apply for_each_ext. intros rows inst Hin. by rewrite instance_row_savefig.
  - unfold get_traits. by rewrite Hs.
Qed.

Lemma Plant_init_empty_ground seg i container_ht ground_ht :
  Plant_init seg i [] container_ht ground_ht = Raise ValueError.
Proof.
  unfold Plant_init, clip_background.
  destruct (np.max (map px seg)) as [x_max|e] eqn:Hxmax.
  2: { destruct seg; [by injection Hxmax as <- | done]. }
  destruct (np.min (map px seg)) as [x_min|e] eqn:Hxmin.
  2: { destruct seg; [by injection Hxmin as <- | done]. }
  destruct (np.max (map py seg)) as [y_max|e] eqn:Hymax.
  2: { destruct seg; [by injection Hymax as <- | done]. }
  destruct (np.min (map py seg)) as [y_min|e] eqn:Hymin.
  2: { destruct seg; [by injection Hymin as <- | done]. }
  done.
Qed.

Lemma Plant_init_empty_instance i ground container_ht ground_ht :
  Plant_init [] i ground container_ht ground_ht = Raise ValueError.
Proof. reflexivity. Qed.

(** X13.  [get_traits] needs a background class with points, whatever the
    ground height: every plant is built against the cloud of class -1 and
    first clips it.  On a segmented plot with at least one instance the
    call raises KeyError if the classifier had no kind -1 and ValueError if
    no point was classified as background, also with a fixed ground
    height. *)
Theorem get_traits_needs_background self container_ht ground_ht savefig inst rest :
  segmented self = true → instances self = inst :: rest →
  (dict_lookup (pcd_classified self) (-1) = None →
   outcome (get_traits self container_ht ground_ht savefig) = Raise KeyError) ∧
  (dict_lookup (pcd_classified self) (-1) = Some [] →
   outcome (get_traits self container_ht ground_ht savefig) = Raise ValueError).
Proof.
  intros Hseg Hinst. rewrite (get_traits_outcome _ _ _ _ Hseg), Hinst.
  destruct inst as [k [i seg]]. simpl.
  unfold instance_row, trait_of_instance. simpl fst. simpl snd.
  split; intros Hbg; unfold dict_get; rewrite Hbg.
  - done.
  - rewrite lift_OK_bind, Plant_init_empty_ground. done.
Qed.

Lemma get_traits_empty_instance self container_ht ground_ht savefig k i :
  segmented self = true → (k, (i, [])) ∈ instances self →
  ∃ e, outcome (get_traits self container_ht ground_ht savefig) = Raise e.
Proof.
  intros Hseg Hin. rewrite (get_traits_outcome _ _ _ _ Hseg).
  destruct (for_each _ _ _) as [rows|e] eqn:Hloop; [|by exists e].
  destruct (for_each_append_all_OK _ _ _ _ Hloop _ Hin) as [row Hrow].
  unfold instance_row, trait_of_instance in Hrow. simpl fst in Hrow. simpl snd in Hrow.
  destruct (dict_get (pcd_classified self) (-1)) as [ground|e]; [|done].
  by rewrite (lift_OK_bind ground), Plant_init_empty_instance in Hrow.
Qed.

(** X14.  [shp_segmentation] followed by [get_traits]: a polygon that
    holds no cleaned point of some foreground class still gives an (empty)
    instance, and no plant can be built from an empty instance, so
    [get_traits] raises instead of returning a table. *)
Theorem shp_segmentation_empty_polygon_aborts_traits self self' shp_seg k c plot_key poly
    container_ht ground_ht savefig :
  Plot_wf self →
  outcome (shp_segmentation self shp_seg) = OK self' →
  (k, c) ∈ pcd_cleaned self → k ≠ (-1)%Z →
  (plot_key, poly) ∈ shp_seg → List.filter (in_polygon poly) c = [] →
  ∃ e, outcome (get_traits self' container_ht ground_ht savefig) = Raise e.
Proof.
  intros (Hnd & Hkeys & _ & Hsub) Hout Hc Hk Hpoly Hempty.
  rewrite <- Hkeys in Hnd.
  assert (Hpcd : pcd self ≠ []).
  { intros Hnil. unfold shp_segmentation in Hout. by rewrite Hnil in Hout. }
  destruct (shp_segmentation_run self shp_seg Hpcd Hnd Hsub)
    as (self'' & Hrun & Hseg & _ & _ & _ & _ & _ & Hso & _).
  rewrite Hrun in Hout. simpl in Hout. injection Hout as <-.
  apply list_elem_of_lookup_1 in Hpoly as [i Hi].
  eapply (get_traits_empty_instance _ _ _ _ k i Hseg).
  unfold instances. rewrite Hso. apply list_elem_of_In, in_flat_map.
  exists (k, crops (class_cloud (pcd_cleaned self) k) shp_seg). split.
  - apply in_map_iff. exists k. split; [done |].
    unfold foreground. apply filter_In. split.
    + apply list_elem_of_In. unfold keys. apply list_elem_of_In, in_map_iff.
      by exists (k, c); split; [|apply list_elem_of_In].
    + by destruct (Z.eqb_spec k (-1)).
  - simpl. apply in_map_iff. exists (i, []). split; [done |].
    apply list_elem_of_In.
    apply (elem_of_lookup_imap_2 (λ i seg, (i, seg))).
    unfold crops. change (map ?f shp_seg) with (f <$> shp_seg).
    rewrite list_lookup_fmap, Hi. simpl.
    unfold class_cloud. rewrite (dict_lookup_NoDup _ _ _ Hnd Hc). simpl. by rewrite Hempty.
Qed.

End TraitsCovers.

(** *** The projected leaf area *)

Lemma unique_all_equal (v : list Z) :
  (∀ a b, a ∈ v → b ∈ v → a = b) →
  np.unique v = match v with [] => [] | x :: _ => [x] end.
Proof.
  induction v as [|x v IH]; intros Heq; [done |].
  unfold np.unique in *. simpl. rewrite IH.
  - destruct v as [|y v]; [done |].
    assert (y = x) as -> by (apply Heq; [right; left | left]).
    simpl. by rewrite Z.ltb_irrefl, Z.eqb_refl.
  - intros a b Ha Hb. apply Heq; by right.
Qed.

Lemma unique_binary_shape (v : list Z) :
  Forall (λ x, x = 0%Z ∨ x = 1%Z) v →
  np.unique v = [] ∨ np.unique v = [0%Z] ∨ np.unique v = [1%Z] ∨ np.unique v = [0%Z; 1%Z].
Proof.
  unfold np.unique. induction 1 as [|x v Hx _ IH]; [by left |].
  simpl. destruct Hx as [-> | ->], IH as [-> | [-> | [-> | ->]]]; simpl; tauto.
Qed.

Lemma unique_binary (v : list Z) :
  Forall (λ x, x = 0%Z ∨ x = 1%Z) v → (0%Z) ∈ v → (1%Z) ∈ v → np.unique v = [0%Z; 1%Z].
Proof.
  intros Hbin H0%unique_elem H1%unique_elem.
  destruct (unique_binary_shape v Hbin) as [Hu | [Hu | [Hu | Hu]]]; rewrite Hu in *.
  - inversion H0.
  - apply list_elem_of_singleton in H1. discriminate.
  - apply list_elem_of_singleton in H0. discriminate.
  - done.
Qed.

(** X15.  [Plant.get_projected_leaf_area] takes the count of the second
    distinct pixel value.  On an image of zeros and ones that has both, the
    area is the number of ones times the area of a pixel; on an image whose
    pixels are all the same (all background, but also all foreground) or
    that has no pixel there is no second value and the call raises
    IndexError. *)
Theorem get_projected_leaf_area_counts_ones (binary : image) (px_num_per_cm : Q) :
  ((∀ a b, a ∈ concat binary → b ∈ concat binary → a = b) →
   get_projected_leaf_area binary px_num_per_cm = Raise IndexError) ∧
  (¬ (px_num_per_cm == 0)%Q →
   Forall (λ x, x = 0%Z ∨ x = 1%Z) (concat binary) →
   (0%Z) ∈ concat binary → (1%Z) ∈ concat binary →
   get_projected_leaf_area binary px_num_per_cm
   = OK (inject_Z (Z.of_nat (length (List.filter (Z.eqb 1) (concat binary))))
         * (1 / px_num_per_cm * (1 / px_num_per_cm)))%Q).
Proof.
  unfold get_projected_leaf_area. split.
  - intros Hsame. rewrite (unique_all_equal _ Hsame). by destruct (concat binary).
  - intros _ Hbin H0 H1. by rewrite (unique_binary _ Hbin H0 H1).
Qed.

(** *** The percentile height *)

Lemma fgt_Fin (x y : Q) : fgt (Fin x) (Fin y) = true ↔ (y < x)%Q.
Proof.
  simpl. rewrite negb_true_iff. split.
  - intros Hle. apply Qnot_le_lt. intros Hxy%Qle_bool_iff. congruence.
  - intros Hlt. destruct (Qle_bool x y) eqn:Hle; [|done].
    apply Qle_bool_iff in Hle. lra.
Qed.

Lemma insert_sorted_elem (x y : Q) (l : list Q) :
  y ∈ np.insert_sorted x l ↔ y = x ∨ y ∈ l.
Proof.
  induction l as [|z l IH]; simpl.
  - rewrite list_elem_of_singleton. split; [by left | intros [?|Hin]; [done | inversion Hin]].
  - destruct (Qle_bool x z); [by rewrite elem_of_cons |].
    rewrite !elem_of_cons, IH. tauto.
Qed.

Lemma sort_elem (x : Q) (l : list Q) : x ∈ np.sort l ↔ x ∈ l.
Proof.
  unfold np.sort. induction l as [|y l IH]; simpl; [done |].
  rewrite insert_sorted_elem, elem_of_cons, IH. done.
Qed.

Lemma percentile_90_all_equal (a : Q) (l : list Q) :
  l ≠ [] → (∀ x, x ∈ l → (x == a)%Q) →
  ∃ t, np.percentile l 90 = OK (Fin t) ∧ (t == a)%Q.
Proof.
  intros Hne Hall. unfold np.percentile.
  assert (Hnth : ∀ i, i < length (np.sort l) → (nth i (np.sort l) 0 == a)%Q).
  { intros i Hi. apply Hall, sort_elem, list_elem_of_In, nth_In, Hi. }
  destruct (length (np.sort l)) as [|n] eqn:Hlen.
  { rewrite sort_length in Hlen. by destruct l. }
  eexists. split; [reflexivity |].
  replace (S n - 1) with n by lia.
  set (idx := (90 / 100 * inject_Z (Z.of_nat n))%Q).
  assert (Hbelow : Z.to_nat (Qfloor idx) ≤ n).
  { assert (Hidx : (idx <= inject_Z (Z.of_nat n))%Q).
    { assert (Hn : (0 <= inject_Z (Z.of_nat n))%Q).
      { change 0%Q with (inject_Z 0). rewrite <- Zle_Qle. lia. }
      unfold idx. setoid_replace (90 / 100)%Q with (9 # 10)%Q using relation Qeq by reflexivity.
      lra. }
    apply Qfloor_resp_le in Hidx. rewrite Qfloor_Z in Hidx. lia. }
  rewrite !Hnth by lia. ring.
Qed.

(** X17.  When all the points of the plant above the base have the same
    height (a single point above the base, for one), none of them is above
    their 90th percentile: the top is the mean of nothing and
    [Plant.get_percentile_height] returns NaN, without raising. *)
Theorem get_percentile_height_flat_top z ground container_ht ground_ht (ele a : Q) :
  match ground_ht with
  | auto => ground_elevation z ground = OK (Fin ele)
  | fixed v => v = ele
  end →
  (∃ x, x ∈ z ∧ (ele + container_ht < x)%Q) →
  (∀ x, x ∈ z → (ele + container_ht < x)%Q → (x == a)%Q) →
  get_percentile_height z ground container_ht ground_ht = OK NaN.
Proof.
  intros Hele (x0 & Hx0 & Hlt0) Hflat. unfold get_percentile_height.
  assert (Hele' : match ground_ht with
                  | auto => ground_elevation z ground
                  | fixed v => OK (Fin v)
                  end = OK (Fin ele)).
  { destruct ground_ht; [done | by subst]. }
  rewrite Hele'. simpl fadd. unfold mbind at 1, result_bind at 1.
  set (ele_z := np.select _ z).
  assert (Hin : ∀ x, x ∈ ele_z ↔ x ∈ z ∧ (ele + container_ht < x)%Q).
  { intros x. unfold ele_z, np.select.
    rewrite !list_elem_of_In, filter_In. cbv beta. simpl fadd. rewrite fgt_Fin. done. }
  destruct (percentile_90_all_equal a ele_z) as (t & Ht & Hta).
  { intros Hnil. assert (Hx : x0 ∈ ele_z) by (by apply Hin). rewrite Hnil in Hx. inversion Hx. }
  { intros x [Hx Hlt]%Hin. by apply Hflat. }
  rewrite Ht. unfold mbind, result_bind, mret, result_ret. do 2 f_equal.
  assert (Hnone : np.select (λ v, fgt (Fin v) (Fin t)) ele_z = []).
  { unfold np.select.
    assert (Hgen : ∀ l : list Q, (∀ x, x ∈ l → (x == a)%Q) →
                     List.filter (λ v, fgt (Fin v) (Fin t)) l = []).
    { induction l as [|x l IH]; intros Hl; [done |].
      assert (Hx : fgt (Fin x) (Fin t) = false).
      { destruct (fgt (Fin x) (Fin t)) eqn:Hgt; [|done].
        apply fgt_Fin in Hgt. assert (x == a)%Q by (apply Hl; left). lra. }
      cbn [List.filter]. rewrite Hx. apply IH. intros y Hy. apply Hl. by right. }
    apply Hgen. intros x [Hx Hlt]%Hin. by apply Hflat. }
  rewrite Hnone. reflexivity.
Qed.

(** *** Plant_New *)

Lemma get_percentile_height_no_points ground container_ht ground_ht :
  get_percentile_height [] ground container_ht ground_ht = Raise IndexError.
Proof. by destruct ground_ht. Qed.

Lemma get_percentile_height_auto_no_ground z container_ht :
  ∃ e, get_percentile_height z [] container_ht auto = Raise e.
Proof.
  unfold get_percentile_height, ground_elevation.
  destruct (np.percentile z 5) as [p5|e]; [|by exists e]. by exists ValueError.
Qed.

Section Plant_NewCovers.
Context `{Sklearn, Helpers}.

Lemma Plant_New_init_height pcd_input clf container_ht ground_ht pred plant :
  predict clf (colors pcd_input) = OK pred →
  Plant_New_init pcd_input clf container_ht ground_ht = OK plant →
  get_percentile_height
    (points_z (select_down_sample pcd_input (np.where_eq pred 0)))
    (points_z (select_down_sample pcd_input (np.where_eq pred (-1))))
    container_ht ground_ht
  = OK (new_pctl_ht plant).
Proof.
  intros Hpred Hinit. unfold Plant_New_init in Hinit. rewrite Hpred in Hinit.
  unfold mbind at 1, result_bind at 1 in Hinit.
  apply bind_OK in Hinit as ([hull area] & _ & Hinit).
  apply bind_OK in Hinit as (rect & _ & Hinit).
  apply bind_OK in Hinit as ([[binary px_num] corner] & _ & Hinit).
  apply bind_OK in Hinit as ([[[[cx cy] major] minor] angle] & _ & Hinit).
  apply bind_OK in Hinit as (leaf_area & _ & Hinit).
  apply bind_OK in Hinit as (ht & Hht & Hinit).
  injection Hinit as <-. exact Hht.
Qed.

(** X18.  [Plant_New] takes the points predicted 0 as the plant and the
    points predicted -1 as the ground, and nothing else.  It cannot be
    built when no point is predicted 0, and with the ['auto'] ground height
    it cannot be built when no point is predicted -1: the constructor
    raises. *)
Theorem Plant_New_needs_both_classes pcd_input clf container_ht ground_ht pred :
  predict clf (colors pcd_input) = OK pred →
  (0%Z ∉ pred) ∨ (((-1)%Z ∉ pred) ∧ ground_ht = auto) →
  ∃ e, Plant_New_init pcd_input clf container_ht ground_ht = Raise e.
Proof.
  intros Hpred Hmiss.
  destruct (Plant_New_init pcd_input clf container_ht ground_ht) as [plant|e] eqn:Hinit;
    [|by exists e].
  pose proof (Plant_New_init_height _ _ _ _ _ _ Hpred Hinit) as Hht.
  destruct Hmiss as [Hfg | [Hbg ->]].
  - rewrite (where_eq_nil _ _ Hfg) in Hht.
    by rewrite get_percentile_height_no_points in Hht.
  - rewrite (where_eq_nil _ _ Hbg) in Hht.
    destruct (get_percentile_height_auto_no_ground
                (points_z (select_down_sample pcd_input (np.where_eq pred 0))) container_ht)
      as [e He].
    simpl select_down_sample in Hht. simpl points_z in Hht at 2. congruence.
Qed.

End Plant_NewCovers.

(** *** The classes of a segmented plot *)

Section SegmentedClasses.
Context `{Sklearn, Open3d, Helpers, SetOrder}.

Lemma auto_segment_step_keys self name_by ascending (eps_times : Q) (img_folder : string)
    so sn mp k (acc' : dict (list PointCloud) * dict (list string) * option Z) :
  outcome (auto_segment_step self name_by ascending eps_times img_folder (so, sn, mp) k)
  = OK acc' →
  if Z.eqb k (-1) then acc' = (so, sn, mp)
  else ∃ segs nm mp', acc' = (dict_set so k segs, dict_set sn k nm, mp').
Proof.
  unfold auto_segment_step. destruct (Z.eqb k (-1)); [by intros [= <-] |].
  rewrite outcome_bind.
  destruct (outcome (auto_segment_class _ _ _ _ _ _ _)) as [[segs nm]|e]; [|done].
  simpl. intros [= <-]. eauto.
Qed.

Lemma auto_segment_loop_keys self name_by ascending (eps_times : Q) (img_folder : string)
    ks (acc acc' : dict (list PointCloud) * dict (list string) * option Z) :
  NoDup (keys acc.1.1 ++ foreground ks) → NoDup (keys acc.1.2 ++ foreground ks) →
  for_each ks acc
    (λ s k, outcome (auto_segment_step self name_by ascending eps_times img_folder s k))
  = OK acc' →
  keys acc'.1.1 = keys acc.1.1 ++ foreground ks ∧
  keys acc'.1.2 = keys acc.1.2 ++ foreground ks.
Proof.
  revert acc. induction ks as [|k ks IH]; intros [[so sn] mp] Hso Hsn Hloop.
  - injection Hloop as <-. simpl. by rewrite !app_nil_r.
  - change (for_each (k :: ks) ?a ?b) with (b a k ≫= λ s', for_each ks s' b) in Hloop.
    apply bind_OK in Hloop as (s' & Hstep & Hloop). cbv beta in Hstep.
    apply auto_segment_step_keys in Hstep.
    unfold foreground in *. cbn [List.filter] in Hso, Hsn |- *.
    destruct (Z.eqb k (-1)); cbn [negb] in Hso, Hsn |- *.
    { subst s'. by apply (IH _ Hso Hsn). }
    destruct Hstep as (segs & nm & mp' & ->). cbn [fst snd] in Hso, Hsn |- *.
    assert (Hk1 : k ∉ keys so).
    { apply NoDup_app in Hso as (_ & Hdis & _). intros Hin. apply (Hdis k Hin). left. }
    assert (Hk2 : k ∉ keys sn).
    { apply NoDup_app in Hsn as (_ & Hdis & _). intros Hin. apply (Hdis k Hin). left. }
    apply IH in Hloop; cbn [fst snd] in *.
    + rewrite !keys_dict_set, !decide_False in Hloop by done.
      by rewrite <- !app_assoc in Hloop.
    + rewrite keys_dict_set, decide_False by done. by rewrite <- app_assoc.
    + rewrite keys_dict_set, decide_False by done. by rewrite <- app_assoc.
Qed.

(** X19.  When [auto_segmentation] returns, the plot is segmented, its
    clouds are the ones it had, and its two dictionaries of instances and of
    names have one entry for every class of the plot but the background, in
    the order of the classes: the background is never segmented, and a
    class without surviving cluster still has its (empty) entry. *)
Theorem auto_segmentation_classes self name_by ascending (eps_times : Q)
    (min_points : option Z) (img_folder : string) self' :
  NoDup (keys (pcd_classified self)) →
  outcome (auto_segmentation self name_by ascending eps_times min_points img_folder)
  = OK self' →
  segmented self' = true ∧
  pcd self' = pcd self ∧ pcd_classified self' = pcd_classified self ∧
  pcd_cleaned self' = pcd_cleaned self ∧
  keys (pcd_segmented self') = foreground (keys (pcd_classified self)) ∧
  keys (pcd_segmented_name self') = foreground (keys (pcd_classified self)).
Proof.
  intros Hnd Hout. unfold auto_segmentation in Hout.
  apply IO_bind_inv in Hout as ([[seg_out names] mp] & Hloop & Hout & _).
  simpl in Hout. injection Hout as <-. simpl.
  rewrite outcome_for_each in Hloop.
  apply auto_segment_loop_keys in Hloop as [Hso Hsn]; simpl;
    try (by apply NoDup_filter_bool).
  split_and!; done.
Qed.

End SegmentedClasses.

(** *** Reading a ply file *)

Lemma vstack_T_rows (rows : list (string → Q)) (r g b : string) :
  vstack_T (map (λ row, row r / 255)%Q rows) (map (λ row, row g / 255)%Q rows)
           (map (λ row, row b / 255)%Q rows)
  = map (λ row, (row r / 255, row g / 255, row b / 255)%Q) rows.
Proof.
  unfold vstack_T. induction rows as [|row rows IH]; simpl; [done |]. by rewrite IH.
Qed.

(** X20.  [read_ply] never touches the points.  When open3d found no
    colours and the first element of the file has the fields red, green and
    blue, the cloud gets one colour per row, the three fields divided by
    255, and red is tried before diffuse_red; with one row per point the
    cloud then has colours, and with fields between 0 and 255 every
    component of a colour lies between 0 and 1.  When neither red nor
    diffuse_red is a field, the cloud comes back without colours instead of
    an exception. *)
Theorem read_ply_colors (f : ply_content) :
  let pcd := {| cloud_points := o3d_points f; cloud_colors := o3d_colors f |} in
  (∀ cloud, read_ply f = OK cloud → cloud_points cloud = o3d_points f) ∧
  (has_colors pcd = true → read_ply f = OK pcd) ∧
  (has_colors pcd = false →
   "red" ∈ dtype_names f → "green" ∈ dtype_names f → "blue" ∈ dtype_names f →
   ∃ cloud,
     read_ply f = OK cloud ∧
     cloud_colors cloud
     = map (λ row, (row "red" / 255, row "green" / 255, row "blue" / 255)%Q) (cloud_data f) ∧
     (o3d_points f ≠ [] → length (cloud_data f) = length (o3d_points f) →
      has_colors cloud = true) ∧
     (Forall (λ row, ∀ name, name ∈ ["red"; "green"; "blue"] →
                             (0 <= row name)%Q ∧ (row name <= 255)%Q) (cloud_data f) →
      Forall (λ c : Color, ((0 <= c.1.1)%Q ∧ (c.1.1 <= 1)%Q)
                           ∧ ((0 <= c.1.2)%Q ∧ (c.1.2 <= 1)%Q)
                           ∧ ((0 <= c.2)%Q ∧ (c.2 <= 1)%Q))
             (cloud_colors cloud))) ∧
  (has_colors pcd = false → "red" ∉ dtype_names f → "diffuse_red" ∉ dtype_names f →
   read_ply f = OK pcd).
Proof.
  intros pcd. split_and!.
  - intros cloud. unfold read_ply. fold pcd.
    destruct (has_colors pcd); simpl; [by intros [= <-] |].
    repeat case_bool_decide; unfold field_over_255; repeat case_bool_decide; simpl;
      try done; by intros [= <-].
  - intros Hcol. unfold read_ply. fold pcd. by rewrite Hcol.
  - intros Hcol Hr Hg Hb. unfold read_ply, field_over_255. fold pcd. rewrite Hcol. simpl.
    rewrite !bool_decide_eq_true_2 by done. simpl.
    eexists. split; [reflexivity |]. simpl. split; [apply vstack_T_rows |]. split.
    + intros Hne Hlen. unfold has_colors. simpl.
      rewrite vstack_T_rows, List.length_map, Hlen, Nat.eqb_refl.
      destruct (o3d_points f); [done | reflexivity].
    + intros Hbytes. rewrite vstack_T_rows.
      assert (Hunit : ∀ v : Q, (0 <= v)%Q ∧ (v <= 255)%Q →
                               (0 <= v / 255)%Q ∧ (v / 255 <= 1)%Q).
      { intros v [Hlo Hhi]. split.
        - apply Qle_shift_div_l; [reflexivity | lra].
        - apply Qle_shift_div_r; [reflexivity | lra]. }
      induction Hbytes as [|row rows Hrow _ IH]; simpl; constructor; [|exact IH].
      simpl. split_and!; apply Hunit, Hrow; first [by left | right; by left | right; right; by left].
  - intros Hcol Hr Hd. unfold read_ply. fold pcd. rewrite Hcol. simpl.
    by rewrite !bool_decide_eq_false_2.
Qed.

(** *** The Metashape script *)

Lemma has_dot_append (stem ext : string) :
  creation.has_dot (stem +:+ "." +:+ ext) = true.
Proof. induction stem as [|c stem IH]; simpl; [done |]. by destruct (Ascii.eqb c _). Qed.

Lemma rsplit_last_append (stem ext : string) :
  creation.has_dot ext = false → creation.rsplit_last (stem +:+ "." +:+ ext) = ext.
Proof.
  intros Hext. induction stem as [|c stem IH]; simpl.
  - change (String.append String.EmptyString ext) with ext. by rewrite Hext.
  - by rewrite has_dot_append.
Qed.

(** X21.  In the scan of a photo folder an entry is put on the photo list
    exactly when it has a dot and the text after its last dot is jpg, jpeg
    or png in any mix of upper and lower case; an entry without a dot is
    put on the list of nested folders, whatever it is.  Both lists keep the
    order of the listing and hold the entry behind the path of the folder. *)
Theorem look_for_photos_by_extension (path_photos : string) (file_list : list string) :
  let is_photo name :=
    creation.has_dot name
    && bool_decide (creation.lower (creation.rsplit_last name) ∈ ["jpg"; "jpeg"; "png"]) in
  (creation.look_for_photos path_photos file_list).1.1
  = map (λ name, path_photos +:+ "/" +:+ name) (List.filter is_photo file_list) ∧
  (creation.look_for_photos path_photos file_list).1.2
  = map (λ name, path_photos +:+ "/" +:+ name)
        (List.filter (λ name, negb (creation.has_dot name)) file_list) ∧
  ∀ stem ext,
    creation.has_dot ext = false →
    is_photo (stem +:+ "." +:+ ext)
    = bool_decide (creation.lower ext ∈ ["jpg"; "jpeg"; "png"]).
Proof.
  intros is_photo.
  assert (Hloop : ∀ acc : list string * list string * bool,
    (foldl (creation.look_for_photos_step path_photos) acc file_list).1.1
    = acc.1.1 ++ map (λ name, path_photos +:+ "/" +:+ name)
                     (List.filter is_photo file_list) ∧
    (foldl (creation.look_for_photos_step path_photos) acc file_list).1.2
    = acc.1.2 ++ map (λ name, path_photos +:+ "/" +:+ name)
                     (List.filter (λ name, negb (creation.has_dot name)) file_list)).
  { induction file_list as [|item file_list IH]; intros [[photos nests] nested].
    - simpl. by rewrite !app_nil_r.
    - cbn [foldl List.filter]. unfold creation.look_for_photos_step at 2 4.
      unfold is_photo at 1.
      destruct (creation.has_dot item) eqn:Hdot; cbn [negb andb].
      + unfold creation.append_by_type.
        destruct (bool_decide _).
        * destruct (IH (photos ++ [path_photos +:+ "/" +:+ item], nests, nested)) as [-> ->].
          simpl. by rewrite <- app_assoc.
        * apply IH.
      + destruct (IH (photos, nests ++ [path_photos +:+ "/" +:+ item], true)) as [-> ->].
        simpl. by rewrite <- app_assoc. }
  split_and!.
  - apply (Hloop ([], [], false)).
  - apply (Hloop ([], [], false)).
  - intros stem ext Hext. unfold is_photo.
    by rewrite has_dot_append, rsplit_last_append.
Qed.

Lemma fill_folder_loop (path_folders : string) (pre rest : list string)
    (acc : list string) (n : nat) :
  foldl (creation.fill_folder_step path_folders (pre ++ rest)) (acc, n)
        (seq (length pre) (length rest))
  = (acc ++ map (λ f, (path_folders +:+ f) +:+ "/" +:+ f)
                (List.filter (λ f, negb (String.eqb f "skip")) rest),
     n - length (List.filter (λ f, String.eqb f "skip") rest)).
Proof.
  revert pre acc n. induction rest as [|f rest IH]; intros pre acc n.
  - simpl. by rewrite app_nil_r, Nat.sub_0_r.
  - cbn [length seq foldl List.filter]. unfold creation.fill_folder_step at 2.
    rewrite list_lookup_middle by done.
    replace (pre ++ f :: rest) with ((pre ++ [f]) ++ rest) by (by rewrite <- app_assoc).
    replace (S (length pre)) with (length (pre ++ [f])) by (rewrite length_app; simpl; lia).
    destruct (String.eqb f "skip"); cbn [negb]; rewrite IH.
    + simpl. f_equal. lia.
    + simpl. by rewrite <- app_assoc.
Qed.

Lemma filter_skip_length (l : list string) :
  length l - length (List.filter (λ f, String.eqb f "skip") l)
  = length (List.filter (λ f, negb (String.eqb f "skip")) l).
Proof.
  induction l as [|f l IH]; [done |]. cbn [List.filter length].
  pose proof (List.filter_length_le (λ f, String.eqb f "skip") l).
  destruct (String.eqb f "skip"); simpl; lia.
Qed.

Lemma image_set_zip (path_folders project_filename : string) (l1 l2 : list string) :
  length l2 ≤ length l1 →
  map (λ j, creation.image_set path_folders project_filename l1 l2 j) (seq 0 (length l2))
  = zip_with (λ this_folder filename,
                OK (path_folders +:+ this_folder, filename +:+ project_filename)) l1 l2.
Proof.
  revert l1. induction l2 as [|k l2 IH]; intros l1 Hlen; [by destruct l1 |].
  destruct l1 as [|a l1]; [simpl in Hlen; lia |].
  cbn [length seq map zip_with]. f_equal.
  rewrite <- seq_shift, map_map. rewrite <- IH by (simpl in Hlen; lia).
  apply map_ext. intros j. reflexivity.
Qed.

(** X22.  The main loop of the script reads the photos of the j-th entry
    of the listing of [path_folders] and saves the project under the name of
    the j-th entry that is not ['skip'], for as many rounds as there are
    such entries.  With ['skip'] listed last, or not at all, every folder is
    saved under its own name.  With other folders listed after ['skip'], the
    folder ['skip'] is read as an image set, every folder after it is saved
    under the name of the next one, and the last folder is not read. *)
Theorem image_sets_pairing (path_folders project_filename : string)
    (folder_list : list string) :
  let save f := ((path_folders +:+ f) +:+ "/" +:+ f) +:+ project_filename in
  let kept := List.filter (λ f, negb (String.eqb f "skip")) folder_list in
  creation.image_sets path_folders project_filename folder_list
  = zip_with (λ this_folder f, OK (path_folders +:+ this_folder, save f)) folder_list kept ∧
  (∀ good m,
     folder_list = good ++ replicate m "skip" → "skip" ∉ good →
     creation.image_sets path_folders project_filename folder_list
     = map (λ f, OK (path_folders +:+ f, save f)) good) ∧
  (∀ pre post,
     folder_list = pre ++ "skip" :: post → "skip" ∉ pre → "skip" ∉ post →
     creation.image_sets path_folders project_filename folder_list
     = map (λ f, OK (path_folders +:+ f, save f)) pre
       ++ zip_with (λ this_folder f, OK (path_folders +:+ this_folder, save f))
                   ("skip" :: post) post).
Proof.
  intros save kept.
  assert (Hclosed : creation.image_sets path_folders project_filename folder_list
    = zip_with (λ this_folder f, OK (path_folders +:+ this_folder, save f))
               folder_list kept).
  { unfold creation.image_sets, creation.fill_folder_list.
    pose proof (fill_folder_loop path_folders [] folder_list [] (length folder_list))
      as Hloop.
    cbn [app length] in Hloop. rewrite Hloop. clear Hloop.
    rewrite filter_skip_length. fold kept. simpl.
    rewrite <- (List.length_map (λ f, (path_folders +:+ f) +:+ "/" +:+ f) kept).
    rewrite image_set_zip.
    - generalize folder_list. clear. induction kept as [|k kept IH]; intros [|a l]; simpl;
        try done. by rewrite IH.
    - rewrite List.length_map. apply List.filter_length_le. }
  assert (Hkeep : ∀ l : list string, "skip" ∉ l →
            List.filter (λ f, negb (String.eqb f "skip")) l = l).
  { induction l as [|f l IH]; intros Hl; [done |]. cbn [List.filter].
    destruct (String.eqb_spec f "skip") as [->|_].
    - exfalso. apply Hl. left.
    - simpl. f_equal. apply IH. intros Hin. apply Hl. by right. }
  assert (Hdiag : ∀ l : list string,
            zip_with (λ this_folder f, OK (path_folders +:+ this_folder, save f)) l l
            = map (λ f, OK (path_folders +:+ f, save f)) l).
  { induction l as [|f l IH]; simpl; [done | by rewrite IH]. }
  split_and!; [exact Hclosed | |].
  - intros good m -> Hgood. rewrite Hclosed. unfold kept.
    rewrite List.filter_app, (Hkeep good Hgood).
    assert (Hnone : List.filter (λ f, negb (String.eqb f "skip")) (replicate m "skip") = []).
    { clear. induction m as [|m IH]; [done | exact IH]. }
    rewrite Hnone, app_nil_r.
    rewrite zip_with_app_l, take_ge, drop_ge by done.
    by rewrite zip_with_nil_r, app_nil_r, Hdiag.
  - intros pre post -> Hpre Hpost. rewrite Hclosed. unfold kept.
    rewrite List.filter_app. cbn [List.filter]. simpl negb. cbv iota.
    rewrite (Hkeep pre Hpre), (Hkeep post Hpost).
    rewrite zip_with_app by done. by rewrite Hdiag.
Qed.

Lemma fabs_nonneg (x : Q) : (0 <= creation.fabs x)%Q.
Proof.
  unfold creation.fabs. destruct (Qle_bool 0 x) eqn:Hx.
  - by apply Qle_bool_iff.
  - assert (¬ (0 <= x)%Q) by (intros Hle%Qle_bool_iff; congruence). lra.
Qed.

Lemma find_markers_none (p0 p1 : string) (markers : list creation.marker)
    (state : nat * nat * bool * bool * nat) :
  Forall (λ m, creation.label m ≠ p0 ∧ creation.label m ≠ p1) markers →
  (foldl (creation.find_markers_step p0 p1) state markers).1 = state.1.
Proof.
  intros Hall. revert state.
  induction Hall as [|m markers [Hp0 Hp1] _ IH]; intros [[[[c1 c2] fp0] fp1] c]; [done |].
  cbn [foldl]. unfold creation.find_markers_step at 2.
  apply String.eqb_neq in Hp0, Hp1. rewrite Hp0, Hp1. by rewrite IH.
Qed.

Lemma find_markers_keeps_c1 (p0 p1 : string) (markers : list creation.marker)
    (state : nat * nat * bool * bool * nat) :
  Forall (λ m, creation.label m ≠ p0) markers →
  (foldl (creation.find_markers_step p0 p1) state markers).1.1.1.1 = state.1.1.1.1.
Proof.
  intros Hall. revert state.
  induction Hall as [|m markers Hp0 _ IH]; intros [[[[c1 c2] fp0] fp1] c]; [done |].
  cbn [foldl]. rewrite IH. unfold creation.find_markers_step.
  apply String.eqb_neq in Hp0. rewrite Hp0.
  by destruct (String.eqb (creation.label m) p1).
Qed.

Lemma find_markers_keeps_c2 (p0 p1 : string) (markers : list creation.marker)
    (state : nat * nat * bool * bool * nat) :
  Forall (λ m, creation.label m ≠ p1) markers →
  (foldl (creation.find_markers_step p0 p1) state markers).1.1.1.2 = state.1.1.1.2.
Proof.
  intros Hall. revert state.
  induction Hall as [|m markers Hp1 _ IH]; intros [[[[c1 c2] fp0] fp1] c]; [done |].
  cbn [foldl]. rewrite IH. unfold creation.find_markers_step.
  apply String.eqb_neq in Hp1. rewrite Hp1.
  by destruct (String.eqb (creation.label m) p0).
Qed.

Lemma find_markers_step_count (p0 p1 : string) (state : nat * nat * bool * bool * nat)
    (m : creation.marker) :
  (creation.find_markers_step p0 p1 state m).2 = S state.2.
Proof.
  destruct state as [[[[c1 c2] fp0] fp1] c]. unfold creation.find_markers_step.
  by destruct (String.eqb (creation.label m) p0), (String.eqb (creation.label m) p1).
Qed.

Lemma Forall_later {A} (P : A → Prop) (x : A) (l : list A) (i : nat) :
  (∀ i' y, i < i' → (x :: l) !! i' = Some y → P y) → i = 0 → Forall P l.
Proof.
  intros Hlater ->. apply Forall_forall. intros y [n Hn]%list_elem_of_lookup_1.
  apply (Hlater (S n)); [lia | done].
Qed.

(** The search keeps, for each label, the position of its last marker. *)
Lemma find_markers_last_p0 (p0 p1 : string) (markers : list creation.marker)
    (state : nat * nat * bool * bool * nat) (i : nat) (m : creation.marker) :
  markers !! i = Some m → creation.label m = p0 →
  (∀ i' m', i < i' → markers !! i' = Some m' → creation.label m' ≠ p0) →
  (foldl (creation.find_markers_step p0 p1) state markers).1.1.1.1 = state.2 + i.
Proof.
  revert state i. induction markers as [|m0 markers IH]; intros state i Hi Hm Hlater;
    [done |].
  cbn [foldl]. destruct i as [|i].
  - injection Hi as ->.
    rewrite find_markers_keeps_c1 by (by eapply (Forall_later _ m markers 0)).
    destruct state as [[[[c1 c2] fp0] fp1] c]. unfold creation.find_markers_step.
    rewrite (proj2 (String.eqb_eq _ _) Hm). simpl. lia.
  - rewrite (IH _ i Hi Hm), find_markers_step_count; [lia |].
    intros i' m' Hlt Hi'. apply (Hlater (S i')); [lia | done].
Qed.

Lemma find_markers_last_p1 (p0 p1 : string) (markers : list creation.marker)
    (state : nat * nat * bool * bool * nat) (j : nat) (m : creation.marker) :
  p0 ≠ p1 →
  markers !! j = Some m → creation.label m = p1 →
  (∀ j' m', j < j' → markers !! j' = Some m' → creation.label m' ≠ p1) →
  (foldl (creation.find_markers_step p0 p1) state markers).1.1.1.2 = state.2 + j.
Proof.
  intros Hne. revert state j.
  induction markers as [|m0 markers IH]; intros state j Hj Hm Hlater; [done |].
  cbn [foldl]. destruct j as [|j].
  - injection Hj as ->.
    rewrite find_markers_keeps_c2 by (by eapply (Forall_later _ m markers 0)).
    destruct state as [[[[c1 c2] fp0] fp1] c]. unfold creation.find_markers_step.
    assert (Hp0 : String.eqb (creation.label m) p0 = false).
    { apply String.eqb_neq. congruence. }
    rewrite Hp0, (proj2 (String.eqb_eq _ _) Hm). simpl. lia.
  - rewrite (IH _ j Hj Hm), find_markers_step_count; [lia |].
    intros j' m' Hlt Hj'. apply (Hlater (S j')); [lia | done].
Qed.

(** X23.  The region that [update_boundbox_by_markers] computes.  When both
    labels are found, its centre is the middle between the last marker
    labelled [p0] and the last marker labelled [p1]; its first side is the
    larger and its second side the smaller of their distances along x and
    along y, and its height is four times the smaller one.  In every case
    the size is not negative and the first side is the longer one.  Markers
    that are not found do not stop the function: both positions stay 0, the
    first marker of the chunk stands for both, and the region has no extent.
    Only a chunk without markers makes it raise IndexError. *)
Theorem boundbox_by_markers_shape (p0 p1 : string) (markers : list creation.marker) :
  (∀ i j m1 m2,
     p0 ≠ p1 →
     markers !! i = Some m1 → creation.label m1 = p0 →
     (∀ i' m, i < i' → markers !! i' = Some m → creation.label m ≠ p0) →
     markers !! j = Some m2 → creation.label m2 = p1 →
     (∀ j' m, j < j' → markers !! j' = Some m → creation.label m ≠ p1) →
     let dx := creation.fabs ((creation.position m2).1.1 - (creation.position m1).1.1) in
     let dy := creation.fabs ((creation.position m2).1.2 - (creation.position m1).1.2) in
     ∃ centre size,
       creation.boundbox_by_markers p0 p1 markers = OK (centre, size) ∧
       (centre.1.1 == ((creation.position m1).1.1 + (creation.position m2).1.1) / 2)%Q ∧
       (centre.1.2 == ((creation.position m1).1.2 + (creation.position m2).1.2) / 2)%Q ∧
       (centre.2 == ((creation.position m1).2 + (creation.position m2).2) / 2)%Q ∧
       (size.1.1 == Qmax dx dy)%Q ∧ (size.1.2 == Qmin dx dy)%Q ∧
       (size.2 == 4 * Qmin dx dy)%Q) ∧
  (∀ centre size,
     creation.boundbox_by_markers p0 p1 markers = OK (centre, size) →
     (0 <= size.1.2)%Q ∧ (size.1.2 <= size.1.1)%Q ∧ (size.2 == size.1.2 * 4)%Q) ∧
  (∀ m0 rest,
     markers = m0 :: rest →
     Forall (λ m, creation.label m ≠ p0 ∧ creation.label m ≠ p1) markers →
     ∃ centre size,
       creation.boundbox_by_markers p0 p1 markers = OK (centre, size) ∧
       (centre.1.1 == (creation.position m0).1.1)%Q ∧
       (centre.1.2 == (creation.position m0).1.2)%Q ∧
       (centre.2 == (creation.position m0).2)%Q ∧
       (size.1.1 == 0)%Q ∧ (size.1.2 == 0)%Q ∧ (size.2 == 0)%Q) ∧
  (markers = [] → creation.boundbox_by_markers p0 p1 markers = Raise IndexError).
Proof.
  split_and!.
  - intros i j m1 m2 Hne Hi Hm1 Hlast1 Hj Hm2 Hlast2 dx dy.
    unfold creation.boundbox_by_markers, creation.find_markers.
    pose proof (find_markers_last_p0 p0 p1 markers (0, 0, false, false, 0) i m1
                  Hi Hm1 Hlast1) as Hc1.
    pose proof (find_markers_last_p1 p0 p1 markers (0, 0, false, false, 0) j m2
                  Hne Hj Hm2 Hlast2) as Hc2.
    destruct (foldl _ _ markers) as [[[[c1 c2] fp0] fp1] c]. simpl in Hc1, Hc2. subst c1 c2.
    simpl. unfold list_get. rewrite Hi, Hj. simpl.
    subst dx dy.
    destruct (creation.position m1) as [[x1 y1] z1].
    destruct (creation.position m2) as [[x2 y2] z2]. simpl.
    unfold Qgtb.
    destruct (Qle_bool (creation.fabs (y2 - y1)) (creation.fabs (x2 - x1))) eqn:Hle;
      simpl; eexists _, _; (split; [reflexivity |]); simpl.
    + apply Qle_bool_iff in Hle.
      rewrite (Q.max_l _ _ Hle), (Q.min_r _ _ Hle).
      split_and!; try reflexivity; try field.
    + assert (Hlt : (creation.fabs (x2 - x1) <= creation.fabs (y2 - y1))%Q).
      { apply Qlt_le_weak, Qnot_le_lt. intros Hge%Qle_bool_iff. congruence. }
      rewrite (Q.max_r _ _ Hlt), (Q.min_l _ _ Hlt).
      split_and!; try reflexivity; try field.
  - intros centre size. unfold creation.boundbox_by_markers.
    destruct (creation.find_markers p0 p1 markers) as [[[c1 c2] fp0] fp1].
    intros Hbox.
    apply bind_OK in Hbox as (m1 & _ & Hbox).
    apply bind_OK in Hbox as (m2 & _ & Hbox).
    destruct (creation.position m1) as [[x1 y1] z1].
    destruct (creation.position m2) as [[x2 y2] z2].
    pose proof (fabs_nonneg (x2 - x1)) as Hx.
    pose proof (fabs_nonneg (y2 - y1)) as Hy.
    unfold Qgtb in Hbox.
    destruct (Qle_bool (creation.fabs (y2 - y1)) (creation.fabs (x2 - x1))) eqn:Hle;
      simpl in Hbox; injection Hbox as <- <-; simpl.
    + apply Qle_bool_iff in Hle. split_and!; [done | done | reflexivity].
    + assert (¬ (creation.fabs (y2 - y1) <= creation.fabs (x2 - x1))%Q)
        by (intros Hge%Qle_bool_iff; congruence).
      split_and!; [done | lra | reflexivity].
  - intros m0 rest -> Hnone. unfold creation.boundbox_by_markers, creation.find_markers.
    rewrite (find_markers_none _ _ _ _ Hnone). simpl.
    destruct (creation.position m0) as [[x y] z]. simpl.
    unfold Qgtb.
    assert (Hzero : ∀ v : Q, (creation.fabs (v - v) == 0)%Q).
    { intros v. unfold creation.fabs. destruct (Qle_bool 0 (v - v)); ring. }
    pose proof (Hzero x) as Hx. pose proof (Hzero y) as Hy.
    destruct (Qle_bool (creation.fabs (y - y)) (creation.fabs (x - x)));
      simpl; eexists _, _; (split; [reflexivity |]); simpl;
      split_and!; try done; try lra; try field.
  - intros ->. reflexivity.
Qed.

(** *** The figures of the table *)

Lemma for_each_trace_OK_in {A S} (xs : list A) (s r : S) (body : S → A → IO S)
    (tr : A → list event) :
  (∀ s x s', x ∈ xs → outcome (body s x) = OK s' → trace (body s x) = tr x) →
  outcome (for_each xs s body) = OK r →
  trace (for_each xs s body) = concat (map tr xs).
Proof.
  revert s. induction xs as [|x xs IH]; intros s Htr Hout; [done |].
  simpl in Hout |- *.
  apply IO_bind_inv in Hout as (s' & Hx & Hrest & ->).
  rewrite (Htr s x s') by (done || left). f_equal.
  apply IH; [|done]. intros s0 y s0' Hy. apply Htr. by right.
Qed.

Lemma dict_lookup_elem {V} (d : dict V) (k : Z) (v : V) :
  dict_lookup d k = Some v → (k, v) ∈ d.
Proof.
  induction d as [|[k0 v0] d IH]; simpl; [done |].
  destruct (Z.eqb_spec k0 k) as [->|_]; [intros [= ->]; left | right; auto].
Qed.

Section Files.
Context `{Sklearn, Open3d, Helpers, SetOrder}.

Lemma numbered_lookup k names i name :
  numbered k names → names !! i = Some name →
  name = class_file k ("-plant" +:+ pretty i).
Proof.
  unfold numbered. intros Hnum Hi. rewrite Hnum in Hi.
  rewrite list_lookup_imap in Hi.
  destruct (names !! i); simpl in Hi; [by injection Hi as <- | done].
Qed.

Lemma auto_segmentation_numbered self name_by ascending (eps_times : Q)
    (min_points : option Z) (img_folder : string) self' :
  name_by = "x" ∨ name_by = "y" →
  outcome (auto_segmentation self name_by ascending eps_times min_points img_folder)
  = OK self' →
  write_ply self' = write_ply self ∧ out_folder self' = out_folder self ∧
  segmented self' = true ∧
  ∀ k names, (k, names) ∈ pcd_segmented_name self' → numbered k names.
Proof.
  intros Hname Hout. unfold auto_segmentation in Hout.
  apply IO_bind_inv in Hout as ([[seg_out names] mp] & Hloop & Hout & _).
  simpl in Hout. injection Hout as <-. simpl. split_and!; try done. revert Hloop.
  apply (for_each_IO_inv
           (λ acc : dict (list PointCloud) * dict (list string) * option Z,
              ∀ k nm, (k, nm) ∈ acc.1.2 → numbered k nm)).
  - intros k x Hin. inversion Hin.
  - intros [[so sn] m] k acc' Hsn. unfold auto_segment_step.
    destruct (Z.eqb k (-1)); [by intros [= <-] |].
    rewrite outcome_bind.
    destruct (outcome (auto_segment_class _ _ _ _ _ _ _)) as [[segs nm]|e] eqn:Hclass;
      [|done].
    destruct (auto_segment_class_inv _ _ _ _ _ _ _ _ _ Hname Hclass) as [_ Hnum].
    simpl. intros [= <-]. simpl.
    intros k' nm' [[-> ->]|Hin]%elem_of_dict_set; [done | by eapply Hsn].
Qed.

(** X25.  [get_traits] on a plot that [auto_segmentation] has returned,
    when it returns its table with [savefig] on: with the write flag on it
    has drawn one figure per instance, in the order of the rows, each saved
    in the output folder as class[k]-plant<i>.png after the name of the
    instance; with the flag off it has drawn none. *)
Theorem get_traits_figures self0 self name_by ascending (eps_times : Q)
    (min_points : option Z) (img_folder : string) container_ht ground_ht rows :
  name_by = "x" ∨ name_by = "y" →
  outcome (auto_segmentation self0 name_by ascending eps_times min_points img_folder)
  = OK self →
  outcome (get_traits self container_ht ground_ht true) = OK rows →
  trace (get_traits self container_ht ground_ht true)
  = if write_ply self
    then map (λ inst : Z * (nat * PointCloud),
                Draw3d (out_folder self +:+ "/"
                        +:+ class_file inst.1 ("-plant" +:+ pretty inst.2.1) +:+ ".png"))
             (instances self)
    else [].
Proof.
  intros Hname Hseg Hrows.
  destruct (auto_segmentation_numbered _ _ _ _ _ _ _ Hname Hseg) as (_ & _ & Hs & Hnum).
  pose proof (auto_segmentation_names _ _ _ _ _ _ _ Hseg) as Hnames.
  set (fig := λ (k : Z) (inst : nat * PointCloud),
                if write_ply self
                then [Draw3d (out_folder self +:+ "/"
                              +:+ class_file k ("-plant" +:+ pretty inst.1) +:+ ".png")]
                else []).
  assert (Hinst : ∀ k i seg out_dict out_dict',
            (k, (i, seg)) ∈ instances self →
            outcome (append_trait self container_ht ground_ht true k out_dict (i, seg))
            = OK out_dict' →
            trace (append_trait self container_ht ground_ht true k out_dict (i, seg))
            = fig k (i, seg)).
  { intros k i seg out_dict out_dict' Hin Hout.
    destruct (Hnames k i seg Hin) as (names & name & Hk & Hi).
    pose proof (numbered_lookup k names i name (Hnum _ _ (dict_lookup_elem _ _ _ Hk)) Hi)
      as ->.
    unfold append_trait, trait_of_instance in Hout |- *. simpl fst in *. simpl snd in *.
    destruct (dict_get (pcd_classified self) (-1)) as [ground|e]; [|done].
    rewrite !(lift_OK_bind ground) in *.
    destruct (Plant_init seg i ground container_ht ground_ht) as [plant|e]; [|done].
    rewrite !(lift_OK_bind plant) in *. unfold fig. simpl fst.
    destruct (write_ply self); simpl andb; [|done].
    rewrite (dict_get_lookup _ _ _ Hk), lift_OK_bind. unfold list_get. rewrite Hi.
    by rewrite lift_OK_bind. }
  unfold get_traits in Hrows |- *. rewrite Hs in *. simpl negb in *. cbv iota in *.
  rewrite (for_each_trace_OK_in _ _ rows _
             (λ entry : Z * list PointCloud,
                concat (map (fig entry.1) (imap (λ i seg, (i, seg)) entry.2))));
    [| |exact Hrows].
  - unfold instances, fig. clear. destruct (write_ply self).
    + induction (pcd_segmented self) as [|[k segs] d IH]; [done |].
      simpl. rewrite IH, map_app, map_map. f_equal.
      induction (imap _ segs) as [|inst l IHl]; simpl; [done | by rewrite IHl].
    + induction (pcd_segmented self) as [|[k segs] d IH]; [done |].
      simpl. rewrite IH, app_nil_r.
      induction (imap _ segs) as [|inst l IHl]; simpl; [done | exact IHl].
  - intros out_dict [k segs] out_dict' Hentry Hout. unfold traits_of_class in Hout |- *.
    simpl fst in *. simpl snd in *.
    apply (for_each_trace_OK_in _ _ out_dict'); [|exact Hout].
    intros s [i seg] s' Hin Hok. eapply Hinst; [|exact Hok].
    unfold instances. apply list_elem_of_In, in_flat_map.
    exists (k, segs). split; [by apply list_elem_of_In |].
    simpl. apply in_map_iff. exists (i, seg). split; [done | by apply list_elem_of_In].
Qed.

End Files.

(** *** The rows of the table *)

Lemma for_each_append_Forall2 {A B} (f : A → result B) (xs : list A) (acc out : list B) :
  for_each xs acc (λ rows x, r ← f x; mret (rows ++ [r])) = OK out →
  ∃ rs, out = acc ++ rs ∧ Forall2 (λ x r, f x = OK r) xs rs.
Proof.
  revert acc. induction xs as [|x xs IH]; intros acc Hout.
  - injection Hout as <-. exists []. by rewrite app_nil_r.
  - simpl in Hout. destruct (f x) as [r|e] eqn:Hx; [|done]. simpl in Hout.
    destruct (IH _ Hout) as (rs & -> & Hall). exists (r :: rs).
    split; [by rewrite <- app_assoc | by constructor].
Qed.

Section Rows.
Context `{Open3d, Helpers}.

Lemma instance_row_columns self container_ht ground_ht savefig
    (inst : Z * (nat * PointCloud)) row :
  instance_row self container_ht ground_ht savefig inst = OK row →
  (col_plot row, col_kind row, col_plant row, (col_center_x row, col_center_y row))
  = (ply_name self, inst.1, inst.2.1,
     ((get_center inst.2.2).1.1, (get_center inst.2.2).1.2)).
Proof.
  destruct inst as [k [i seg]]. intros Hr.
  unfold instance_row, trait_of_instance in Hr. simpl fst in Hr. simpl snd in Hr.
  apply IO_bind_outcome_OK in Hr as (ground & _ & Hr).
  apply IO_bind_outcome_OK in Hr as (plant & Hplant & Hr).
  apply IO_bind_outcome_OK in Hr as (u & _ & Hr).
  simpl in Hr, Hplant. injection Hr as <-. simpl.
  unfold Plant_init in Hplant.
  apply bind_OK in Hplant as (ground' & _ & Hplant).
  apply bind_OK in Hplant as ([hull area] & _ & Hplant).
  apply bind_OK in Hplant as (rect & _ & Hplant).
  apply bind_OK in Hplant as ([[binary px_num] corner] & _ & Hplant).
  apply bind_OK in Hplant as ([[[[cx cy] major] minor] angle] & _ & Hplant).
  apply bind_OK in Hplant as (leaf_area & _ & Hplant).
  apply bind_OK in Hplant as (ht & _ & Hplant).
  injection Hplant as <-. reflexivity.
Qed.

Lemma get_traits_rows self container_ht ground_ht savefig rows :
  outcome (get_traits self container_ht ground_ht savefig) = OK rows →
  segmented self = true ∧
  Forall2 (λ inst row, instance_row self container_ht ground_ht savefig inst = OK row)
          (instances self) rows.
Proof.
  intros Hrows.
  assert (Hseg : segmented self = true).
  { unfold get_traits in Hrows. by destruct (segmented self). }
  rewrite (get_traits_outcome _ _ _ _ Hseg) in Hrows.
  apply for_each_append_Forall2 in Hrows as (rs & -> & Hall). done.
Qed.

(** X26.  The table of [get_traits] has its rows in the order of the
    instances, class after class: the row of an instance carries the name of
    the plot, the label of its class and its number in the class, which
    starts again at 0 in every class, and its centre columns are the centre
    of the cloud of the instance. *)
Theorem get_traits_rows_follow_instances self container_ht ground_ht savefig rows :
  outcome (get_traits self container_ht ground_ht savefig) = OK rows →
  map (λ r, (col_plot r, col_kind r, col_plant r, (col_center_x r, col_center_y r))) rows
  = map (λ inst : Z * (nat * PointCloud),
           (ply_name self, inst.1, inst.2.1,
            ((get_center inst.2.2).1.1, (get_center inst.2.2).1.2)))
        (instances self).
Proof.
  intros [_ Hall]%get_traits_rows.
  induction Hall as [|inst row insts rows Hrow _ IH]; [done |].
  cbn [map]. f_equal; [|exact IH]. by eapply instance_row_columns.
Qed.

End Rows.

(** *** Denoising *)

Section Denoising.
Context `{Open3d, Helpers}.

(** X27.  [remove_noise] only removes: the cleaned cloud of a class holds
    no point that is not in the classified cloud of that class, and the
    classes stay the same, in the same order. *)
Theorem remove_noise_only_removes (write : bool) (folder : string) cloud classified part
    cleaned cleaned_id info :
  NoDup (keys classified) →
  outcome (remove_noise write folder cloud classified part) = OK (cleaned, cleaned_id, info) →
  keys cleaned = keys classified ∧ keys cleaned_id = keys classified ∧
  ∀ k c p, (k, c) ∈ cleaned → p ∈ c →
    ∃ c0, dict_lookup classified k = Some c0 ∧ p ∈ c0.
Proof.
  intros Hnd Hout. rewrite (remove_noise_run _ _ _ _ _ Hnd) in Hout.
  simpl in Hout. injection Hout as <- <- _.
  rewrite !keys_map_pair. split_and!; try done.
  intros k c p Hin%list_elem_of_In Hp.
  apply in_map_iff in Hin as (k' & [= <- <-] & Hk'%list_elem_of_In).
  apply denoised_subset in Hp.
  destruct (dict_lookup_key _ _ Hk') as (c0 & Hc0 & _).
  exists c0. split; [done |]. unfold class_cloud in Hp. by rewrite Hc0 in Hp.
Qed.

End Denoising.

(** *** The example script *)

Section Script.
Context `{Sklearn, Open3d, Helpers, SetOrder}.

(** X28.  As the sources stand, the example script [run_one.py] cannot get
    to its table.  If neither training image has a fully opaque pixel, the
    classifier cannot be built and the script ends with ValueError.
    Otherwise the classifier is built and the next line, [pnt.Plot(path,
    cla)], raises: TypeError at the call of the reader (also when the path
    is no file and no folder), EOFError for a folder without ply files.
    Either way the script has drawn and written nothing, and the
    segmentation and [get_traits] are never run. *)
Theorem run_one_stops_at_the_plot (fore_rm_y back : list (Z * Z * Z * Z)) (ply : ply_input) :
  trace (run_one fore_rm_y back ply) = [] ∧
  outcome (run_one fore_rm_y back ply)
  = Raise (match read_png fore_rm_y ++ read_png back with
           | [] => ValueError
           | _ :: _ => match ply with
                       | ply_folder _ [] => EOFError
                       | _ => TypeError
                       end
           end).
Proof.
  unfold run_one, Classifier_init, build_training_array. simpl.
  rewrite decide_False by (vm_compute; discriminate).
  destruct (read_png fore_rm_y ++ read_png back) as [|col data] eqn:Hdata; simpl; [done |].
  unfold IO_bind at 1 3. simpl. rewrite Plot_init_raises.
  by destruct ply as [name cloud|name [|p plys]|].
Qed.

End Script.

(** * The theorems at concrete inputs *)

Example round_half_even :
  (round (1 # 2), round (3 # 2), round (5 # 2), round (-1 # 2)) = (0, 2, 2, 0)%Z.
Proof. reflexivity. Qed.

Ltac in_list := first [by left | right; in_list].
Ltac not_in_list :=
  let Hin := fresh "Hin" in
  intros Hin;
  repeat (apply elem_of_cons in Hin as [Hin | Hin]; [discriminate Hin |]);
  inversion Hin.

Lemma classifier_apply_one_class_not_fitted_witness :
  Classifier_init [src_pcd plant_left; src_pcd plant_right] [0; 0]%Z "dtc" = OK one_class ∧
  size (kind_set one_class) = 1 ∧
  classifier_apply false "out" field one_class = MkIO [] (Raise NotFittedError).
Proof.
  assert (Hinit : Classifier_init [src_pcd plant_left; src_pcd plant_right] [0; 0]%Z "dtc"
                  = OK one_class) by (vm_compute; reflexivity).
  assert (Hsize : size (kind_set one_class) = 1) by (vm_compute; reflexivity).
  split_and!; [exact Hinit | exact Hsize |].
  exact (classifier_apply_one_class_not_fitted _ _ _ _ false "out" field Hinit Hsize).
Defined.

Lemma Classifier_kind_set_untruncated_witness :
  Classifier_init [src_pcd ground_left] [-1; 0; 1]%Z "dtc" = OK short_paths ∧
  kind_list short_paths = [(-1)%Z] ∧
  train_kind short_paths = [-1; -1]%Z ∧
  kind_set short_paths = list_to_set [-1; 0; 1]%Z ∧
  ∃ d, outcome (classifier_apply false "out" field short_paths) = OK d ∧
       dict_lookup d 0 = Some [] ∧ dict_lookup d 1 = Some [].
Proof.
  assert (Hinit : Classifier_init [src_pcd ground_left] [-1; 0; 1]%Z "dtc" = OK short_paths)
    by (vm_compute; reflexivity).
  destruct (Classifier_kind_set_untruncated _ _ _ _ Hinit)
    as (_ & Hkinds & _ & _ & Hset & Happly).
  assert (Htrain : train_kind short_paths = [-1; -1]%Z) by (vm_compute; reflexivity).
  split_and!; [exact Hinit | exact Hkinds | exact Htrain | exact Hset |].
  destruct (outcome (classifier_apply false "out" field short_paths)) as [d|e] eqn:Hd;
    [|vm_compute in Hd; discriminate].
  exists d. split; [reflexivity |].
  destruct (Happly false "out" field d Hd) as [_ Hsubsets].
  split.
  - destruct (Hsubsets 0%Z) as (sub & -> & Hempty); [in_list |].
    rewrite Hempty; [reflexivity |]. rewrite Htrain. not_in_list.
  - destruct (Hsubsets 1%Z) as (sub & -> & Hempty); [in_list |].
    rewrite Hempty; [reflexivity |]. rewrite Htrain. not_in_list.
Defined.

Lemma plot_of_field :
  outcome (Plot_init_loaded field "S03" two_class "out" false) = OK (plot_of field).
Proof. vm_compute. reflexivity. Qed.

Lemma shp_segmentation_one_instance_per_polygon_witness :
  ∃ self',
    outcome (shp_segmentation (plot_of field) two_squares) = OK self' ∧
    dict_lookup (pcd_segmented self') 0 = Some [plant_left; plant_right] ∧
    dict_lookup (pcd_segmented_name self') 0 = Some ["class[0]-left"; "class[0]-right"] ∧
    dict_lookup (pcd_segmented self') (-1) = None.
Proof.
  destruct (Plot_init_loaded_wf _ _ _ _ _ _ plot_of_field) as (Hnd & Hkeys & _ & Hsub).
  assert (Hpcd : pcd (plot_of field) ≠ []) by (vm_compute; discriminate).
  rewrite <- Hkeys in Hnd.
  destruct (shp_segmentation_one_instance_per_polygon (plot_of field) two_squares
              Hpcd Hnd Hsub) as (self' & z_min & z_max & Hout & _ & _ & _ & Hbg & Hfg).
  exists self'. split; [exact Hout |].
  destruct (Hfg 0%Z (class_cloud (pcd_cleaned (plot_of field)) 0))
    as (_ & _ & Hsegs & Hnames); [vm_compute; in_list | done |].
  rewrite Hsegs, Hnames. split_and!; [vm_compute; reflexivity | reflexivity | exact Hbg].
Defined.

Lemma remove_noise_passes_witness :
  ∃ cleaned cleaned_id,
    outcome (remove_noise false "out" field (pcd_classified (plot_of field)) 100)
    = OK (cleaned, cleaned_id, (1 # 10, 5)%Q) ∧
    keys cleaned = [0; -1]%Z ∧
    dict_lookup cleaned (-1) = Some (ground_left ++ ground_right) ∧
    dict_lookup cleaned 0 = Some (plant_right ++ stray ++ plant_left).
Proof.
  destruct (Plot_init_loaded_wf _ _ _ _ _ _ plot_of_field) as (Hnd & _).
  destruct (remove_noise_passes false "out" field (pcd_classified (plot_of field)) 100 Hnd)
    as (cleaned & cleaned_id & Hout & Hkeys & Hpasses).
  exists cleaned, cleaned_id. split; [exact Hout |]. split; [by rewrite Hkeys |].
  split.
  - rewrite (Hpasses (-1)%Z (ground_left ++ ground_right)); [|vm_compute; in_list].
    vm_compute. reflexivity.
  - rewrite (Hpasses 0%Z (plant_right ++ stray ++ plant_left)); [|vm_compute; in_list].
    vm_compute. reflexivity.
Defined.

Lemma auto_segmentation_sorted_witness :
  plant_clusters (plant_right ++ stray ++ plant_left)
    (cluster_dbscan (plant_right ++ stray ++ plant_left) (voxel_size (plot_of field) * 10) 5)
  = [plant_left; plant_right] ∧
  (∃ segs names,
     outcome (auto_segment_class (plot_of field) 0 "x" false 10 5 "plot_out")
     = OK (segs, names) ∧
     segs = [plant_right; plant_left] ∧
     segs ≡ₚ [plant_left; plant_right] ∧
     names = ["class[0]-plant0"; "class[0]-plant1"] ∧
     in_sort_order "x" false segs) ∧
  (∃ segs names,
     dict_lookup (pcd_segmented (auto_segmented field)) 0 = Some segs ∧
     dict_lookup (pcd_segmented_name (auto_segmented field)) 0 = Some names ∧
     segs = [plant_left; plant_right] ∧
     segs ≡ₚ [plant_left; plant_right] ∧
     names = ["class[0]-plant0"; "class[0]-plant1"] ∧
     in_sort_order "x" true segs).
Proof.
  assert (Hclusters :
    plant_clusters (plant_right ++ stray ++ plant_left)
      (cluster_dbscan (plant_right ++ stray ++ plant_left)
         (voxel_size (plot_of field) * 10) 5)
    = [plant_left; plant_right]) by (vm_compute; reflexivity).
  split; [exact Hclusters |]. split.
  - destruct (auto_segmentation_sorted (plot_of field) "x" false 10 None "plot_out"
                (or_introl eq_refl)) as [Hclass _].
    destruct (Hclass 0%Z 5%Z (plant_right ++ stray ++ plant_left))
      as (segs & names & Hout & Hperm & Hsorted & Hnum & _).
    + vm_compute. reflexivity.
    + vm_compute. lia.
    + vm_compute. discriminate.
    + exists segs, names. split; [exact Hout |]. rewrite Hclusters in Hperm.
      assert (Heq : segs = [plant_right; plant_left]
                    ∧ names = ["class[0]-plant0"; "class[0]-plant1"]).
      { vm_compute in Hout. by injection Hout as <- <-. }
      destruct Heq as [Hsegs Hnames]. split_and!; done.
  - destruct (auto_segmentation_sorted (plot_of field) "x" true 10 None "plot_out"
                (or_introl eq_refl)) as [_ Hplot].
    destruct (Hplot (auto_segmented field)) as (_ & _ & Hentry).
    + vm_compute. reflexivity.
    + destruct (Hentry 0%Z) as (cleaned_k & segs & names & Hck & Hsegs & Hnames & Hperm
                                & Hsorted & Hnum & _).
      * vm_compute. left.
      * assert (Hcleaned : cleaned_k = plant_right ++ stray ++ plant_left).
        { vm_compute in Hck. by injection Hck as <-. }
        subst cleaned_k.
        replace (default (round (voxel_density (plot_of field))) None) with 5%Z in Hperm
          by (vm_compute; reflexivity).
        rewrite Hclusters in Hperm.
        exists segs, names. split; [exact Hsegs |]. split; [exact Hnames |].
        assert (Heq : segs = [plant_left; plant_right]
                      ∧ names = ["class[0]-plant0"; "class[0]-plant1"]).
        { vm_compute in Hsegs, Hnames. by injection Hsegs as <-; injection Hnames as <-. }
        destruct Heq as [-> ->]. split_and!; done.
Defined.

Lemma auto_segmented_field :
  outcome (auto_segmentation (plot_of field) "x" true 10 None "plot_out")
  = OK (auto_segmented field).
Proof. vm_compute. reflexivity. Qed.

Lemma auto_segmented_bare :
  outcome (auto_segmentation (plot_of field_bare_left) "x" true 10 None "plot_out")
  = OK (auto_segmented field_bare_left).
Proof. vm_compute. reflexivity. Qed.

(** The claim of C4 fails on the field without ground under the left plant:
    the ground sample of the first instance is empty, the second instance
    alone has a row, and [get_traits] returns no table at all. *)
Lemma get_traits_aborts_the_plot :
  let self := auto_segmented field_bare_left in
  instances self = [(0%Z, (0, plant_left)); (0%Z, (1, plant_right))] ∧
  instance_row self 0 auto false (0%Z, (0, plant_left)) = Raise ValueError ∧
  (∃ row, instance_row self 0 auto false (0%Z, (1, plant_right)) = OK row) ∧
  outcome (get_traits self 0 auto false) = Raise ValueError.
Proof.
  split_and!.
  - vm_compute. reflexivity.
  - vm_compute. reflexivity.
  - eexists. vm_compute. reflexivity.
  - vm_compute. reflexivity.
Qed.

Lemma get_traits_aborts_on_failure_witness :
  outcome (get_traits (auto_segmented field_bare_left) 0 auto false) = Raise ValueError ∧
  ∃ rows, outcome (get_traits (auto_segmented field) 0 auto false) = OK rows ∧
          length rows = 2.
Proof.
  split.
  - assert (Hseg : segmented (auto_segmented field_bare_left) = true)
      by (vm_compute; reflexivity).
    destruct (get_traits_aborts_on_failure (auto_segmented field_bare_left) 0 auto false Hseg)
      as [Habort _].
    apply (Habort [] (0%Z, (0, plant_left)) [(0%Z, (1, plant_right))]).
    + vm_compute. reflexivity.
    + intros j Hj. inversion Hj.
    + vm_compute. reflexivity.
  - assert (Hseg : segmented (auto_segmented field) = true) by (vm_compute; reflexivity).
    destruct (get_traits_aborts_on_failure (auto_segmented field) 0 auto false Hseg)
      as [_ Htable].
    destruct (instance_row (auto_segmented field) 0 auto false (0%Z, (0, plant_left)))
      as [row0|e0] eqn:H0; [|vm_compute in H0; discriminate].
    destruct (instance_row (auto_segmented field) 0 auto false (0%Z, (1, plant_right)))
      as [row1|e1] eqn:H1; [|vm_compute in H1; discriminate].
    exists [row0; row1]. split; [|reflexivity].
    apply Htable.
    replace (instances (auto_segmented field))
      with [(0%Z, (0, plant_left)); (0%Z, (1, plant_right))] by (vm_compute; reflexivity).
    repeat constructor; assumption.
Defined.

(** The claim of C9 fails on the segmentation image: without the write flag
    [auto_segmentation] still draws it, into [img_folder] or, by default,
    into the output path. *)
Lemma auto_segmentation_draws_without_flag :
  write_ply (plot_of field) = false ∧
  trace (auto_segmentation (plot_of field) "x" true 10 None "plot_out")
  = [DrawPlotSeg "plot_out/S03-class[0].png"] ∧
  trace (auto_segmentation (plot_of field) "x" true 10 None ".")
  = [DrawPlotSeg "out/S03-class[0].png"].
Proof. split_and!; vm_compute; reflexivity. Qed.

Lemma write_ply_disabled_witness :
  trace (Plot_init (ply_file "S03" field) two_class "out" false) = [] ∧
  trace (Plot_init_loaded field "S03" two_class "out" false) = [] ∧
  trace (shp_segmentation (plot_of field) two_squares) = [] ∧
  trace (get_traits (auto_segmented field) 0 auto true) = [] ∧
  trace (auto_segmentation (plot_of field) "x" true 10 None "plot_out")
  = [DrawPlotSeg "plot_out/S03-class[0].png"] ∧
  outcome (get_traits (set_write true "out/S03" (auto_segmented field)) 0 auto true)
  = outcome (get_traits (auto_segmented field) 0 auto true).
Proof.
  assert (Hw : write_ply (plot_of field) = false) by reflexivity.
  assert (Hw' : write_ply (auto_segmented field) = false) by (vm_compute; reflexivity).
  destruct (write_ply_disabled (ply_file "S03" field) field "S03" two_class "out"
              (plot_of field) two_squares "x" true 10 None "plot_out" 0 auto true Hw)
    as ((Hinit & Hloaded & Hshp & _ & _) & Himages & _).
  destruct (write_ply_disabled (ply_file "S03" field) field "S03" two_class "out"
              (auto_segmented field) two_squares "x" true 10 None "plot_out" 0 auto true Hw')
    as ((_ & _ & _ & Htraits & _) & _ & Hsame).
  split_and!; [exact Hinit | exact Hloaded | exact Hshp | exact Htraits | |].
  - rewrite (Himages _ auto_segmented_field). vm_compute. reflexivity.
  - apply (Hsame true "out/S03").
    exact (auto_segmentation_names _ _ _ _ _ _ _ auto_segmented_field).
Defined.

(** ** The further properties at concrete inputs *)

Lemma classifier_apply_tree_partition_witness :
  ∃ pred,
    predict two_class (colors field) = OK pred ∧ length pred = length field ∧
    sum_list (map (λ k, length (select_down_sample field (np.where_eq pred k)))
                  (set_iter (kind_set two_class)))
    = length field.
Proof.
  destruct (classifier_apply_tree_partition
              [src_pcd ground_left; src_pcd plant_left] [-1; 0]%Z two_class false "out" field)
    as (pred & Hpred & Hlen & _ & _ & Hsum).
  - vm_compute. reflexivity.
  - vm_compute. lia.
  - discriminate.
  - exists pred. split_and!; assumption.
Defined.

Lemma read_png_opaque_unit_range_witness :
  List.filter (λ p : Z * Z * Z * Z, Z.eqb p.2 255) three_pixels
  = [(255, 0, 0, 255); (10, 20, 30, 255)]%Z ∧
  (∃ c1 c2, read_png three_pixels = [c1; c2] ∧
            (c1.1.1 * 255 == 255)%Q ∧ (c2.1.2 * 255 == 20)%Q ∧ (c2.2 * 255 == 30)%Q) ∧
  Forall (λ c : Color, ((0 <= c.1.1)%Q ∧ (c.1.1 <= 1)%Q) ∧ ((0 <= c.1.2)%Q ∧ (c.1.2 <= 1)%Q)
                       ∧ ((0 <= c.2)%Q ∧ (c.2 <= 1)%Q))
         (read_png three_pixels).
Proof.
  destruct (read_png_opaque_unit_range three_pixels) as [Hpixels Hrange].
  assert (Hopaque : List.filter (λ p : Z * Z * Z * Z, Z.eqb p.2 255) three_pixels
                    = [(255, 0, 0, 255); (10, 20, 30, 255)]%Z) by reflexivity.
  split; [exact Hopaque |]. split.
  - rewrite Hopaque in Hpixels. pose proof (Forall2_length _ _ _ Hpixels) as Hlen.
    destruct (read_png three_pixels) as [|c1 [|c2 [|c3 l]]]; try discriminate Hlen.
    apply Forall2_cons in Hpixels as [(_ & Hr1 & _ & _) Hrest].
    apply Forall2_cons in Hrest as [(_ & _ & Hg2 & Hb2) _].
    exists c1, c2. split_and!; [done | exact Hr1 | exact Hg2 | exact Hb2].
  - apply Hrange. repeat constructor; vm_compute; discriminate.
Defined.

Lemma build_training_array_aligned_witness :
  build_training_array [src_pcd ground_left; src_pcd plant_left] [-1; 0]%Z
  = OK ([brown; brown; green; green; green; green], [-1; -1; 0; 0; 0; 0]%Z) ∧
  build_training_array [src_pcd ground_left; src_other_str; src_unsupported] [-1; 0; 1]%Z
  = Raise AttributeError.
Proof.
  split.
  - destruct (build_training_array_aligned
                [src_pcd ground_left; src_pcd plant_left] [-1; 0]%Z) as [Hok _].
    rewrite (Hok [colors ground_left; colors plant_left]); [reflexivity |].
    repeat constructor.
  - destruct (build_training_array_aligned
                [src_pcd ground_left; src_other_str; src_unsupported] [-1; 0; 1]%Z)
      as [_ Hraise].
    apply (Hraise [(src_pcd ground_left, (-1)%Z)] (src_other_str, 0%Z)
                  [(src_unsupported, 1%Z)]).
    + reflexivity.
    + repeat constructor. by eexists.
    + reflexivity.
Defined.

Lemma predict_only_fitted_tree_witness :
  predict two_class (colors stray) = OK [0%Z] ∧
  Forall (λ l, l ∈ [-1; 0]%Z) [0%Z].
Proof.
  assert (Hinit : Classifier_init [src_pcd ground_left; src_pcd plant_left] [-1; 0]%Z "dtc"
                  = OK two_class) by (vm_compute; reflexivity).
  assert (Hpred : predict two_class (colors stray) = OK [0%Z]) by (vm_compute; reflexivity).
  destruct (predict_only_fitted_tree _ _ _ _ _ _ Hinit Hpred) as (_ & _ & _ & _ & Hlab).
  split; [exact Hpred | exact Hlab].
Defined.

Lemma Classifier_init_no_opaque_pixel_witness :
  Classifier_init (map src_png [[(255, 0, 0, 0)]; [(0, 255, 0, 128)]]%Z) [-1; 0]%Z "dtc"
  = Raise ValueError.
Proof.
  apply Classifier_init_no_opaque_pixel.
  - repeat constructor; discriminate.
  - vm_compute. lia.
Defined.

Lemma Plot_init_stops_at_the_reader_witness :
  Plot_init (ply_file "S03" field) two_class "out" true = MkIO [] (Raise TypeError) ∧
  Plot_init (ply_folder "plots" [field; stray]) two_class "out" false
  = MkIO [] (Raise TypeError) ∧
  Plot_init (ply_folder "plots" []) two_class "out" true = MkIO [] (Raise EOFError).
Proof.
  assert (Heta : ∀ (m : IO Plot) e,
            trace m = [] → outcome m = Raise e → m = MkIO [] (Raise e)).
  { intros [tr out] e. simpl. by intros -> ->. }
  split_and!.
  - destruct (Plot_init_stops_at_the_reader (ply_file "S03" field) two_class "out" true)
      as (Htrace & Hout & _). by apply Heta.
  - destruct (Plot_init_stops_at_the_reader (ply_folder "plots" [field; stray]) two_class
                "out" false) as (Htrace & Hout & _). by apply Heta.
  - destruct (Plot_init_stops_at_the_reader (ply_folder "plots" []) two_class "out" true)
      as (Htrace & Hout & _). by apply Heta.
Defined.

Lemma plant_group_one_sided_witness :
  plant_group [(2, 1); (3, 1)]%Q [0; 0]%Z = [] ∧
  plant_group [(2, 1); (3, 1)]%Q [1; 1]%Z = [0; 1].
Proof.
  destruct (plant_group_one_sided [(2, 1); (3, 1)]%Q [0; 0]%Z) as [Hnone _].
  destruct (plant_group_one_sided [(2, 1); (3, 1)]%Q [1; 1]%Z) as [_ Hall].
  split; [apply Hnone | apply Hall]; repeat constructor.
Defined.

Lemma auto_segmentation_needs_two_clusters_witness :
  auto_segment_class (plot_of one_plant) 0 "x" true 10 5 "plot_out"
  = MkIO [] (Raise ValueError) ∧
  ∃ e, outcome (auto_segmentation (plot_of one_plant) "x" true 10 None "plot_out") = Raise e.
Proof.
  destruct (auto_segmentation_needs_two_clusters (plot_of one_plant) "x" true 10 None
              "plot_out" 0%Z plant_left) as [Hclass Hplot].
  - vm_compute. reflexivity.
  - vm_compute. lia.
  - split; [exact Hclass |]. apply Hplot; [vm_compute; in_list | discriminate].
Defined.

Lemma auto_segment_class_instances_are_clusters_witness :
  ∃ cleaned_k labels,
    dict_lookup (pcd_cleaned (plot_of field)) 0 = Some cleaned_k ∧ NoDup labels ∧
    [plant_left; plant_right]
    = map (λ l, select_down_sample cleaned_k
                  (np.where_eq (cluster_dbscan cleaned_k
                                  (voxel_size (plot_of field) * 10) 5) l)) labels ∧
    Forall (λ seg, seg ≠ []) [plant_left; plant_right].
Proof.
  destruct (auto_segment_class_instances_are_clusters (plot_of field) 0 "x" true 10 5
              "plot_out" [plant_left; plant_right] ["class[0]-plant0"; "class[0]-plant1"])
    as (cleaned_k & labels & Hk & Hnd & _ & Hsegs & Hne).
  - vm_compute. reflexivity.
  - exists cleaned_k, labels. split_and!; [exact Hk | exact Hnd | exact Hsegs |].
    apply Hne.
    assert (Hc : cleaned_k = plant_right ++ stray ++ plant_left).
    { vm_compute in Hk. by injection Hk as <-. }
    rewrite Hc. vm_compute. reflexivity.
Defined.

Lemma segmentation_starts_afresh_witness :
  auto_segmentation (auto_segmented field) "y" false 10 None "."
  = auto_segmentation (plot_of field) "y" false 10 None "." ∧
  shp_segmentation (auto_segmented field) two_squares
  = shp_segmentation (plot_of field) two_squares.
Proof.
  apply (segmentation_starts_afresh (plot_of field) (auto_segmented field)
           "x" true 10 None "plot_out" []).
  left. exact auto_segmented_field.
Defined.

Lemma get_traits_savefig_same_table_witness :
  outcome (get_traits (auto_segmented field) 0 auto true)
  = outcome (get_traits (auto_segmented field) 0 auto false).
Proof.
  apply (get_traits_savefig_same_table (plot_of field) (auto_segmented field)
           "x" true 10 None "plot_out" []).
  left. exact auto_segmented_field.
Defined.

Lemma get_traits_needs_background_witness :
  dict_lookup (pcd_classified (shp_segmented two_foreground field two_squares)) (-1) = None ∧
  outcome (get_traits (shp_segmented two_foreground field two_squares) 0 (fixed 0) false)
  = Raise KeyError ∧
  dict_lookup (pcd_classified (shp_segmented two_class plants_only two_squares)) (-1)
  = Some [] ∧
  outcome (get_traits (shp_segmented two_class plants_only two_squares) 0 (fixed 0) false)
  = Raise ValueError.
Proof.
  assert (Hno : dict_lookup (pcd_classified (shp_segmented two_foreground field two_squares))
                            (-1) = None) by (vm_compute; reflexivity).
  assert (Hempty : dict_lookup
                     (pcd_classified (shp_segmented two_class plants_only two_squares)) (-1)
                   = Some []) by (vm_compute; reflexivity).
  split_and!; [exact Hno | | exact Hempty |].
  - destruct (instances (shp_segmented two_foreground field two_squares))
      as [|inst rest] eqn:Hinst; [vm_compute in Hinst; discriminate |].
    destruct (get_traits_needs_background
                (shp_segmented two_foreground field two_squares) 0 (fixed 0) false inst rest)
      as [Hkey _]; [vm_compute; reflexivity | exact Hinst |].
    exact (Hkey Hno).
  - destruct (instances (shp_segmented two_class plants_only two_squares))
      as [|inst rest] eqn:Hinst; [vm_compute in Hinst; discriminate |].
    destruct (get_traits_needs_background
                (shp_segmented two_class plants_only two_squares) 0 (fixed 0) false inst rest)
      as [_ Hval]; [vm_compute; reflexivity | exact Hinst |].
    exact (Hval Hempty).
Defined.

Lemma shp_segmentation_empty_polygon_aborts_traits_witness :
  ∃ e, outcome (get_traits (shp_segmented two_class field left_and_nowhere) 0 auto false)
       = Raise e.
Proof.
  apply (shp_segmentation_empty_polygon_aborts_traits (plot_of field)
           (shp_segmented two_class field left_and_nowhere) left_and_nowhere
           0%Z (plant_right ++ stray ++ plant_left) "nowhere"
           [(10, 10, 0); (11, 10, 0); (11, 11, 0); (10, 11, 0)]%Q).
  - exact (Plot_init_loaded_wf _ _ _ _ _ _ plot_of_field).
  - vm_compute. reflexivity.
  - vm_compute. in_list.
  - discriminate.
  - unfold left_and_nowhere. in_list.
  - vm_compute. reflexivity.
Defined.

Lemma get_projected_leaf_area_counts_ones_witness :
  get_projected_leaf_area [[1; 1]; [1; 1]]%Z 2 = Raise IndexError ∧
  get_projected_leaf_area [[0; 1; 1]; [0; 0; 1]]%Z 2
  = OK (inject_Z 3 * (1 / 2 * (1 / 2)))%Q.
Proof.
  destruct (get_projected_leaf_area_counts_ones [[1; 1]; [1; 1]]%Z 2) as [Hsame _].
  destruct (get_projected_leaf_area_counts_ones [[0; 1; 1]; [0; 0; 1]]%Z 2) as [_ Hones].
  split.
  - apply Hsame. intros a b Ha Hb.
    assert (Hone : ∀ x, x ∈ concat [[1; 1]; [1; 1]]%Z → x = 1%Z).
    { intros x Hx. simpl in Hx.
      repeat (apply elem_of_cons in Hx as [-> | Hx]; [reflexivity |]). inversion Hx. }
    by rewrite (Hone a Ha), (Hone b Hb).
  - apply Hones.
    + intros Hzero. vm_compute in Hzero. discriminate.
    + simpl. repeat (constructor; [first [by left | by right] |]). constructor.
    + simpl. in_list.
    + simpl. in_list.
Defined.

Lemma get_percentile_height_flat_top_witness :
  get_percentile_height [1; 5; 5]%Q [] 0 (fixed 2) = OK NaN.
Proof.
  apply (get_percentile_height_flat_top [1; 5; 5]%Q [] 0 (fixed 2) 2 5).
  - reflexivity.
  - exists 5%Q. split; [in_list | reflexivity].
  - intros x Hx Hlt.
    repeat (apply elem_of_cons in Hx as [-> | Hx]); [..| inversion Hx];
      [vm_compute in Hlt; discriminate | reflexivity | reflexivity].
Defined.

Lemma Plant_New_needs_both_classes_witness :
  ∃ e, Plant_New_init plants_only two_class 0 auto = Raise e.
Proof.
  apply (Plant_New_needs_both_classes plants_only two_class 0 auto
           [0; 0; 0; 0; 0; 0; 0; 0]%Z).
  - vm_compute. reflexivity.
  - right. split; [not_in_list | reflexivity].
Defined.

Lemma auto_segmentation_classes_witness :
  segmented (auto_segmented field) = true ∧
  keys (pcd_segmented (auto_segmented field)) = [0%Z] ∧
  keys (pcd_segmented_name (auto_segmented field)) = [0%Z].
Proof.
  destruct (Plot_init_loaded_wf _ _ _ _ _ _ plot_of_field) as (Hnd & _).
  destruct (auto_segmentation_classes _ _ _ _ _ _ _ Hnd auto_segmented_field)
    as (Hseg & _ & _ & _ & Hk & Hn).
  split_and!; [exact Hseg | rewrite Hk | rewrite Hn]; vm_compute; reflexivity.
Defined.

Lemma read_ply_colors_witness :
  ∃ cloud,
    read_ply two_vertices = OK cloud ∧
    cloud_colors cloud = [(255 / 255, 0 / 255, 0 / 255); (0 / 255, 51 / 255, 0 / 255)]%Q ∧
    has_colors cloud = true.
Proof.
  destruct (read_ply_colors two_vertices) as (_ & _ & Hred & _).
  destruct Hred as (cloud & Hread & Hcolors & Hhas & _).
  - reflexivity.
  - unfold two_vertices. simpl. in_list.
  - unfold two_vertices. simpl. in_list.
  - unfold two_vertices. simpl. in_list.
  - exists cloud. split_and!; [exact Hread | rewrite Hcolors; reflexivity |].
    apply Hhas; [discriminate | reflexivity].
Defined.

Lemma look_for_photos_by_extension_witness :
  (creation.look_for_photos "photos/S01" ["IMG_1.JPG"; "raw"; "notes.txt"; "b.v2.png"]).1.1
  = ["photos/S01/IMG_1.JPG"; "photos/S01/b.v2.png"] ∧
  creation.has_dot "IMG_1.JPG"
  && bool_decide (creation.lower (creation.rsplit_last "IMG_1.JPG") ∈ ["jpg"; "jpeg"; "png"])
  = bool_decide (creation.lower "JPG" ∈ ["jpg"; "jpeg"; "png"]).
Proof.
  destruct (look_for_photos_by_extension "photos/S01"
              ["IMG_1.JPG"; "raw"; "notes.txt"; "b.v2.png"]) as (Hphotos & _ & Hext).
  split.
  - rewrite Hphotos. vm_compute. reflexivity.
  - apply (Hext "IMG_1" "JPG"). reflexivity.
Defined.

Lemma image_sets_pairing_witness :
  creation.image_sets "photos/" "_4_8" ["S01"; "S02"; "skip"]
  = [OK ("photos/S01", "photos/S01/S01_4_8"); OK ("photos/S02", "photos/S02/S02_4_8")] ∧
  creation.image_sets "photos/" "_4_8" ["S01"; "skip"; "tomato"; "wheat"]
  = [OK ("photos/S01", "photos/S01/S01_4_8");
     OK ("photos/skip", "photos/tomato/tomato_4_8");
     OK ("photos/tomato", "photos/wheat/wheat_4_8")].
Proof.
  split.
  - destruct (image_sets_pairing "photos/" "_4_8" ["S01"; "S02"; "skip"]) as (_ & Hlast & _).
    rewrite (Hlast ["S01"; "S02"] 1); [reflexivity | reflexivity | not_in_list].
  - destruct (image_sets_pairing "photos/" "_4_8" ["S01"; "skip"; "tomato"; "wheat"])
      as (_ & _ & Hshift).
    rewrite (Hshift ["S01"] ["tomato"; "wheat"]);
      [reflexivity | reflexivity | not_in_list | not_in_list].
Defined.

Lemma boundbox_by_markers_shape_witness :
  (∃ centre size,
     creation.boundbox_by_markers "target 2" "target 3" two_markers = OK (centre, size) ∧
     (centre.1.1 == 5 # 2)%Q ∧ (centre.1.2 == 4)%Q ∧ (centre.2 == 3)%Q ∧
     (size.1.1 == 4)%Q ∧ (size.1.2 == 3)%Q ∧ (size.2 == 12)%Q) ∧
  (∃ centre size,
     creation.boundbox_by_markers "target 1" "target 8" two_markers = OK (centre, size) ∧
     (centre.1.1 == 1)%Q ∧ (centre.1.2 == 2)%Q ∧ (centre.2 == 3)%Q ∧
     (size.1.1 == 0)%Q ∧ (size.1.2 == 0)%Q ∧ (size.2 == 0)%Q).
Proof.
  split.
  - destruct (boundbox_by_markers_shape "target 2" "target 3" two_markers) as (Hfound & _).
    destruct (Hfound 0 1 {| creation.label := "target 2"; creation.position := (1, 2, 3)%Q |}
                {| creation.label := "target 3"; creation.position := (4, 6, 3)%Q |})
      as (centre & size & Hbox & Hcx & Hcy & Hcz & Hsx & Hsy & Hsz).
    + discriminate.
    + reflexivity.
    + reflexivity.
    + intros [|[|i']] m Hlt Hm; [lia | | done]. injection Hm as <-. discriminate.
    + reflexivity.
    + reflexivity.
    + intros [|[|j']] m Hlt Hm; [lia | lia | done].
    + exists centre, size. split; [exact Hbox |]. simpl in *.
      split_and!; [by rewrite Hcx | by rewrite Hcy | by rewrite Hcz
                  | by rewrite Hsx | by rewrite Hsy | by rewrite Hsz].
  - destruct (boundbox_by_markers_shape "target 1" "target 8" two_markers)
      as (_ & _ & Hnone & _).
    apply (Hnone _ _ eq_refl).
    repeat constructor; discriminate.
Defined.

Lemma written_segmented_field :
  outcome (auto_segmentation written_plot "x" true 10 None "plot_out") = OK written_segmented.
Proof. vm_compute. reflexivity. Qed.

Lemma get_traits_figures_witness :
  trace (get_traits written_segmented 0 auto true)
  = [Draw3d "out/S03/class[0]-plant0.png"; Draw3d "out/S03/class[0]-plant1.png"].
Proof.
  destruct (outcome (get_traits written_segmented 0 auto true)) as [rows|e] eqn:Hrows;
    [|vm_compute in Hrows; discriminate].
  rewrite (get_traits_figures written_plot written_segmented "x" true 10 None "plot_out"
             0 auto rows (or_introl eq_refl) written_segmented_field Hrows).
  vm_compute. reflexivity.
Defined.

Lemma get_traits_rows_follow_instances_witness :
  ∃ rows,
    outcome (get_traits (auto_segmented field) 0 auto false) = OK rows ∧
    map (λ r, (col_plot r, col_kind r, col_plant r)) rows
    = [("S03", 0%Z, 0); ("S03", 0%Z, 1)].
Proof.
  destruct (outcome (get_traits (auto_segmented field) 0 auto false)) as [rows|e] eqn:Hrows;
    [|vm_compute in Hrows; discriminate].
  exists rows. split; [reflexivity |].
  pose proof (get_traits_rows_follow_instances _ _ _ _ _ Hrows) as Hcols.
  apply (f_equal (map fst)) in Hcols. rewrite !map_map in Hcols. simpl in Hcols.
  rewrite Hcols. vm_compute. reflexivity.
Defined.

Lemma remove_noise_only_removes_witness :
  ∃ cleaned cleaned_id info,
    outcome (remove_noise false "out" field (pcd_classified (plot_of field)) 100)
    = OK (cleaned, cleaned_id, info) ∧
    keys cleaned = [0; -1]%Z.
Proof.
  destruct (Plot_init_loaded_wf _ _ _ _ _ _ plot_of_field) as (Hnd & _).
  destruct (outcome (remove_noise false "out" field (pcd_classified (plot_of field)) 100))
    as [[[cleaned cleaned_id] info]|e] eqn:Hout; [|vm_compute in Hout; discriminate].
  exists cleaned, cleaned_id, info. split; [reflexivity |].
  destruct (remove_noise_only_removes _ _ _ _ _ _ _ _ Hnd Hout) as (Hkeys & _).
  rewrite Hkeys. vm_compute. reflexivity.
Defined.

Lemma run_one_stops_at_the_plot_witness :
  run_one green_image red_image (ply_file "S03" field_on_red) = MkIO [] (Raise TypeError) ∧
  run_one [(0, 255, 0, 254)]%Z [(255, 0, 0, 0)]%Z (ply_file "S03" field_on_red)
  = MkIO [] (Raise ValueError).
Proof.
  assert (Heta : ∀ (m : IO (list trait_row)) e,
            trace m = [] → outcome m = Raise e → m = MkIO [] (Raise e)).
  { intros [tr out] e. simpl. by intros -> ->. }
  split.
  - destruct (run_one_stops_at_the_plot green_image red_image (ply_file "S03" field_on_red))
      as [Htrace Hout]. by apply Heta.
  - destruct (run_one_stops_at_the_plot [(0, 255, 0, 254)]%Z [(255, 0, 0, 0)]%Z
                (ply_file "S03" field_on_red)) as [Htrace Hout]. by apply Heta.
Defined.
